(** * go-web-analyzer: the analysis pipeline of [analyzer.go]

    The development embeds the functions of [analyzer.go] ([normalizeURL],
    [detectHTMLVersion], [countHeadings], [classifyLinks], [sameHost],
    [hasLoginForm], [linkAccessible], [checkLinksAccessibility],
    [AnalyzeURL]) over models of the libraries they call:

    - [strings]: Go strings are byte strings, here [string] with [ascii]
      as the byte;
    - [unicode/utf8], [unicode]: runes are read from the bytes as Go
      reads them, and [unicode.SimpleFold] runs over the case tables of
      Unicode 15.0.0;
    - [net/url]: [url_Parse], [url_String], [url_ResolveReference], ...
      follow the Go 1.22 sources function by function;
    - [goquery]/[cascadia]: the parsed document is a tree of [Node]s, a
      selector is its syntax tree, [Find] is the pre-order list of matching
      descendants;
    - [net/http]: a transport is a function from requests to round trips,
      [client_Do] follows redirects over it.  *)

From Stdlib Require Import ZArith NArith Ascii String Bool List DecimalString.
From stdpp Require Import base gmap strings list.

Local Open Scope stdpp_scope.
Set Default Proof Using "Type".

(* ================================================================== *)
(** ** Bytes and the [strings] package *)
(* ================================================================== *)

Definition byte_of (n : N) : ascii := ascii_of_N n.
Definition byte_val (c : ascii) : N := N_of_ascii c.

(** [lo <= c && c <= hi] on bytes. *)
Definition byte_between (lo hi c : ascii) : bool :=
  (byte_val lo <=? byte_val c)%N && (byte_val c <=? byte_val hi)%N.

Definition is_lower (c : ascii) : bool := byte_between "a" "z" c.
Definition is_upper (c : ascii) : bool := byte_between "A" "Z" c.
Definition is_digit (c : ascii) : bool := byte_between "0" "9" c.

(** [c] is one of the bytes of [set]. *)
Fixpoint byte_in (c : ascii) (set : string) : bool :=
  match set with
  | EmptyString => false
  | String d set' => Ascii.eqb c d || byte_in c set'
  end.

Fixpoint string_rev_onto (s acc : string) : string :=
  match s with
  | EmptyString => acc
  | String c s' => string_rev_onto s' (String c acc)
  end.
Definition string_rev (s : string) : string := string_rev_onto s "".

(** [s[:n]] and [s[n:]]; the callers keep [n <= len(s)]. *)
Fixpoint string_take (n : nat) (s : string) : string :=
  match n, s with
  | S n', String c s' => String c (string_take n' s')
  | _, _ => ""
  end.
Fixpoint string_drop (n : nat) (s : string) : string :=
  match n, s with
  | S n', String _ s' => string_drop n' s'
  | _, _ => s
  end.

Fixpoint strings_HasPrefix (s prefix : string) {struct prefix} : bool :=
  match prefix, s with
  | EmptyString, _ => true
  | String p prefix', String c s' => Ascii.eqb c p && strings_HasPrefix s' prefix'
  | String _ _, EmptyString => false
  end.

Definition strings_HasSuffix (s suffix : string) : bool :=
  strings_HasPrefix (string_rev s) (string_rev suffix).

(** [strings.Contains(s, substr)]. *)
Fixpoint strings_Contains (s substr : string) : bool :=
  strings_HasPrefix s substr ||
  match s with
  | EmptyString => false
  | String _ s' => strings_Contains s' substr
  end.

(** [strings.IndexByte]; Go's [-1] is [None]. *)
Fixpoint strings_IndexByte (s : string) (c : ascii) : option nat :=
  match s with
  | EmptyString => None
  | String d s' =>
      if Ascii.eqb d c then Some 0
      else option_map S (strings_IndexByte s' c)
  end.

(** [strings.LastIndexByte]. *)
Fixpoint strings_LastIndexByte (s : string) (c : ascii) : option nat :=
  match s with
  | EmptyString => None
  | String d s' =>
      match strings_LastIndexByte s' c with
      | Some i => Some (S i)
      | None => if Ascii.eqb d c then Some 0 else None
      end
  end.

(** [strings.Index(s, substr)] for an arbitrary [substr]. *)
Fixpoint strings_Index (s substr : string) : option nat :=
  if strings_HasPrefix s substr then Some 0
  else match s with
       | EmptyString => None
       | String _ s' => option_map S (strings_Index s' substr)
       end.

(** [strings.Count(s, sep)] for a separator of one byte. *)
Fixpoint strings_CountByte (s : string) (c : ascii) : nat :=
  match s with
  | EmptyString => 0
  | String d s' => (if Ascii.eqb d c then 1 else 0) + strings_CountByte s' c
  end.

(** [strings.Cut(s, sep)] for a separator of one byte: the text before
    the first [sep], the text after it, and whether [sep] occurs. *)
Fixpoint strings_Cut (s : string) (sep : ascii) : string * string * bool :=
  match s with
  | EmptyString => ("", "", false)
  | String c s' =>
      if Ascii.eqb c sep then ("", s', true)
      else let '(before, after, found) := strings_Cut s' sep in
           (String c before, after, found)
  end.

(** ASCII lower-casing of one byte. *)
Definition lower_byte (c : ascii) : ascii :=
  if is_upper c then byte_of (byte_val c + 32) else c.

(** [strings.ToLower] on the strings it is applied to here: the scheme
    returned by [getScheme], which holds ASCII letters, digits, [+], [-]
    and [.] only. *)
Fixpoint strings_ToLower (s : string) : string :=
  match s with
  | EmptyString => ""
  | String c s' => String (lower_byte c) (strings_ToLower s')
  end.

(* ================================================================== *)
(** ** Runes: [unicode/utf8] and the case tables of [unicode] *)
(* ================================================================== *)

Local Open Scope Z_scope.

(** A rune is an [int32], here a [Z]; a byte as a number. *)
Definition byte_Z (c : ascii) : Z := Z.of_N (byte_val c).

Definition utf8_RuneSelf : Z := 0x80.
Definition utf8_RuneError : Z := 0xFFFD.
Definition unicode_MaxRune : Z := 0x10FFFF.
Definition unicode_MaxASCII : Z := 0x7F.

(** The table [first] of [unicode/utf8] on a leading byte that is not
    ASCII: the length of the sequence and the range that the second
    byte must lie in; [None] for a byte that starts no sequence. *)
Definition utf8_first (b0 : Z) : option (Z * Z * Z) :=
  if (0xC2 <=? b0) && (b0 <=? 0xDF) then Some (2, 0x80, 0xBF)
  else if b0 =? 0xE0 then Some (3, 0xA0, 0xBF)
  else if ((0xE1 <=? b0) && (b0 <=? 0xEC)) || (b0 =? 0xEE) || (b0 =? 0xEF)
  then Some (3, 0x80, 0xBF)
  else if b0 =? 0xED then Some (3, 0x80, 0x9F)
  else if b0 =? 0xF0 then Some (4, 0x90, 0xBF)
  else if (0xF1 <=? b0) && (b0 <=? 0xF3) then Some (4, 0x80, 0xBF)
  else if b0 =? 0xF4 then Some (4, 0x80, 0x8F)
  else None.

(** A continuation byte, [locb <= b && b <= hicb]. *)
Definition utf8_cont (b : Z) : bool := (0x80 <=? b) && (b <=? 0xBF).

(** The runes of a string as [for _, r := range s] and
    [utf8.DecodeRuneInString] read them: a byte that starts no valid
    sequence is read as [RuneError], one byte wide. *)
Fixpoint utf8_runes (s : string) : list Z :=
  match s with
  | EmptyString => []
  | String c0 s1 =>
      let b0 := byte_Z c0 in
      let invalid := utf8_RuneError :: utf8_runes s1 in
      if b0 <? utf8_RuneSelf then b0 :: utf8_runes s1
      else
        match utf8_first b0, s1 with
        | Some (sz, lo, hi), String c1 s2 =>
            let b1 := byte_Z c1 in
            if (b1 <? lo) || (hi <? b1) then invalid
            else if sz <=? 2
            then Z.lor (Z.shiftl (Z.land b0 0x1F) 6) (Z.land b1 0x3F) :: utf8_runes s2
            else
              match s2 with
              | String c2 s3 =>
                  let b2 := byte_Z c2 in
                  if negb (utf8_cont b2) then invalid
                  else if sz <=? 3
                  then Z.lor (Z.shiftl (Z.land b0 0x0F) 12)
                         (Z.lor (Z.shiftl (Z.land b1 0x3F) 6) (Z.land b2 0x3F))
                       :: utf8_runes s3
                  else
                    match s3 with
                    | String c3 s4 =>
                        let b3 := byte_Z c3 in
                        if negb (utf8_cont b3) then invalid
                        else Z.lor (Z.shiftl (Z.land b0 0x07) 18)
                               (Z.lor (Z.shiftl (Z.land b1 0x3F) 12)
                                  (Z.lor (Z.shiftl (Z.land b2 0x3F) 6)
                                     (Z.land b3 0x3F)))
                             :: utf8_runes s4
                    | EmptyString => invalid
                    end
              | EmptyString => invalid
              end
        | _, _ => invalid
        end
  end.

(** [unicode.CaseRange]: the runes [Lo..Hi] and the distances to their
    upper-case and lower-case forms (the title-case distance is not used
    here).  [UpperLower] marks a run of alternating upper-case and
    lower-case letters. *)
Record CaseRange : Type := mkCaseRange {
  cr_Lo : Z;
  cr_Hi : Z;
  cr_DeltaUpper : Z;
  cr_DeltaLower : Z
}.

Definition UpperCase : Z := 0.
Definition LowerCase : Z := 1.
Definition UpperLower : Z := unicode_MaxRune + 1.

Definition CR (lo hi upper lower : Z) : CaseRange := mkCaseRange lo hi upper lower.
Definition UL (lo hi : Z) : CaseRange := mkCaseRange lo hi UpperLower UpperLower.

(** A pair of [caseOrbit]: [From] folds to [To]. *)
Definition foldPair : Type := (Z * Z)%type.

(** The tables [caseOrbit] and [CaseRanges] of Unicode 15.0.0, the
    version of Go 1.22: the runes whose simple case folding is not given
    by their lower-case or upper-case form, and the simple lower-case and
    upper-case mappings. *)
Definition caseOrbit : list foldPair :=
  [(0x004B, 0x006B); (0x0053, 0x0073); (0x006B, 0x212A); (0x0073, 0x017F);
   (0x00B5, 0x039C); (0x00C5, 0x00E5); (0x00DF, 0x1E9E); (0x00E5, 0x212B);
   (0x0130, 0x0130); (0x0131, 0x0131); (0x017F, 0x0053); (0x01C4, 0x01C5);
   (0x01C5, 0x01C6); (0x01C6, 0x01C4); (0x01C7, 0x01C8); (0x01C8, 0x01C9);
   (0x01C9, 0x01C7); (0x01CA, 0x01CB); (0x01CB, 0x01CC); (0x01CC, 0x01CA);
   (0x01F1, 0x01F2); (0x01F2, 0x01F3); (0x01F3, 0x01F1); (0x0345, 0x0399);
   (0x0392, 0x03B2); (0x0395, 0x03B5); (0x0398, 0x03B8); (0x0399, 0x03B9);
   (0x039A, 0x03BA); (0x039C, 0x03BC); (0x03A0, 0x03C0); (0x03A1, 0x03C1);
   (0x03A3, 0x03C2); (0x03A6, 0x03C6); (0x03A9, 0x03C9); (0x03B2, 0x03D0);
   (0x03B5, 0x03F5); (0x03B8, 0x03D1); (0x03B9, 0x1FBE); (0x03BA, 0x03F0);
   (0x03BC, 0x00B5); (0x03C0, 0x03D6); (0x03C1, 0x03F1); (0x03C2, 0x03C3);
   (0x03C3, 0x03A3); (0x03C6, 0x03D5); (0x03C9, 0x2126); (0x03D0, 0x0392);
   (0x03D1, 0x03F4); (0x03D5, 0x03A6); (0x03D6, 0x03A0); (0x03F0, 0x039A);
   (0x03F1, 0x03A1); (0x03F4, 0x0398); (0x03F5, 0x0395); (0x0412, 0x0432);
   (0x0414, 0x0434); (0x041E, 0x043E); (0x0421, 0x0441); (0x0422, 0x0442);
   (0x042A, 0x044A); (0x0432, 0x1C80); (0x0434, 0x1C81); (0x043E, 0x1C82);
   (0x0441, 0x1C83); (0x0442, 0x1C84); (0x044A, 0x1C86); (0x0462, 0x0463);
   (0x0463, 0x1C87); (0x1C80, 0x0412); (0x1C81, 0x0414); (0x1C82, 0x041E);
   (0x1C83, 0x0421); (0x1C84, 0x1C85); (0x1C85, 0x0422); (0x1C86, 0x042A);
   (0x1C87, 0x0462); (0x1C88, 0xA64A); (0x1E60, 0x1E61); (0x1E61, 0x1E9B);
   (0x1E9B, 0x1E60); (0x1E9E, 0x00DF); (0x1FBE, 0x0345); (0x2126, 0x03A9);
   (0x212A, 0x004B); (0x212B, 0x00C5); (0xA64A, 0xA64B); (0xA64B, 0x1C88)].

Definition CaseRanges : list CaseRange :=
  [CR 0x0041 0x005A 0 32; CR 0x0061 0x007A (-32) 0; CR 0x00B5 0x00B5 743 0;
   CR 0x00C0 0x00D6 0 32; CR 0x00D8 0x00DE 0 32; CR 0x00E0 0x00F6 (-32) 0;
   CR 0x00F8 0x00FE (-32) 0; CR 0x00FF 0x00FF 121 0; UL 0x0100 0x012F;
   CR 0x0130 0x0130 0 (-199); CR 0x0131 0x0131 (-232) 0; UL 0x0132 0x0137;
   UL 0x0139 0x0148; UL 0x014A 0x0177; CR 0x0178 0x0178 0 (-121);
   UL 0x0179 0x017E; CR 0x017F 0x017F (-300) 0; CR 0x0180 0x0180 195 0;
   CR 0x0181 0x0181 0 210; UL 0x0182 0x0185; CR 0x0186 0x0186 0 206;
   UL 0x0187 0x0188; CR 0x0189 0x018A 0 205; UL 0x018B 0x018C;
   CR 0x018E 0x018E 0 79; CR 0x018F 0x018F 0 202; CR 0x0190 0x0190 0 203;
   UL 0x0191 0x0192; CR 0x0193 0x0193 0 205; CR 0x0194 0x0194 0 207;
   CR 0x0195 0x0195 97 0; CR 0x0196 0x0196 0 211; CR 0x0197 0x0197 0 209;
   UL 0x0198 0x0199; CR 0x019A 0x019A 163 0; CR 0x019C 0x019C 0 211;
   CR 0x019D 0x019D 0 213; CR 0x019E 0x019E 130 0; CR 0x019F 0x019F 0 214;
   UL 0x01A0 0x01A5; CR 0x01A6 0x01A6 0 218; UL 0x01A7 0x01A8;
   CR 0x01A9 0x01A9 0 218; UL 0x01AC 0x01AD; CR 0x01AE 0x01AE 0 218;
   UL 0x01AF 0x01B0; CR 0x01B1 0x01B2 0 217; UL 0x01B3 0x01B6;
   CR 0x01B7 0x01B7 0 219; UL 0x01B8 0x01B9; UL 0x01BC 0x01BD;
   CR 0x01BF 0x01BF 56 0; CR 0x01C4 0x01C4 0 2; CR 0x01C5 0x01C5 (-1) 1;
   CR 0x01C6 0x01C6 (-2) 0; CR 0x01C7 0x01C7 0 2; CR 0x01C8 0x01C8 (-1) 1;
   CR 0x01C9 0x01C9 (-2) 0; CR 0x01CA 0x01CA 0 2; CR 0x01CB 0x01CB (-1) 1;
   CR 0x01CC 0x01CC (-2) 0; UL 0x01CD 0x01DC; CR 0x01DD 0x01DD (-79) 0;
   UL 0x01DE 0x01EF; CR 0x01F1 0x01F1 0 2; CR 0x01F2 0x01F2 (-1) 1;
   CR 0x01F3 0x01F3 (-2) 0; UL 0x01F4 0x01F5; CR 0x01F6 0x01F6 0 (-97);
   CR 0x01F7 0x01F7 0 (-56); UL 0x01F8 0x021F; CR 0x0220 0x0220 0 (-130);
   UL 0x0222 0x0233; CR 0x023A 0x023A 0 10795; UL 0x023B 0x023C;
   CR 0x023D 0x023D 0 (-163); CR 0x023E 0x023E 0 10792; CR 0x023F 0x0240 10815 0;
   UL 0x0241 0x0242; CR 0x0243 0x0243 0 (-195); CR 0x0244 0x0244 0 69;
   CR 0x0245 0x0245 0 71; UL 0x0246 0x024F; CR 0x0250 0x0250 10783 0;
   CR 0x0251 0x0251 10780 0; CR 0x0252 0x0252 10782 0; CR 0x0253 0x0253 (-210) 0;
   CR 0x0254 0x0254 (-206) 0; CR 0x0256 0x0257 (-205) 0; CR 0x0259 0x0259 (-202) 0;
   CR 0x025B 0x025B (-203) 0; CR 0x025C 0x025C 42319 0; CR 0x0260 0x0260 (-205) 0;
   CR 0x0261 0x0261 42315 0; CR 0x0263 0x0263 (-207) 0; CR 0x0265 0x0265 42280 0;
   CR 0x0266 0x0266 42308 0; CR 0x0268 0x0268 (-209) 0; CR 0x0269 0x0269 (-211) 0;
   CR 0x026A 0x026A 42308 0; CR 0x026B 0x026B 10743 0; CR 0x026C 0x026C 42305 0;
   CR 0x026F 0x026F (-211) 0; CR 0x0271 0x0271 10749 0; CR 0x0272 0x0272 (-213) 0;
   CR 0x0275 0x0275 (-214) 0; CR 0x027D 0x027D 10727 0; CR 0x0280 0x0280 (-218) 0;
   CR 0x0282 0x0282 42307 0; CR 0x0283 0x0283 (-218) 0; CR 0x0287 0x0287 42282 0;
   CR 0x0288 0x0288 (-218) 0; CR 0x0289 0x0289 (-69) 0; CR 0x028A 0x028B (-217) 0;
   CR 0x028C 0x028C (-71) 0; CR 0x0292 0x0292 (-219) 0; CR 0x029D 0x029D 42261 0;
   CR 0x029E 0x029E 42258 0; CR 0x0345 0x0345 84 0; UL 0x0370 0x0373;
   UL 0x0376 0x0377; CR 0x037B 0x037D 130 0; CR 0x037F 0x037F 0 116;
   CR 0x0386 0x0386 0 38; CR 0x0388 0x038A 0 37; CR 0x038C 0x038C 0 64;
   CR 0x038E 0x038F 0 63; CR 0x0391 0x03A1 0 32; CR 0x03A3 0x03AB 0 32;
   CR 0x03AC 0x03AC (-38) 0; CR 0x03AD 0x03AF (-37) 0; CR 0x03B1 0x03C1 (-32) 0;
   CR 0x03C2 0x03C2 (-31) 0; CR 0x03C3 0x03CB (-32) 0; CR 0x03CC 0x03CC (-64) 0;
   CR 0x03CD 0x03CE (-63) 0; CR 0x03CF 0x03CF 0 8; CR 0x03D0 0x03D0 (-62) 0;
   CR 0x03D1 0x03D1 (-57) 0; CR 0x03D5 0x03D5 (-47) 0; CR 0x03D6 0x03D6 (-54) 0;
   CR 0x03D7 0x03D7 (-8) 0; UL 0x03D8 0x03EF; CR 0x03F0 0x03F0 (-86) 0;
   CR 0x03F1 0x03F1 (-80) 0; CR 0x03F2 0x03F2 7 0; CR 0x03F3 0x03F3 (-116) 0;
   CR 0x03F4 0x03F4 0 (-60); CR 0x03F5 0x03F5 (-96) 0; UL 0x03F7 0x03F8;
   CR 0x03F9 0x03F9 0 (-7); UL 0x03FA 0x03FB; CR 0x03FD 0x03FF 0 (-130);
   CR 0x0400 0x040F 0 80; CR 0x0410 0x042F 0 32; CR 0x0430 0x044F (-32) 0;
   CR 0x0450 0x045F (-80) 0; UL 0x0460 0x0481; UL 0x048A 0x04BF;
   CR 0x04C0 0x04C0 0 15; UL 0x04C1 0x04CE; CR 0x04CF 0x04CF (-15) 0;
   UL 0x04D0 0x052F; CR 0x0531 0x0556 0 48; CR 0x0561 0x0586 (-48) 0;
   CR 0x10A0 0x10C5 0 7264; CR 0x10C7 0x10C7 0 7264; CR 0x10CD 0x10CD 0 7264;
   CR 0x10D0 0x10FA 3008 0; CR 0x10FD 0x10FF 3008 0; CR 0x13A0 0x13EF 0 38864;
   CR 0x13F0 0x13F5 0 8; CR 0x13F8 0x13FD (-8) 0; CR 0x1C80 0x1C80 (-6254) 0;
   CR 0x1C81 0x1C81 (-6253) 0; CR 0x1C82 0x1C82 (-6244) 0; CR 0x1C83 0x1C84 (-6242) 0;
   CR 0x1C85 0x1C85 (-6243) 0; CR 0x1C86 0x1C86 (-6236) 0; CR 0x1C87 0x1C87 (-6181) 0;
   CR 0x1C88 0x1C88 35266 0; CR 0x1C90 0x1CBA 0 (-3008); CR 0x1CBD 0x1CBF 0 (-3008);
   CR 0x1D79 0x1D79 35332 0; CR 0x1D7D 0x1D7D 3814 0; CR 0x1D8E 0x1D8E 35384 0;
   UL 0x1E00 0x1E95; CR 0x1E9B 0x1E9B (-59) 0; CR 0x1E9E 0x1E9E 0 (-7615);
   UL 0x1EA0 0x1EFF; CR 0x1F00 0x1F07 8 0; CR 0x1F08 0x1F0F 0 (-8);
   CR 0x1F10 0x1F15 8 0; CR 0x1F18 0x1F1D 0 (-8); CR 0x1F20 0x1F27 8 0;
   CR 0x1F28 0x1F2F 0 (-8); CR 0x1F30 0x1F37 8 0; CR 0x1F38 0x1F3F 0 (-8);
   CR 0x1F40 0x1F45 8 0; CR 0x1F48 0x1F4D 0 (-8); CR 0x1F51 0x1F51 8 0;
   CR 0x1F53 0x1F53 8 0; CR 0x1F55 0x1F55 8 0; CR 0x1F57 0x1F57 8 0;
   CR 0x1F59 0x1F59 0 (-8); CR 0x1F5B 0x1F5B 0 (-8); CR 0x1F5D 0x1F5D 0 (-8);
   CR 0x1F5F 0x1F5F 0 (-8); CR 0x1F60 0x1F67 8 0; CR 0x1F68 0x1F6F 0 (-8);
   CR 0x1F70 0x1F71 74 0; CR 0x1F72 0x1F75 86 0; CR 0x1F76 0x1F77 100 0;
   CR 0x1F78 0x1F79 128 0; CR 0x1F7A 0x1F7B 112 0; CR 0x1F7C 0x1F7D 126 0;
   CR 0x1F80 0x1F87 8 0; CR 0x1F88 0x1F8F 0 (-8); CR 0x1F90 0x1F97 8 0;
   CR 0x1F98 0x1F9F 0 (-8); CR 0x1FA0 0x1FA7 8 0; CR 0x1FA8 0x1FAF 0 (-8);
   CR 0x1FB0 0x1FB1 8 0; CR 0x1FB3 0x1FB3 9 0; CR 0x1FB8 0x1FB9 0 (-8);
   CR 0x1FBA 0x1FBB 0 (-74); CR 0x1FBC 0x1FBC 0 (-9); CR 0x1FBE 0x1FBE (-7205) 0;
   CR 0x1FC3 0x1FC3 9 0; CR 0x1FC8 0x1FCB 0 (-86); CR 0x1FCC 0x1FCC 0 (-9);
   CR 0x1FD0 0x1FD1 8 0; CR 0x1FD8 0x1FD9 0 (-8); CR 0x1FDA 0x1FDB 0 (-100);
   CR 0x1FE0 0x1FE1 8 0; CR 0x1FE5 0x1FE5 7 0; CR 0x1FE8 0x1FE9 0 (-8);
   CR 0x1FEA 0x1FEB 0 (-112); CR 0x1FEC 0x1FEC 0 (-7); CR 0x1FF3 0x1FF3 9 0;
   CR 0x1FF8 0x1FF9 0 (-128); CR 0x1FFA 0x1FFB 0 (-126); CR 0x1FFC 0x1FFC 0 (-9);
   CR 0x2126 0x2126 0 (-7517); CR 0x212A 0x212A 0 (-8383); CR 0x212B 0x212B 0 (-8262);
   CR 0x2132 0x2132 0 28; CR 0x214E 0x214E (-28) 0; CR 0x2160 0x216F 0 16;
   CR 0x2170 0x217F (-16) 0; UL 0x2183 0x2184; CR 0x24B6 0x24CF 0 26;
   CR 0x24D0 0x24E9 (-26) 0; CR 0x2C00 0x2C2F 0 48; CR 0x2C30 0x2C5F (-48) 0;
   UL 0x2C60 0x2C61; CR 0x2C62 0x2C62 0 (-10743); CR 0x2C63 0x2C63 0 (-3814);
   CR 0x2C64 0x2C64 0 (-10727); CR 0x2C65 0x2C65 (-10795) 0; CR 0x2C66 0x2C66 (-10792) 0;
   UL 0x2C67 0x2C6C; CR 0x2C6D 0x2C6D 0 (-10780); CR 0x2C6E 0x2C6E 0 (-10749);
   CR 0x2C6F 0x2C6F 0 (-10783); CR 0x2C70 0x2C70 0 (-10782); UL 0x2C72 0x2C73;
   UL 0x2C75 0x2C76; CR 0x2C7E 0x2C7F 0 (-10815); UL 0x2C80 0x2CE3;
   UL 0x2CEB 0x2CEE; UL 0x2CF2 0x2CF3; CR 0x2D00 0x2D25 (-7264) 0;
   CR 0x2D27 0x2D27 (-7264) 0; CR 0x2D2D 0x2D2D (-7264) 0; UL 0xA640 0xA66D;
   UL 0xA680 0xA69B; UL 0xA722 0xA72F; UL 0xA732 0xA76F;
   UL 0xA779 0xA77C; CR 0xA77D 0xA77D 0 (-35332); UL 0xA77E 0xA787;
   UL 0xA78B 0xA78C; CR 0xA78D 0xA78D 0 (-42280); UL 0xA790 0xA793;
   CR 0xA794 0xA794 48 0; UL 0xA796 0xA7A9; CR 0xA7AA 0xA7AA 0 (-42308);
   CR 0xA7AB 0xA7AB 0 (-42319); CR 0xA7AC 0xA7AC 0 (-42315); CR 0xA7AD 0xA7AD 0 (-42305);
   CR 0xA7AE 0xA7AE 0 (-42308); CR 0xA7B0 0xA7B0 0 (-42258); CR 0xA7B1 0xA7B1 0 (-42282);
   CR 0xA7B2 0xA7B2 0 (-42261); CR 0xA7B3 0xA7B3 0 928; UL 0xA7B4 0xA7C3;
   CR 0xA7C4 0xA7C4 0 (-48); CR 0xA7C5 0xA7C5 0 (-42307); CR 0xA7C6 0xA7C6 0 (-35384);
   UL 0xA7C7 0xA7CA; UL 0xA7D0 0xA7D1; UL 0xA7D6 0xA7D9;
   UL 0xA7F5 0xA7F6; CR 0xAB53 0xAB53 (-928) 0; CR 0xAB70 0xABBF (-38864) 0;
   CR 0xFF21 0xFF3A 0 32; CR 0xFF41 0xFF5A (-32) 0; CR 0x10400 0x10427 0 40;
   CR 0x10428 0x1044F (-40) 0; CR 0x104B0 0x104D3 0 40; CR 0x104D8 0x104FB (-40) 0;
   CR 0x10570 0x1057A 0 39; CR 0x1057C 0x1058A 0 39; CR 0x1058C 0x10592 0 39;
   CR 0x10594 0x10595 0 39; CR 0x10597 0x105A1 (-39) 0; CR 0x105A3 0x105B1 (-39) 0;
   CR 0x105B3 0x105B9 (-39) 0; CR 0x105BB 0x105BC (-39) 0; CR 0x10C80 0x10CB2 0 64;
   CR 0x10CC0 0x10CF2 (-64) 0; CR 0x118A0 0x118BF 0 32; CR 0x118C0 0x118DF (-32) 0;
   CR 0x16E40 0x16E5F 0 32; CR 0x16E60 0x16E7F (-32) 0; CR 0x1E900 0x1E921 0 34;
   CR 0x1E922 0x1E943 (-34) 0].

(** [unicode.to]: the mapping of [r] in the range that holds it.  The
    ranges are sorted and disjoint, so the first range that holds [r] is
    the one that the binary search of [to] finds. *)
Fixpoint unicode_to (_case : Z) (r : Z) (caseRange : list CaseRange) : Z :=
  match caseRange with
  | [] => r
  | cr :: rest =>
      if (cr_Lo cr <=? r) && (r <=? cr_Hi cr) then
        let delta := if _case =? UpperCase then cr_DeltaUpper cr
                     else cr_DeltaLower cr in
        if unicode_MaxRune <? delta
        then cr_Lo cr + Z.lor (Z.ldiff (r - cr_Lo cr) 1) (Z.land _case 1)
        else r + delta
      else unicode_to _case r rest
  end.

(** [unicode.ToLower] and [unicode.ToUpper]. *)
Definition unicode_ToLower (r : Z) : Z :=
  if r <=? unicode_MaxASCII
  then (if (0x41 <=? r) && (r <=? 0x5A) then r + 0x20 else r)
  else unicode_to LowerCase r CaseRanges.

Definition unicode_ToUpper (r : Z) : Z :=
  if r <=? unicode_MaxASCII
  then (if (0x61 <=? r) && (r <=? 0x7A) then r - 0x20 else r)
  else unicode_to UpperCase r CaseRanges.

(** The table [asciiFold]: a letter folds to its other case, [k] to the
    Kelvin sign and [s] to the long s. *)
Definition asciiFold (r : Z) : Z :=
  if r =? 0x6B then 0x212A
  else if r =? 0x73 then 0x017F
  else if (0x41 <=? r) && (r <=? 0x5A) then r + 0x20
  else if (0x61 <=? r) && (r <=? 0x7A) then r - 0x20
  else r.

(** The entry of [r] in [caseOrbit]. *)
Fixpoint caseOrbit_lookup (orbit : list foldPair) (r : Z) : option Z :=
  match orbit with
  | [] => None
  | (from, to) :: rest => if from =? r then Some to else caseOrbit_lookup rest r
  end.

(** [unicode.SimpleFold]: the next rune in the orbit of [r], the smallest
    rune above [r] that is equal to it under simple case folding, or the
    smallest of the orbit when there is none above. *)
Definition unicode_SimpleFold (r : Z) : Z :=
  if (r <? 0) || (unicode_MaxRune <? r) then r
  else if r <? 0x80 then asciiFold r
  else
    match caseOrbit_lookup caseOrbit r with
    | Some to => to
    | None =>
        (* no folding specified: a class of one or two runes, with
           ToLower(r) and ToUpper(r) when they differ from r *)
        let l := unicode_ToLower r in
        if negb (l =? r) then l else unicode_ToUpper r
    end.

(** The loop [for r != sr && r < tr { r = unicode.SimpleFold(r) }] of
    [strings.EqualFold].  An orbit has four runes at most, so the loop
    takes three turns at most ([simpleFold_until_fuel] below). *)
Fixpoint simpleFold_until (fuel : nat) (r sr tr : Z) : Z :=
  match fuel with
  | O => r
  | S fuel' =>
      if negb (r =? sr) && (r <? tr)
      then simpleFold_until fuel' (unicode_SimpleFold r) sr tr
      else r
  end.

(** One turn of the rune loop of [strings.EqualFold]: do the runes [sr]
    and [tr] match? *)
Definition rune_EqualFold (sr tr : Z) : bool :=
  if tr =? sr then true
  else
    (* make sr < tr to simplify what follows *)
    let '(sr, tr) := if tr <? sr then (tr, sr) else (sr, tr) in
    if tr <? utf8_RuneSelf
    then (* ASCII only, sr/tr must be upper/lower case *)
      (0x41 <=? sr) && (sr <=? 0x5A) && (tr =? sr + 0x20)
    else
      let r := simpleFold_until 4%nat (unicode_SimpleFold sr) sr tr in
      r =? tr.

(** The part of [strings.EqualFold] after [hasUnicode], on the runes of
    what is left of [s] and [t]. *)
Fixpoint equalFold_hasUnicode (s t : list Z) : bool :=
  match s, t with
  | [], [] => true
  | sr :: s', tr :: t' => rune_EqualFold sr tr && equalFold_hasUnicode s' t'
  | _, _ => false
  end.

(** [strings.EqualFold]: bytes are compared as long as both are ASCII,
    runes from the first byte on that is not. *)
Fixpoint strings_EqualFold (s t : string) : bool :=
  match s, t with
  | EmptyString, EmptyString => true
  | String c s', String d t' =>
      let sr := byte_Z c in
      let tr := byte_Z d in
      if utf8_RuneSelf <=? Z.lor sr tr
      then equalFold_hasUnicode (utf8_runes s) (utf8_runes t)
      else if tr =? sr then strings_EqualFold s' t'
      else
        let '(sr, tr) := if tr <? sr then (tr, sr) else (sr, tr) in
        if (0x41 <=? sr) && (sr <=? 0x5A) && (tr =? sr + 0x20)
        then strings_EqualFold s' t'
        else false
  | _, _ => false
  end.

Local Close Scope Z_scope.

(* ================================================================== *)
(** ** White space *)
(* ================================================================== *)

(** The six ASCII white-space bytes of [strings.asciiSpace]. *)
Definition asciiSpace (c : ascii) : bool :=
  match byte_val c with
  | 9 | 10 | 11 | 12 | 13 | 32 => true
  | _ => false
  end%N.

(** The UTF-8 encodings of the white-space runes above ASCII that
    [unicode.IsSpace] accepts: U+0085 and U+00A0 take two bytes ... *)
Definition space2 (a b : ascii) : bool :=
  match byte_val a, byte_val b with
  | 194, 133 | 194, 160 => true
  | _, _ => false
  end%N.

(** ... and U+1680, U+2000..U+200A, U+2028, U+2029, U+202F, U+205F and
    U+3000 take three. *)
Definition space3 (a b c : ascii) : bool :=
  match byte_val a, byte_val b, byte_val c with
  | 225, 154, 128 => true
  | 226, 128, n => (128 <=? n)%N && (n <=? 138)%N
                   || (n =? 168)%N || (n =? 169)%N || (n =? 175)%N
  | 226, 129, 159 => true
  | 227, 128, 128 => true
  | _, _, _ => false
  end%N.

(** [strings.TrimLeftFunc(s, unicode.IsSpace)]: drop leading white-space
    runes.  A byte sequence that is not the encoding of a rune decodes to
    U+FFFD, which is not white space, so the scan stops there. *)
Fixpoint trim_left_space (s : string) : string :=
  match s with
  | EmptyString => ""
  | String a s1 =>
      if asciiSpace a then trim_left_space s1
      else match s1 with
           | EmptyString => s
           | String b s2 =>
               if space2 a b then trim_left_space s2
               else match s2 with
                    | EmptyString => s
                    | String c s3 =>
                        if space3 a b c then trim_left_space s3 else s
                    end
           end
  end.

(** The same scan from the end, on the reversed string: the bytes of the
    multi-byte runes arrive last byte first. *)
Fixpoint trim_left_space_rev (s : string) : string :=
  match s with
  | EmptyString => ""
  | String a s1 =>
      if asciiSpace a then trim_left_space_rev s1
      else match s1 with
           | EmptyString => s
           | String b s2 =>
               if space2 b a then trim_left_space_rev s2
               else match s2 with
                    | EmptyString => s
                    | String c s3 =>
                        if space3 c b a then trim_left_space_rev s3 else s
                    end
           end
  end.

Definition trim_right_space (s : string) : string :=
  string_rev (trim_left_space_rev (string_rev s)).

(** [strings.TrimSpace]. *)
Definition strings_TrimSpace (s : string) : string :=
  trim_right_space (trim_left_space s).

(** [s == ""]. *)
Definition is_empty (s : string) : bool :=
  match s with EmptyString => true | _ => false end.

(* ================================================================== *)
(** ** The [net/url] package *)
(* ================================================================== *)

Inductive url_error : Type :=
  | ErrInvalidControlCharacter   (* invalid control character in URL *)
  | ErrEmptyURL                  (* empty url *)
  | ErrMissingProtocolScheme     (* missing protocol scheme *)
  | ErrInvalidURIForRequest      (* invalid URI for request *)
  | ErrFirstSegmentColon         (* first path segment in URL cannot contain colon *)
  | ErrMissingBracket            (* missing ']' in host *)
  | ErrInvalidPort (colonPort : string)
  | ErrInvalidUserinfo           (* net/url: invalid userinfo *)
  | EscapeError (s : string)
  | InvalidHostError (s : string).

(** A value or an error, as Go's [(T, error)] results. *)
Inductive result (E A : Type) : Type :=
  | Ok (a : A)
  | Err (e : E).
Arguments Ok {E A} a.
Arguments Err {E A} e.

Definition is_ok {E A} (r : result E A) : bool :=
  match r with Ok _ => true | Err _ => false end.

Inductive encoding : Type :=
  | encodePath | encodePathSegment | encodeHost | encodeZone
  | encodeUserPassword | encodeQueryComponent | encodeFragment.

Definition host_or_zone (mode : encoding) : bool :=
  match mode with encodeHost | encodeZone => true | _ => false end.

Definition is_query_component (mode : encoding) : bool :=
  match mode with encodeQueryComponent => true | _ => false end.

Definition double_quote : ascii := byte_of 34.

(** [shouldEscape(c, mode)]. *)
Definition shouldEscape (c : ascii) (mode : encoding) : bool :=
  if is_lower c || is_upper c || is_digit c then false
  else if host_or_zone mode
          && (byte_in c "!$&'()*+,;=:[]<>" || Ascii.eqb c double_quote)
  then false
  else if byte_in c "-_.~" then false
  else if byte_in c "$&+,/:;=?@" then
    match mode with
    | encodePath => Ascii.eqb c "?"
    | encodePathSegment => byte_in c "/;,?"
    | encodeUserPassword => byte_in c "@/?:"
    | encodeQueryComponent => true
    | encodeFragment => false
    | encodeHost | encodeZone => true
    end
  else match mode with
       | encodeFragment => negb (byte_in c "!()*")
       | _ => true
       end.

Definition ishex (c : ascii) : bool :=
  is_digit c || byte_between "a" "f" c || byte_between "A" "F" c.

Definition unhex (c : ascii) : N :=
  if is_digit c then byte_val c - byte_val "0"
  else if byte_between "a" "f" c then byte_val c - byte_val "a" + 10
  else if byte_between "A" "F" c then byte_val c - byte_val "A" + 10
  else 0.

(** [upperhex[n]] for [n < 16]. *)
Definition upperhex (n : N) : ascii :=
  if (n <? 10)%N then byte_of (byte_val "0" + n)
  else byte_of (byte_val "A" + (n - 10)).

(** The first loop of [unescape]: the escapes are well formed and, in a
    host, no byte needs escaping. *)
Fixpoint unescape_check (s : string) (mode : encoding) : option url_error :=
  match s with
  | EmptyString => None
  | String c s1 =>
      if Ascii.eqb c "%" then
        match s1 with
        | String h1 (String h2 s3) =>
            if ishex h1 && ishex h2 then
              let is25 := Ascii.eqb h1 "2" && Ascii.eqb h2 "5" in
              let esc := String c (String h1 (String h2 "")) in
              let v := byte_of (unhex h1 * 16 + unhex h2) in
              match mode with
              | encodeHost =>
                  if (unhex h1 <? 8)%N && negb is25
                  then Some (EscapeError esc)
                  else unescape_check s3 mode
              | encodeZone =>
                  if negb is25 && negb (Ascii.eqb v " ")
                     && shouldEscape v encodeHost
                  then Some (EscapeError esc)
                  else unescape_check s3 mode
              | _ => unescape_check s3 mode
              end
            else Some (EscapeError (string_take 3 s))
        | _ => Some (EscapeError (string_take 3 s))
        end
      else if Ascii.eqb c "+" then unescape_check s1 mode
      else if host_or_zone mode && (byte_val c <? 128)%N
              && shouldEscape c encodeHost
      then Some (InvalidHostError (String c ""))
      else unescape_check s1 mode
  end.

(** The second loop of [unescape], run on checked input.  (Go returns
    [s] itself when it holds no escape; the loop gives the same bytes.) *)
Fixpoint unescape_decode (s : string) (mode : encoding) : string :=
  match s with
  | EmptyString => ""
  | String c s1 =>
      if Ascii.eqb c "%" then
        match s1 with
        | String h1 (String h2 s3) =>
            String (byte_of (unhex h1 * 16 + unhex h2)) (unescape_decode s3 mode)
        | _ => s
        end
      else if Ascii.eqb c "+" then
        String (if is_query_component mode then " "%char else "+"%char)
               (unescape_decode s1 mode)
      else String c (unescape_decode s1 mode)
  end.

Definition unescape (s : string) (mode : encoding) : result url_error string :=
  match unescape_check s mode with
  | Some e => Err e
  | None => Ok (unescape_decode s mode)
  end.

Fixpoint escape (s : string) (mode : encoding) : string :=
  match s with
  | EmptyString => ""
  | String c s' =>
      if Ascii.eqb c " " && is_query_component mode
      then String "+" (escape s' mode)
      else if shouldEscape c mode
      then String "%" (String (upperhex (byte_val c / 16))
                      (String (upperhex (byte_val c mod 16)) (escape s' mode)))
      else String c (escape s' mode)
  end.

Record Userinfo : Type := mkUserinfo {
  username : string;
  password : string;
  passwordSet : bool
}.

Record URL : Type := mkURL {
  Scheme : string;
  Opaque : string;
  User : option Userinfo;   (* nil is None *)
  Host : string;
  Path : string;
  RawPath : string;
  OmitHost : bool;
  ForceQuery : bool;
  RawQuery : string;
  Fragment : string;
  RawFragment : string
}.

(** [new(URL)]. *)
Definition URL_zero : URL :=
  mkURL "" "" None "" "" "" false false "" "" "".

Definition with_Scheme (v : string) (u : URL) : URL :=
  mkURL v (Opaque u) (User u) (Host u) (Path u) (RawPath u) (OmitHost u)
        (ForceQuery u) (RawQuery u) (Fragment u) (RawFragment u).
Definition with_Opaque (v : string) (u : URL) : URL :=
  mkURL (Scheme u) v (User u) (Host u) (Path u) (RawPath u) (OmitHost u)
        (ForceQuery u) (RawQuery u) (Fragment u) (RawFragment u).
Definition with_User (v : option Userinfo) (u : URL) : URL :=
  mkURL (Scheme u) (Opaque u) v (Host u) (Path u) (RawPath u) (OmitHost u)
        (ForceQuery u) (RawQuery u) (Fragment u) (RawFragment u).
Definition with_Host (v : string) (u : URL) : URL :=
  mkURL (Scheme u) (Opaque u) (User u) v (Path u) (RawPath u) (OmitHost u)
        (ForceQuery u) (RawQuery u) (Fragment u) (RawFragment u).
Definition with_Path (p rp : string) (u : URL) : URL :=
  mkURL (Scheme u) (Opaque u) (User u) (Host u) p rp (OmitHost u)
        (ForceQuery u) (RawQuery u) (Fragment u) (RawFragment u).
Definition with_OmitHost (v : bool) (u : URL) : URL :=
  mkURL (Scheme u) (Opaque u) (User u) (Host u) (Path u) (RawPath u) v
        (ForceQuery u) (RawQuery u) (Fragment u) (RawFragment u).
Definition with_ForceQuery (v : bool) (u : URL) : URL :=
  mkURL (Scheme u) (Opaque u) (User u) (Host u) (Path u) (RawPath u)
        (OmitHost u) v (RawQuery u) (Fragment u) (RawFragment u).
Definition with_RawQuery (v : string) (u : URL) : URL :=
  mkURL (Scheme u) (Opaque u) (User u) (Host u) (Path u) (RawPath u)
        (OmitHost u) (ForceQuery u) v (Fragment u) (RawFragment u).
Definition with_Fragment (f rf : string) (u : URL) : URL :=
  mkURL (Scheme u) (Opaque u) (User u) (Host u) (Path u) (RawPath u)
        (OmitHost u) (ForceQuery u) (RawQuery u) f rf.

(** [stringContainsCTLByte]: a byte below the space or DEL. *)
Fixpoint stringContainsCTLByte (s : string) : bool :=
  match s with
  | EmptyString => false
  | String c s' =>
      (byte_val c <? 32)%N || (byte_val c =? 127)%N || stringContainsCTLByte s'
  end.

(** The loop of [getScheme], at index [i] with [rest = rawURL[i:]]. *)
Fixpoint getScheme_loop (rest : string) (i : nat) (rawURL : string)
  : result url_error (string * string) :=
  match rest with
  | EmptyString => Ok ("", rawURL)
  | String c rest' =>
      if is_lower c || is_upper c then getScheme_loop rest' (S i) rawURL
      else if is_digit c || byte_in c "+-." then
        if Nat.eqb i 0 then Ok ("", rawURL)
        else getScheme_loop rest' (S i) rawURL
      else if Ascii.eqb c ":" then
        if Nat.eqb i 0 then Err ErrMissingProtocolScheme
        else Ok (string_take i rawURL, rest')
      else Ok ("", rawURL)
  end.

Definition getScheme (rawURL : string) : result url_error (string * string) :=
  getScheme_loop rawURL 0 rawURL.

Fixpoint all_digits (s : string) : bool :=
  match s with
  | EmptyString => true
  | String c s' => is_digit c && all_digits s'
  end.

Definition validOptionalPort (port : string) : bool :=
  match port with
  | EmptyString => true
  | String c digits => Ascii.eqb c ":" && all_digits digits
  end.

(** [validUserinfo]: every rune is an ASCII letter, a digit or one of
    the listed marks; a byte outside ASCII never decodes to one of them. *)
Fixpoint validUserinfo (s : string) : bool :=
  match s with
  | EmptyString => true
  | String c s' =>
      (is_upper c || is_lower c || is_digit c
       || byte_in c "-._:~!$&'()*+,;=%@") && validUserinfo s'
  end.

Definition parseHost (host : string) : result url_error string :=
  let ports_ok : option url_error :=
    if strings_HasPrefix host "[" then
      match strings_LastIndexByte host "]" with
      | None => Some ErrMissingBracket
      | Some i =>
          let colonPort := string_drop (i + 1) host in
          if validOptionalPort colonPort then None
          else Some (ErrInvalidPort colonPort)
      end
    else
      match strings_LastIndexByte host ":" with
      | Some i =>
          let colonPort := string_drop i host in
          if validOptionalPort colonPort then None
          else Some (ErrInvalidPort colonPort)
      | None => None
      end in
  match ports_ok with
  | Some e => Err e
  | None =>
      let zone :=
        if strings_HasPrefix host "[" then
          match strings_LastIndexByte host "]" with
          | Some i =>
              match strings_Index (string_take i host) "%25" with
              | Some z => Some (z, i)
              | None => None
              end
          | None => None
          end
        else None in
      match zone with
      | Some (z, i) =>
          match unescape (string_take z host) encodeHost with
          | Err e => Err e
          | Ok host1 =>
              match unescape (string_drop z (string_take i host)) encodeZone with
              | Err e => Err e
              | Ok host2 =>
                  match unescape (string_drop i host) encodeHost with
                  | Err e => Err e
                  | Ok host3 => Ok (host1 +:+ host2 +:+ host3)
                  end
              end
          end
      | None => unescape host encodeHost
      end
  end.

Definition parseAuthority (authority : string)
  : result url_error (option Userinfo * string) :=
  let i := strings_LastIndexByte authority "@" in
  let hostr := match i with
               | None => parseHost authority
               | Some i => parseHost (string_drop (i + 1) authority)
               end in
  match hostr with
  | Err e => Err e
  | Ok host =>
      match i with
      | None => Ok (None, host)
      | Some i =>
          let userinfo := string_take i authority in
          if negb (validUserinfo userinfo) then Err ErrInvalidUserinfo
          else if negb (strings_Contains userinfo ":") then
            match unescape userinfo encodeUserPassword with
            | Err e => Err e
            | Ok name => Ok (Some (mkUserinfo name "" false), host)
            end
          else
            let '(name, pass, _) := strings_Cut userinfo ":" in
            match unescape name encodeUserPassword with
            | Err e => Err e
            | Ok name' =>
                match unescape pass encodeUserPassword with
                | Err e => Err e
                | Ok pass' => Ok (Some (mkUserinfo name' pass' true), host)
                end
            end
      end
  end.

(** [u.setPath(p)]. *)
Definition setPath (p : string) (u : URL) : result url_error URL :=
  match unescape p encodePath with
  | Err e => Err e
  | Ok path =>
      if String.eqb p (escape path encodePath)
      then Ok (with_Path path "" u)
      else Ok (with_Path path p u)
  end.

(** [u.setFragment(f)]. *)
Definition setFragment (f : string) (u : URL) : result url_error URL :=
  match unescape f encodeFragment with
  | Err e => Err e
  | Ok frag =>
      if String.eqb f (escape frag encodeFragment)
      then Ok (with_Fragment frag "" u)
      else Ok (with_Fragment frag f u)
  end.

(** The split of [rest] at the query in [parse]: the text before it,
    [RawQuery] and [ForceQuery]. *)
Definition split_query (rest : string) : string * string * bool :=
  if strings_HasSuffix rest "?" && Nat.eqb (strings_CountByte rest "?") 1
  then (string_take (String.length rest - 1) rest, "", true)
  else let '(before, after, _) := strings_Cut rest "?" in (before, after, false).

(** The authority step of [parse]: user, host, [OmitHost] and the rest. *)
Definition split_authority (scheme rest : string) (viaRequest : bool)
  : result url_error (option Userinfo * string * bool * string) :=
  if (negb (is_empty scheme)
      || negb viaRequest && negb (strings_HasPrefix rest "///"))
     && strings_HasPrefix rest "//"
  then
    let a := string_drop 2 rest in
    let '(authority, rest') :=
      match strings_IndexByte a "/" with
      | Some i => (string_take i a, string_drop i a)
      | None => (a, "")
      end in
    match parseAuthority authority with
    | Err e => Err e
    | Ok (user, host) => Ok (user, host, false, rest')
    end
  else if negb (is_empty scheme) && strings_HasPrefix rest "/"
  then Ok (None, "", true, rest)
  else Ok (None, "", false, rest).

(** [parse(rawURL, viaRequest)]. *)
Definition parse (rawURL : string) (viaRequest : bool) : result url_error URL :=
  if stringContainsCTLByte rawURL then Err ErrInvalidControlCharacter
  else if is_empty rawURL && viaRequest then Err ErrEmptyURL
  else if String.eqb rawURL "*" then Ok (with_Path "*" "" URL_zero)
  else
    match getScheme rawURL with
    | Err e => Err e
    | Ok (scheme0, rest0) =>
        let scheme := strings_ToLower scheme0 in
        let '(rest, rawQuery, forceQuery) := split_query rest0 in
        let u := with_RawQuery rawQuery
                   (with_ForceQuery forceQuery (with_Scheme scheme URL_zero)) in
        if negb (strings_HasPrefix rest "/") && negb (is_empty scheme)
        then Ok (with_Opaque rest u)
        else if negb (strings_HasPrefix rest "/") && viaRequest
        then Err ErrInvalidURIForRequest
        else if negb (strings_HasPrefix rest "/")
                && strings_Contains (strings_Cut rest "/").1.1 ":"
        then Err ErrFirstSegmentColon
        else
          match split_authority scheme rest viaRequest with
          | Err e => Err e
          | Ok (user, host, omit, rest') =>
              setPath rest' (with_OmitHost omit (with_Host host (with_User user u)))
          end
    end.

(** [url.Parse(rawURL)]. *)
Definition url_Parse (rawURL : string) : result url_error URL :=
  let '(u, frag, _) := strings_Cut rawURL "#" in
  match parse u false with
  | Err e => Err e
  | Ok url => if is_empty frag then Ok url else setFragment frag url
  end.

(** [validEncoded(s, mode)]. *)
Fixpoint validEncoded (s : string) (mode : encoding) : bool :=
  match s with
  | EmptyString => true
  | String c s' =>
      (byte_in c "!$&'()*+,;=:@[]%" || negb (shouldEscape c mode))
      && validEncoded s' mode
  end.

(** [u.EscapedPath()]. *)
Definition url_EscapedPath (u : URL) : string :=
  if negb (is_empty (RawPath u)) && validEncoded (RawPath u) encodePath
     && match unescape (RawPath u) encodePath with
        | Ok p => String.eqb p (Path u)
        | Err _ => false
        end
  then RawPath u
  else if String.eqb (Path u) "*" then "*"
  else escape (Path u) encodePath.

(** [u.EscapedFragment()]. *)
Definition url_EscapedFragment (u : URL) : string :=
  if negb (is_empty (RawFragment u)) && validEncoded (RawFragment u) encodeFragment
     && match unescape (RawFragment u) encodeFragment with
        | Ok f => String.eqb f (Fragment u)
        | Err _ => false
        end
  then RawFragment u
  else escape (Fragment u) encodeFragment.

(** The [String] method of [Userinfo], on a non-nil receiver. *)
Definition Userinfo_String (ui : Userinfo) : string :=
  escape (username ui) encodeUserPassword
  +:+ (if passwordSet ui then ":" +:+ escape (password ui) encodeUserPassword
       else "").

Definition is_nil {A} (o : option A) : bool :=
  match o with None => true | Some _ => false end.

(** [u.String()].  The text is built in three pieces: scheme and
    authority, path, query and fragment. *)
Definition url_String_authority (u : URL) : string :=
  if negb (is_empty (Scheme u)) || negb (is_empty (Host u)) || negb (is_nil (User u))
  then
    if OmitHost u && is_empty (Host u) && is_nil (User u) then ""
    else
      (if negb (is_empty (Host u)) || negb (is_empty (Path u)) || negb (is_nil (User u))
       then "//" else "")
      +:+ match User u with
          | Some ui => Userinfo_String ui +:+ "@"
          | None => ""
          end
      +:+ (if negb (is_empty (Host u)) then escape (Host u) encodeHost else "")
  else "".

Definition url_String (u : URL) : string :=
  let head := if negb (is_empty (Scheme u)) then Scheme u +:+ ":" else "" in
  let body :=
    if negb (is_empty (Opaque u)) then head +:+ Opaque u
    else
      let buf := head +:+ url_String_authority u in
      let path := url_EscapedPath u in
      let buf :=
        if negb (is_empty path) && negb (strings_HasPrefix path "/")
           && negb (is_empty (Host u))
        then buf +:+ "/" else buf in
      let buf :=
        if is_empty buf && strings_Contains (strings_Cut path "/").1.1 ":"
        then buf +:+ "./" else buf in
      buf +:+ path in
  let body :=
    if ForceQuery u || negb (is_empty (RawQuery u))
    then body +:+ "?" +:+ RawQuery u else body in
  if negb (is_empty (Fragment u))
  then body +:+ "#" +:+ url_EscapedFragment u else body.

(** [u.IsAbs()]. *)
Definition url_IsAbs (u : URL) : bool := negb (is_empty (Scheme u)).

(** [splitHostPort], first component. *)
Definition splitHostPort_host (hostPort : string) : string :=
  let host :=
    match strings_LastIndexByte hostPort ":" with
    | Some colon =>
        if validOptionalPort (string_drop colon hostPort)
        then string_take colon hostPort else hostPort
    | None => hostPort
    end in
  if strings_HasPrefix host "[" && strings_HasSuffix host "]"
  then string_take (String.length host - 2) (string_drop 1 host)
  else host.

(** [u.Hostname()]. *)
Definition url_Hostname (u : URL) : string := splitHostPort_host (Host u).

(** [strings.Split(s, "/")]: the elements that the [strings.Cut] loop of
    [resolvePath] visits, in order. *)
Fixpoint split_slash (s : string) : list string :=
  match s with
  | EmptyString => [""]
  | String c s' =>
      if Ascii.eqb c "/" then "" :: split_slash s'
      else match split_slash s' with
           | h :: t => String c h :: t
           | [] => [String c ""]
           end
  end.

(** One turn of the loop of [resolvePath]: the builder [dst] and the flag
    [first], after the element [elem]. *)
Definition resolvePath_step (st : string * bool) (elem : string) : string * bool :=
  let '(dst, first) := st in
  if String.eqb elem "." then (dst, false)
  else if String.eqb elem ".." then
    let str := string_drop 1 dst in
    match strings_LastIndexByte str "/" with
    | None => ("/", true)
    | Some index => ("/" +:+ string_take index str, first)
    end
  else ((if first then dst else dst +:+ "/") +:+ elem, false).

(** [resolvePath(base, ref)]. *)
Definition resolvePath (base ref : string) : string :=
  let full :=
    if is_empty ref then base
    else if negb (strings_HasPrefix ref "/") then
      match strings_LastIndexByte base "/" with
      | Some i => string_take (i + 1) base +:+ ref
      | None => ref
      end
    else ref in
  if is_empty full then ""
  else
    let elems := split_slash full in
    let '(dst, _) := fold_left resolvePath_step elems ("/", true) in
    let last_elem := List.last elems "" in
    let dst := if String.eqb last_elem "." || String.eqb last_elem ".."
               then dst +:+ "/" else dst in
    if strings_HasPrefix (string_drop 1 dst) "/" then string_drop 1 dst else dst.

(** [setPath] where [ResolveReference] ignores its error. *)
Definition setPath_ignore (p : string) (u : URL) : URL :=
  match setPath p u with
  | Ok u' => u'
  | Err _ => u
  end.

(** [u.ResolveReference(ref)]. *)
Definition url_ResolveReference (u ref : URL) : URL :=
  let url := if is_empty (Scheme ref) then with_Scheme (Scheme u) ref else ref in
  if negb (is_empty (Scheme ref)) || negb (is_empty (Host ref))
     || negb (is_nil (User ref))
  then setPath_ignore (resolvePath (url_EscapedPath ref) "") url
  else if negb (is_empty (Opaque ref))
  then with_Path "" (RawPath url) (with_Host "" (with_User None url))
  else
    let url :=
      if is_empty (Path ref) && negb (ForceQuery ref) && is_empty (RawQuery ref)
      then
        let url := with_RawQuery (RawQuery u) url in
        if is_empty (Fragment ref)
        then with_Fragment (Fragment u) (RawFragment u) url else url
      else url in
    (* The "abs_path" or "rel_path" cases. *)
    setPath_ignore (resolvePath (url_EscapedPath u) (url_EscapedPath ref))
      (with_User (User u) (with_Host (Host u) url)).

(** [u.Parse(ref)]. *)
Definition url_Parse_ref (u : URL) (ref : string) : result url_error URL :=
  match url_Parse ref with
  | Err e => Err e
  | Ok refURL => Ok (url_ResolveReference u refURL)
  end.

(* ================================================================== *)
(** ** The parsed document: [html.Node], [cascadia] and [goquery] *)
(* ================================================================== *)

Record Attribute : Type := mkAttribute { Key : string; Val : string }.

(** The nodes below the document node that [html.Parse] builds.  Only
    an element has attributes and children. *)
#[warnings="-register-all"]
Inductive Node : Type :=
  | ElementNode (data : string) (attr : list Attribute) (children : list Node)
  | TextNode (data : string)
  | CommentNode (data : string)
  | DoctypeNode (data : string).

(** The document node, the root that [html.Parse] returns and that a
    [goquery.Document] wraps. *)
Record Document : Type := mkDocument { doc_children : list Node }.

Definition node_children (n : Node) : list Node :=
  match n with
  | ElementNode _ _ children => children
  | _ => []
  end.

Definition node_attr (n : Node) : list Attribute :=
  match n with
  | ElementNode _ attr _ => attr
  | _ => []
  end.

(** What a [cascadia] attribute selector asks of the value. *)
Inductive AttrMatch : Type :=
  | AttrExists                       (* [key]        *)
  | AttrEquals (val : string)        (* [key="val"]  *)
  | AttrSubstring (val : string).    (* [key*="val"] *)

(** A compound selector [tag[key op val]...] and a selector group
    [c1, c2, ...]. *)
Record Compound : Type := mkCompound {
  sel_tag : string;
  sel_attrs : list (string * AttrMatch)
}.
Definition Selector : Type := list Compound.

Definition attr_value_matches (op : AttrMatch) (s : string) : bool :=
  match op with
  | AttrExists => true
  | AttrEquals val => String.eqb s val
  | AttrSubstring val =>
      if is_empty (strings_TrimSpace val) then false else strings_Contains s val
  end.

(** [attributeSelector(key, f)]: some attribute of the element has the
    key and a value that [f] accepts. *)
Definition attributeSelector (key : string) (op : AttrMatch) (n : Node) : bool :=
  match n with
  | ElementNode _ attr _ =>
      existsb (fun a => String.eqb (Key a) key && attr_value_matches op (Val a)) attr
  | _ => false
  end.

(** [typeSelector(tag)]. *)
Definition typeSelector (tag : string) (n : Node) : bool :=
  match n with
  | ElementNode data _ _ => String.eqb data tag
  | _ => false
  end.

Definition compound_matches (c : Compound) (n : Node) : bool :=
  typeSelector (sel_tag c) n
  && forallb (fun ka => attributeSelector ka.1 ka.2 n) (sel_attrs c).

Definition selector_matches (sel : Selector) (n : Node) : bool :=
  existsb (fun c => compound_matches c n) sel.

(** [cascadia]'s [MatchAll]: the nodes of the subtree of [n] that match,
    [n] included, in document order. *)
Fixpoint MatchAll (sel : Selector) (n : Node) : list Node :=
  (if selector_matches sel n then [n] else [])
  ++ match n with
     | ElementNode _ _ children => flat_map (MatchAll sel) children
     | _ => []
     end.

(** [Selection.Find] on the selection that holds the node whose children
    are [children]: the matching descendants in document order. *)
Definition Find_in (children : list Node) (sel : Selector) : list Node :=
  flat_map (MatchAll sel) children.

(** [doc.Find(selector)]. *)
Definition doc_Find (doc : Document) (sel : Selector) : list Node :=
  Find_in (doc_children doc) sel.

(** [s.Find(selector)] where [s] holds the one node [n]. *)
Definition node_Find (n : Node) (sel : Selector) : list Node :=
  Find_in (node_children n) sel.

(** [s.Attr(name)]: the value of the first attribute of that name and
    whether there is one. *)
Definition goquery_Attr (n : Node) (name : string) : string * bool :=
  match List.find (fun a => String.eqb (Key a) name) (node_attr n) with
  | Some a => (Val a, true)
  | None => ("", false)
  end.

(** [Selection.Text] of one node: the text nodes of the subtree. *)
Fixpoint node_Text (n : Node) : string :=
  match n with
  | TextNode data => data
  | ElementNode _ _ children =>
      fold_right (fun c acc => node_Text c +:+ acc) "" children
  | _ => ""
  end.

(** [s.First().Text()]. *)
Definition First_Text (s : list Node) : string :=
  match s with
  | n :: _ => node_Text n
  | [] => ""
  end.

(** The selectors of [analyzer.go]. *)
Definition sel_of_tag (tag : string) : Selector := [mkCompound tag []].

(** ["a[href]"] *)
Definition sel_a_href : Selector := [mkCompound "a" [("href", AttrExists)]].

(** [input[type="password"]] *)
Definition sel_password : Selector :=
  [mkCompound "input" [("type", AttrEquals "password")]].

(** [input[name="username"], input[name="email"], input[id*="user"],
    input[id*="email"]] *)
Definition sel_user : Selector :=
  [mkCompound "input" [("name", AttrEquals "username")];
   mkCompound "input" [("name", AttrEquals "email")];
   mkCompound "input" [("id", AttrSubstring "user")];
   mkCompound "input" [("id", AttrSubstring "email")]].

(** [button[type="submit"], input[type="submit"]] *)
Definition sel_submit : Selector :=
  [mkCompound "button" [("type", AttrEquals "submit")];
   mkCompound "input" [("type", AttrEquals "submit")]].

(* ================================================================== *)
(** ** The [net/http] client *)
(* ================================================================== *)

Inductive Method : Type := MethodGet | MethodHead.

(** Why a round trip gave no response. *)
Inductive TransportError : Type :=
  | ErrContextCanceled
  | ErrTimeout
  | ErrTransport (msg : string).

(** A response body as a reader: the bytes it delivers and whether the
    stream then ends in an error instead of EOF. *)
Record Body : Type := mkBody { body_data : string; body_fails : bool }.

(** One exchange of the transport: no response, or the status line, the
    [Location] header and the body. *)
Inductive RoundTrip : Type :=
  | RTError (e : TransportError)
  | RTResponse (status : Z) (location : string) (body : Body).

(** The network as the program meets it: what each request is answered. *)
Definition Transport : Type := Method -> URL -> RoundTrip.

Record Response : Type := mkResponse {
  StatusCode : Z;
  Location : string;
  RespBody : Body;
  Request_URL : URL     (* resp.Request.URL: the request that was answered *)
}.

Inductive http_error : Type :=
  | ErrRoundTrip (e : TransportError)
  | ErrLocation (e : url_error)      (* failed to parse Location header *)
  | ErrStoppedRedirects.             (* CheckRedirect refused *)

Inductive DoResult : Type :=
  | DoError (e : http_error)
  | DoResponse (resp : Response).

(** [redirectBehavior], for the body-less GET and HEAD requests sent
    here: the same method is sent again. *)
Definition shouldRedirect (status : Z) : bool :=
  match status with
  | 301 | 302 | 303 | 307 | 308 => true
  | _ => false
  end%Z.

(** The loop of [Client.do].  [left] is the number of requests that
    [CheckRedirect] still lets follow this one: a policy that refuses at
    [len(via) >= max] starts it at [max - 1].  The request [req] of the
    caller is not written to; each hop is a new request. *)
Fixpoint client_do (rt : Transport) (m : Method) (left : nat) (req : URL) : DoResult :=
  match rt m req with
  | RTError e => DoError (ErrRoundTrip e)
  | RTResponse status loc body =>
      let resp := mkResponse status loc body req in
      if shouldRedirect status then
        if is_empty loc then DoResponse resp
        else match url_Parse_ref req loc with
             | Err e => DoError (ErrLocation e)
             | Ok u =>
                 match left with
                 | 0 => DoError ErrStoppedRedirects
                 | S left' => client_do rt m left' u
                 end
             end
      else DoResponse resp
  end.

(** [client.Do(req)] under a policy that stops at [max] requests. *)
Definition client_Do (rt : Transport) (max : nat) (m : Method) (req : URL) : DoResult :=
  client_do rt m (max - 1) req.

(** [hasPort] and [removeEmptyPort] of [net/http]. *)
Definition index_lt (a b : option nat) : bool :=
  match a, b with
  | None, None => false
  | None, Some _ => true
  | Some _, None => false
  | Some i, Some j => Nat.ltb i j
  end.

Definition hasPort (s : string) : bool :=
  index_lt (strings_LastIndexByte s "]") (strings_LastIndexByte s ":").

Definition removeEmptyPort (host : string) : string :=
  if hasPort host && strings_HasSuffix host ":"
  then string_take (String.length host - 1) host
  else host.

(** [http.NewRequestWithContext(ctx, method, url, nil)] for a non-nil
    context and the methods GET and HEAD: the request URL. *)
Definition http_NewRequestWithContext (m : Method) (url : string)
  : result url_error URL :=
  match url_Parse url with
  | Err e => Err e
  | Ok u => Ok (with_Host (removeEmptyPort (Host u)) u)
  end.

(** [io.ReadAll(r)]. *)
Definition io_ReadAll (b : Body) : option string :=
  if body_fails b then None else Some (body_data b).

(** [io.ReadAll(io.LimitReader(r, n))] with the error dropped: the bytes
    read before the limit, the end or the error. *)
Definition io_ReadAll_limit (n : nat) (b : Body) : string :=
  string_take n (body_data b).

(* ================================================================== *)
(** ** [analyzer.go] *)
(* ================================================================== *)

(** The error values that the analysis builds or passes on. *)
Inductive go_error : Type :=
  | ErrEmptyURLInput                  (* errors.New("empty URL") *)
  | ErrMissingHost                    (* errors.New("missing host") *)
  | ErrURL (e : url_error)            (* an error of url.Parse *)
  | ErrInvalidURL (cause : go_error)  (* fmt.Errorf("invalid URL: %w", err) *)
  | ErrHTTP (e : http_error)          (* an error of client.Do *)
  | ErrReadBody                       (* an error of io.ReadAll *)
  | ErrHTMLParse                      (* an error of the HTML parser *)
  | ErrMessage (msg : string).        (* fmt.Errorf("%s", msg) *)

(** [AnalyzeError]; [ae_StatusCode = 0] when no response was obtained. *)
Record AnalyzeError : Type := mkAnalyzeError {
  ae_StatusCode : Z;
  ae_Err : go_error
}.

(** The counters are Go [int]s that count nodes and links held in memory;
    they stay far below the bound of the type and are natural numbers
    here. *)
Record LinkSummary : Type := mkLinkSummary {
  Internal : nat;
  External : nat;
  Total : nat
}.

Record AnalyzeResult : Type := mkAnalyzeResult {
  HTMLVersion : string;
  Title : string;
  Headings : gmap string nat;   (* h1..h6 *)
  Links : LinkSummary;
  HasLoginForm : bool;
  Inaccessible : nat
}.

(** [normalizeURL]. *)
Definition normalizeURL (raw : string) : result go_error string :=
  let raw := strings_TrimSpace raw in
  if is_empty raw then Err ErrEmptyURLInput
  else
    let raw :=
      if negb (strings_HasPrefix raw "http://")
         && negb (strings_HasPrefix raw "https://")
      then "https://" +:+ raw else raw in
    match url_Parse raw with
    | Err e => Err (ErrURL e)
    | Ok u =>
        if is_empty (Host u) then Err ErrMissingHost
        else Ok (url_String u)
    end.

(** [detectHTMLVersion]: the doctype is looked for among the children of
    the document node. *)
Fixpoint detectHTMLVersion_loop (children : list Node) : string :=
  match children with
  | [] => "Unknown (no doctype)"
  | DoctypeNode _ :: _ => "HTML5 (with doctype)"
  | _ :: rest => detectHTMLVersion_loop rest
  end.

Definition detectHTMLVersion (root : Document) : string :=
  detectHTMLVersion_loop (doc_children root).

(** [fmt.Sprintf("h%d", level)]. *)
Definition Sprintf_h (level : nat) : string :=
  "h" +:+ NilEmpty.string_of_uint (Nat.to_uint level).

(** [countHeadings]. *)
Definition countHeadings (doc : Document) : gmap string nat :=
  let h : gmap string nat :=
    {[ "h1" := 0; "h2" := 0; "h3" := 0; "h4" := 0; "h5" := 0; "h6" := 0 ]} in
  fold_left
    (fun h level =>
       let selector := Sprintf_h level in
       <[ selector := length (doc_Find doc (sel_of_tag selector)) ]> h)
    (seq 1 6) h.

(** [sameHost]. *)
Definition sameHost (a b : URL) : bool :=
  strings_EqualFold (url_Hostname a) (url_Hostname b).

(** The variables that the closure of [classifyLinks] writes to. *)
Record ClassifyState : Type := mkClassifyState {
  seen : gset string;
  internal : nat;
  external : nat;
  all : list string
}.

(** The body of the closure passed to [Each], for the anchor [s]. *)
Definition classifyLinks_each (base : URL) (st : ClassifyState) (s : Node)
  : ClassifyState :=
  let href := strings_TrimSpace (goquery_Attr s "href").1 in
  if is_empty href || strings_HasPrefix href "javascript:"
     || strings_HasPrefix href "mailto:" || strings_HasPrefix href "#"
  then st
  else
    match url_Parse href with
    | Err _ => st
    | Ok u =>
        let u := if negb (url_IsAbs u) then url_ResolveReference base u else u in
        let u := with_Fragment "" (RawFragment u) u in
        let u := with_RawQuery "" u in
        let final := url_String u in
        if bool_decide (final ∈ seen st) then st
        else
          let seen' := {[ final ]} ∪ seen st in
          if sameHost u base
          then mkClassifyState seen' (S (internal st)) (external st)
                 (all st ++ [url_String u])
          else mkClassifyState seen' (internal st) (S (external st))
                 (all st ++ [url_String u])
    end.

(** [classifyLinks]. *)
Definition classifyLinks (doc : Document) (base : URL) : nat * nat * list string :=
  let st := fold_left (classifyLinks_each base) (doc_Find doc sel_a_href)
              (mkClassifyState ∅ 0 0 []) in
  (internal st, external st, all st).

(** What the closure of [hasLoginForm] decides for the form [f]. *)
Definition form_is_login (f : Node) : bool :=
  let pass := Nat.ltb 0 (length (node_Find f sel_password)) in
  if pass then true
  else
    let hasUser := Nat.ltb 0 (length (node_Find f sel_user)) in
    let hasSubmit := Nat.ltb 0 (length (node_Find f sel_submit)) in
    hasUser && hasSubmit.

(** [EachWithBreak] over the forms: [found] at the end and the number of
    forms the closure was called on.  The closure returns [false], which
    stops the iteration, exactly when it sets [found]. *)
Fixpoint hasLoginForm_each (forms : list Node) (found : bool) (visited : nat)
  : bool * nat :=
  match forms with
  | [] => (found, visited)
  | f :: rest =>
      if form_is_login f then (true, S visited)
      else hasLoginForm_each rest found (S visited)
  end.

(** [hasLoginForm]. *)
Definition hasLoginForm (doc : Document) : bool :=
  (hasLoginForm_each (doc_Find doc (sel_of_tag "form")) false 0).1.

(** [resp.StatusCode >= 200 && resp.StatusCode < 400]. *)
Definition status_ok (code : Z) : bool := (200 <=? code)%Z && (code <? 400)%Z.

Definition Client : Type := Method -> URL -> DoResult.

(** [linkAccessible]: the result, and the methods of the requests handed
    to [client.Do], in order. *)
Definition linkAccessible (client : Client) (link : string) : bool * list Method :=
  match http_NewRequestWithContext MethodHead link with
  | Err _ => (false, [])
  | Ok req =>
      let head_ok :=
        match client MethodHead req with
        | DoResponse resp => status_ok (StatusCode resp)
        | DoError _ => false
        end in
      if head_ok then (true, [MethodHead])
      else
        (* fallback to GET in case HEAD not allowed *)
        match http_NewRequestWithContext MethodGet link with
        | Err _ => (false, [MethodHead])
        | Ok reqGet =>
            match client MethodGet reqGet with
            | DoError _ => (false, [MethodHead; MethodGet])
            | DoResponse resp =>
                (status_ok (StatusCode resp), [MethodHead; MethodGet])
            end
        end
  end.

(** One goroutine of [checkLinksAccessibility]: the counter after it. *)
Definition probe_goroutine (client : Client) (inaccessible : nat) (link : string) : nat :=
  let ok := (linkAccessible client link).1 in
  if negb ok then S inaccessible else inaccessible.

(** The goroutines finish in some order [order], a list of indices into
    [links]; each adds to the counter under the mutex. *)
Definition run_goroutines (client : Client) (links : list string) (order : list nat) : nat :=
  fold_left
    (fun inaccessible i =>
       match links !! i with
       | Some link => probe_goroutine client inaccessible link
       | None => inaccessible
       end)
    order 0.

(** [checkLinksAccessibility].  With links to check and a semaphore of
    capacity zero no goroutine ever acquires it, and a negative capacity
    panics: there is no result, [None].  Otherwise the counter is read
    after [wg.Wait()], when every goroutine has finished. *)
Definition checkLinksAccessibility (client : Client) (links : list string)
    (maxConcurrent : Z) : option nat :=
  if Nat.eqb (length links) 0 then Some 0
  else if (maxConcurrent <=? 0)%Z then None
  else Some (run_goroutines client links (seq 0 (length links))).

(** The probes that a call of [checkLinksAccessibility] sends, link by
    link. *)
Definition probes_sent (client : Client) (links : list string) : list (string * list Method) :=
  map (fun link => (link, (linkAccessible client link).2)) links.

(** What the program runs in: the network and the HTML parser. *)
Record World : Type := mkWorld {
  transport : Transport;
  html_Parse : string -> option Document   (* None: the parser failed *)
}.

(** [AnalyzeURL]: the result and the error, as the two values Go returns. *)
Definition AnalyzeURL (w : World) (raw : string)
  : option AnalyzeResult * option AnalyzeError :=
  match normalizeURL raw with
  | Err err => (None, Some (mkAnalyzeError 0 (ErrInvalidURL err)))
  | Ok parsed =>
      match http_NewRequestWithContext MethodGet parsed with
      | Err err => (None, Some (mkAnalyzeError 0 (ErrURL err)))
      | Ok req =>
          (* custom client with timeout and redirect limit *)
          match client_Do (transport w) 5 MethodGet req with
          | DoError err => (None, Some (mkAnalyzeError 0 (ErrHTTP err)))
          | DoResponse resp =>
              if (StatusCode resp <? 200)%Z || (400 <=? StatusCode resp)%Z then
                let b := io_ReadAll_limit 1024 (RespBody resp) in
                (None, Some (mkAnalyzeError (StatusCode resp)
                               (ErrMessage (strings_TrimSpace b))))
              else
                match io_ReadAll (RespBody resp) with
                | None => (None, Some (mkAnalyzeError 0 ErrReadBody))
                | Some bodyBytes =>
                    (* html.Parse and goquery.NewDocumentFromReader run the
                       same parser on the same bytes *)
                    match html_Parse w bodyBytes with
                    | None => (None, Some (mkAnalyzeError 0 ErrHTMLParse))
                    | Some doc =>
                        let '(internal, external, allLinks) := classifyLinks doc req in
                        (* Check accessibility of links with limited concurrency *)
                        match checkLinksAccessibility
                                (client_Do (transport w) 10) allLinks 10 with
                        | None => (None, None)
                        | Some inaccessible =>
                            (Some (mkAnalyzeResult
                                     (detectHTMLVersion doc)
                                     (strings_TrimSpace
                                        (First_Text (doc_Find doc (sel_of_tag "title"))))
                                     (countHeadings doc)
                                     (mkLinkSummary internal external (internal + external))
                                     (hasLoginForm doc)
                                     inaccessible),
                             None)
                        end
                    end
                end
          end
      end
  end.

(* ================================================================== *)
(** ** The cycles of [unicode.SimpleFold] *)
(* ================================================================== *)

(** The four runes that [unicode.SimpleFold] reaches from [r] in at most
    three steps, [r] first. *)
Definition orbit4 (r : Z) : list Z :=
  let s1 := unicode_SimpleFold r in
  let s2 := unicode_SimpleFold s1 in
  let s3 := unicode_SimpleFold s2 in
  [r; s1; s2; s3].

Definition memZ (x : Z) (l : list Z) : bool := existsb (Z.eqb x) l.

(** [SimpleFold] comes back to [lo] after four steps at most, and the
    runes above [lo] that it meets on the way come in rising order. *)
Definition orbit_sorted (lo : Z) : bool :=
  let s1 := unicode_SimpleFold lo in
  let s2 := unicode_SimpleFold s1 in
  let s3 := unicode_SimpleFold s2 in
  let s4 := unicode_SimpleFold s3 in
  let falls x y := (lo <? x)%Z && (lo <? y)%Z && (y <=? x)%Z in
  if (s1 =? lo)%Z then true
  else if (s2 =? lo)%Z then true
  else if (s3 =? lo)%Z then negb (falls s1 s2)
  else if (s4 =? lo)%Z
       then negb (falls s1 s2) && negb (falls s1 s3) && negb (falls s2 s3)
       else false.

(** The runes of a case range. *)
Definition CaseRange_runes (cr : CaseRange) : list Z :=
  seqZ (cr_Lo cr) (cr_Hi cr - cr_Lo cr + 1).

(** The runes that [SimpleFold] may move: ASCII, the runes of
    [caseOrbit] and the runes of [CaseRanges]. *)
Definition fold_support : list Z :=
  seqZ 0 128 ++ map fst caseOrbit ++ flat_map CaseRange_runes CaseRanges.

(** The test for ASCII letters in [strings.EqualFold], on [sr < tr]. *)
Definition ascii_case_pair (sr tr : Z) : bool :=
  (0x41 <=? sr)%Z && (sr <=? 0x5A)%Z && (tr =? sr + 0x20)%Z.

(** On ASCII the test is the orbit, as far as it lies in ASCII. *)
Definition ascii_orbit_ok (a : Z) : bool :=
  let o := orbit4 a in
  forallb (fun b => (b =? a)%Z
                    || Bool.eqb (ascii_case_pair (Z.min a b) (Z.max a b)) (memZ b o))
          (seqZ 0 128)
  && forallb (fun x => (0 <=? x)%Z) o.

(** The smallest rune on the cycle of [r]: the rune that stands for [r]
    when case is set aside. *)
Definition fold_rune (r : Z) : Z := foldr Z.min r (orbit4 r).

(** A string with case set aside: its runes, each replaced by the rune
    that stands for it.  The runes are read as Go reads them, a byte
    that belongs to no valid UTF-8 sequence as U+FFFD. *)
Definition case_folded (s : string) : list Z := map fold_rune (utf8_runes s).


(* ================================================================== *)
(** ** The words of the specification *)
(* ================================================================== *)

(** A probe fails: it errors or returns a status outside [200,400). *)
Definition ProbeFails (r : DoResult) : Prop :=
  match r with
  | DoError _ => True
  | DoResponse resp => (StatusCode resp < 200 \/ 400 <= StatusCode resp)%Z
  end.

(** A probe fails because the operation context was canceled. *)
Definition ProbeCanceled (r : DoResult) : Prop :=
  r = DoError (ErrRoundTrip ErrContextCanceled).

(** What one link adds to the inaccessible count. *)
Definition contribution (client : Client) (link : string) : nat :=
  if (linkAccessible client link).1 then 0 else 1.

(** The sum of a list of counts. *)
Definition total (l : list nat) : nat := fold_right Nat.add 0 l.

(** Both probes of the link were sent and failed. *)
Definition both_probes_fail (client : Client) (link : string) : Prop :=
  exists req,
    http_NewRequestWithContext MethodHead link = Ok req /\
    (linkAccessible client link).2 = [MethodHead; MethodGet] /\
    ProbeFails (client MethodHead req) /\ ProbeFails (client MethodGet req).

(** The reachability contract as the specification words it, for one
    link: the first probe is a HEAD, and the link counts exactly when both
    probes fail. *)
Definition head_then_get_as_stated (client : Client) (link : string) : Prop :=
  hd_error (linkAccessible client link).2 = Some MethodHead /\
  (contribution client link = 1 <-> both_probes_fail client link).

(** The cancellation rule as the specification words it, for one link: a
    HEAD probe that fails by cancellation is not followed by a GET and
    adds nothing to the count. *)
Definition canceled_not_retried_as_stated (client : Client) (link : string) : Prop :=
  forall req,
    http_NewRequestWithContext MethodHead link = Ok req ->
    ProbeCanceled (client MethodHead req) ->
    (MethodGet ∉ (linkAccessible client link).2) /\ contribution client link = 0.

(** *** Example data *)

(** A client for which every request ends in the cancellation error. *)
Definition canceled_client : Client :=
  fun _ _ => DoError (ErrRoundTrip ErrContextCanceled).

(** A client that answers 500 to HEAD and 204 to GET on [/head-refused],
    200 on [/ok] and 404 elsewhere. *)
Definition stub_client : Client :=
  fun m u =>
    let answer (code : Z) := DoResponse (mkResponse code "" (mkBody "" false) u) in
    if String.eqb (Path u) "/ok" then answer 200%Z
    else if String.eqb (Path u) "/head-refused"
    then match m with MethodHead => answer 500%Z | MethodGet => answer 204%Z end
    else answer 404%Z.

Definition stub_links : list string :=
  ["http://127.0.0.1:4000/ok"; "http://127.0.0.1:4000/head-refused";
   "http://127.0.0.1:4000/gone"].

(** A link from which no request can be built: the bracket of the IPv6
    literal is not closed. *)
Definition broken_link : string := "http://[::1".

Definition example_link : string := "https://example.com/a".

Definition example_req : URL :=
  mkURL "https" "" None "example.com" "/a" "" false false "" "" "".

(** A page that answers 404 with a short text. *)
Definition world_404 : World :=
  mkWorld (fun _ _ => RTResponse 404 "" (mkBody "  page not found  " false))
          (fun _ => None).

(** A site whose short address redirects to the page proper.  The page
    links to [next], relative, and to [/about] on its own host. *)
Definition page_html : string :=
  "<!doctype html><title> Docs </title><a href='next'>next</a><a href='https://www.example.org/about'>about</a>".

Definition page_doc : Document :=
  mkDocument
    [DoctypeNode "html";
     ElementNode "html" []
       [ElementNode "head" [] [ElementNode "title" [] [TextNode " Docs "]];
        ElementNode "body" []
          [ElementNode "a" [mkAttribute "href" "next"] [TextNode "next"];
           ElementNode "a" [mkAttribute "href" "https://www.example.org/about"]
             [TextNode "about"]]]].

Definition no_body : Body := mkBody "" false.

Definition world_redirect : World :=
  mkWorld
    (fun _ u =>
       let url := url_String u in
       if String.eqb url "https://short.example"
       then RTResponse 301 "https://www.example.org/docs/page" no_body
       else if String.eqb url "https://www.example.org/docs/page"
       then RTResponse 200 "" (mkBody page_html false)
       else if String.eqb url "https://www.example.org/docs/next"
               || String.eqb url "https://www.example.org/about"
       then RTResponse 200 "" no_body
       else RTResponse 404 "" no_body)
    (fun body => if String.eqb body page_html then Some page_doc else None).

Definition short_req : URL :=
  mkURL "https" "" None "short.example" "" "" false false "" "" "".

Definition final_url : URL :=
  mkURL "https" "" None "www.example.org" "/docs/page" "" false false "" "" "".

(** *** The document in words *)

(** The nodes of the subtree of [n], [n] first, in document order. *)
Fixpoint subtree (n : Node) : list Node :=
  n :: match n with
       | ElementNode _ _ children => flat_map subtree children
       | _ => []
       end.

(** The nodes below [n]. *)
Definition descendants (n : Node) : list Node :=
  flat_map subtree (node_children n).

(** All the nodes of a document. *)
Definition doc_nodes (doc : Document) : list Node :=
  flat_map subtree (doc_children doc).

(** The tag of an element. *)
Definition element_name (n : Node) : option string :=
  match n with
  | ElementNode data _ _ => Some data
  | _ => None
  end.

Definition is_element (tag : string) (n : Node) : Prop :=
  element_name n = Some tag.

#[global] Instance is_element_dec (tag : string) (n : Node) :
  Decision (is_element tag n) :=
  decide (element_name n = Some tag).

(** The node carries the attribute [key] with the value [val]. *)
Definition has_attribute (n : Node) (key val : string) : Prop :=
  exists a, a ∈ node_attr n /\ Key a = key /\ Val a = val.

(** The node carries an attribute [key], whatever its value. *)
Definition carries_attribute (n : Node) (key : string) : Prop :=
  Exists (fun a => Key a = key) (node_attr n).

#[global] Instance carries_attribute_dec (n : Node) (key : string) :
  Decision (carries_attribute n key) :=
  decide (Exists (fun a => Key a = key) (node_attr n)).

(** The node carries an attribute [key] whose value contains [sub]. *)
Definition attribute_contains (n : Node) (key sub : string) : Prop :=
  exists a, a ∈ node_attr n /\ Key a = key /\ strings_Contains (Val a) sub = true.

(** The number of heading elements of a level in the document. *)
Definition heading_count (level : nat) (doc : Document) : nat :=
  length (List.filter
            (fun n => bool_decide (is_element (Sprintf_h level) n))
            (doc_nodes doc)).

(** The document of the heading test:
    [<!doctype html><title>x</title><h1>a</h1><h2>b</h2><h2>c</h2><h3>d</h3>]. *)
Definition headings_doc : Document :=
  mkDocument
    [DoctypeNode "html";
     ElementNode "html" []
       [ElementNode "head" [] [ElementNode "title" [] [TextNode "x"]];
        ElementNode "body" []
          [ElementNode "h1" [] [TextNode "a"];
           ElementNode "h2" [] [TextNode "b"];
           ElementNode "h2" [] [TextNode "c"];
           ElementNode "h3" [] [TextNode "d"]]]].

(** The login form in the words of the specification. *)
Definition password_input (n : Node) : Prop :=
  is_element "input" n /\ has_attribute n "type" "password".

Definition user_input (n : Node) : Prop :=
  is_element "input" n /\
  (has_attribute n "name" "username" \/ has_attribute n "name" "email" \/
   attribute_contains n "id" "user" \/ attribute_contains n "id" "email").

Definition submit_control (n : Node) : Prop :=
  (is_element "button" n /\ has_attribute n "type" "submit") \/
  (is_element "input" n /\ has_attribute n "type" "submit").

Definition login_form (f : Node) : Prop :=
  (exists d, d ∈ descendants f /\ password_input d) \/
  ((exists d, d ∈ descendants f /\ user_input d) /\
   (exists d, d ∈ descendants f /\ submit_control d)).

(** The form elements of the document, in document order. *)
Definition forms_of (doc : Document) : list Node :=
  List.filter (fun n => bool_decide (is_element "form" n)) (doc_nodes doc).

(** [<form><input type="password"/><button type="submit">Go</button></form>],
    after a search form that is no login form. *)
Definition search_form : Node :=
  ElementNode "form" []
    [ElementNode "input" [mkAttribute "type" "text"; mkAttribute "name" "q"] [];
     ElementNode "button" [mkAttribute "type" "submit"] [TextNode "Search"]].

Definition password_form : Node :=
  ElementNode "form" []
    [ElementNode "input" [mkAttribute "type" "password"] [];
     ElementNode "button" [mkAttribute "type" "submit"] [TextNode "Go"]].

Definition email_form : Node :=
  ElementNode "form" []
    [ElementNode "div" []
       [ElementNode "input" [mkAttribute "id" "login-email"] []];
     ElementNode "input" [mkAttribute "type" "submit"] []].

Definition login_doc : Document :=
  mkDocument
    [ElementNode "html" []
       [ElementNode "head" [] [];
        ElementNode "body" [] [search_form; password_form; email_form]]].

(** *** Link classification in words *)

(** The anchor elements that carry an [href], in document order. *)
Definition anchors_of (doc : Document) : list Node :=
  List.filter
    (fun n => bool_decide (is_element "a" n /\ carries_attribute n "href"))
    (doc_nodes doc).

(** The trimmed [href] is left out: it is empty or starts with
    [javascript:], [mailto:] or [#]. *)
Definition href_skipped (href : string) : bool :=
  is_empty href || strings_HasPrefix href "javascript:"
  || strings_HasPrefix href "mailto:" || strings_HasPrefix href "#".

(** The two writes of the closure, [u.Fragment = ""] and
    [u.RawQuery = ""]; [RawFragment] and [ForceQuery] stay as they are. *)
Definition emptied_Fragment_RawQuery (u : URL) : URL :=
  with_RawQuery "" (with_Fragment "" (RawFragment u) u).

(** The URL that the closure holds for an anchor when it builds the
    key, if it comes that far: the trimmed [href], parsed, resolved
    against the base when it has no scheme, after the two writes. *)
Definition link_of_anchor (base : URL) (anchor : Node) : option URL :=
  let href := strings_TrimSpace (goquery_Attr anchor "href").1 in
  if href_skipped href then None
  else match url_Parse href with
       | Err _ => None
       | Ok u =>
           Some (emptied_Fragment_RawQuery
                   (if url_IsAbs u then u else url_ResolveReference base u))
       end.

(** The links whose normalized form, the dedup key, is not that of an
    earlier link; [earlier] holds the keys met so far. *)
Fixpoint first_seen (earlier : list string) (links : list URL) : list URL :=
  match links with
  | [] => []
  | u :: rest =>
      if bool_decide (url_String u ∈ earlier) then first_seen earlier rest
      else u :: first_seen (url_String u :: earlier) rest
  end.

(** A link is internal when its host name equals that of the base, case
    set aside. *)
Definition internal_link (base u : URL) : bool :=
  bool_decide (case_folded (url_Hostname u) = case_folded (url_Hostname base)).

(** The counts of internal and external links and the keys in first-seen
    order, for a list of links. *)
Definition classify_links (base : URL) (links : list URL) : nat * nat * list string :=
  let uniq := first_seen [] links in
  (length (List.filter (internal_link base) uniq),
   length (List.filter (fun u => negb (internal_link base u)) uniq),
   map url_String uniq).

(** The loop of [classifyLinks] without its variables: the split of the
    links that the closure holds. *)
Definition classify_of_links (doc : Document) (base : URL) : nat * nat * list string :=
  classify_links base (omap (link_of_anchor base) (anchors_of doc)).

(** Fragment and query are stripped: of scheme, authority, path, query
    and fragment the key keeps scheme, authority and path. *)
Definition strip_fragment_and_query (u : URL) : URL :=
  with_ForceQuery false (with_RawQuery "" (with_Fragment "" "" u)).

(** The link of one anchor as stated: the trimmed [href], parsed,
    resolved against the base when relative, without fragment and
    query. *)
Definition link_as_stated (base : URL) (anchor : Node) : option URL :=
  let href := strings_TrimSpace (goquery_Attr anchor "href").1 in
  if href_skipped href then None
  else match url_Parse href with
       | Err _ => None
       | Ok u =>
           Some (strip_fragment_and_query
                   (if url_IsAbs u then u else url_ResolveReference base u))
       end.

(** The classifier in the words of the specification: the counts of
    internal and external links and the unique links in first-seen order. *)
Definition classify_as_stated (doc : Document) (base : URL) : nat * nat * list string :=
  classify_links base (omap (link_as_stated base) (anchors_of doc)).

(** The anchors of the test, [/x], [https://example.com/y] and
    [https://other.com/], and the base [https://example.com/page]. *)
Definition anchors_doc : Document :=
  mkDocument
    [ElementNode "html" []
       [ElementNode "head" [] [];
        ElementNode "body" []
          [ElementNode "a" [mkAttribute "href" "/x"] [TextNode "a"];
           ElementNode "a" [mkAttribute "href" "https://example.com/y"] [TextNode "b"];
           ElementNode "a" [mkAttribute "href" "https://other.com/"] [TextNode "c"]]]].

Definition example_base : URL :=
  mkURL "https" "" None "example.com" "/page" "" false false "" "" "".

(** *** URL normalization in words *)

(** The text that [u.String()] writes for user and host. *)
Definition authority_text (u : URL) : string :=
  match User u with
  | Some ui => Userinfo_String ui +:+ "@"
  | None => ""
  end +:+ escape (Host u) encodeHost.

(** The text that [u.String()] writes after the authority: path, query
    and fragment. *)
Definition after_authority_text (u : URL) : string :=
  let path := url_EscapedPath u in
  (if negb (is_empty path) && negb (strings_HasPrefix path "/") then "/" else "")
  +:+ path
  +:+ (if ForceQuery u || negb (is_empty (RawQuery u)) then "?" +:+ RawQuery u else "")
  +:+ (if negb (is_empty (Fragment u)) then "#" +:+ url_EscapedFragment u else "").

(** The string that the normalizer hands to the parser. *)
Definition with_default_scheme (trimmed : string) : string :=
  if strings_HasPrefix trimmed "http://" || strings_HasPrefix trimmed "https://"
  then trimmed else "https://" +:+ trimmed.

(** The sentence on the empty host as the specification words it: when
    the parser finds an empty host component, the host name that stands
    between [//] (and user) and the port, the normalizer fails. *)
Definition empty_host_fails_as_stated (raw : string) : Prop :=
  forall u,
    url_Parse (with_default_scheme (strings_TrimSpace raw)) = Ok u ->
    url_Hostname u = "" ->
    exists e, normalizeURL raw = Err e.

(** Every byte of [s] is an ASCII letter. *)
Fixpoint all_letters (s : string) : bool :=
  match s with
  | EmptyString => true
  | String c s' => (is_lower c || is_upper c) && all_letters s'
  end.

(** Some byte of [s] is an upper-case ASCII letter. *)
Fixpoint has_upper (s : string) : bool :=
  match s with
  | EmptyString => false
  | String c s' => is_upper c || has_upper s'
  end.

(** The sentence on upper-case schemes as the specification words it: the
    host of the URL returned for [raw] is not the host that is written in
    [raw], the one a URL parser reads there, be it compared with or
    without the port. *)
Definition host_replaced_as_stated (raw : string) : Prop :=
  forall out u_out u_in,
    normalizeURL raw = Ok out ->
    url_Parse out = Ok u_out ->
    url_Parse (strings_TrimSpace raw) = Ok u_in ->
    Host u_out <> Host u_in \/ url_Hostname u_out <> url_Hostname u_in.

(** Anchors that differ in fragment and query only: [/x#top], [/x?q=1]
    and [/x?], whose query is empty. *)
Definition query_mark_doc : Document :=
  mkDocument
    [ElementNode "html" []
       [ElementNode "head" [] [];
        ElementNode "body" []
          [ElementNode "a" [mkAttribute "href" "/x#top"] [];
           ElementNode "a" [mkAttribute "href" "/x?q=1"] [];
           ElementNode "a" [mkAttribute "href" "/x?"] []]]].

(** Two anchors that differ by a bare question mark, [/x] and [/x?]. *)
Definition bare_query_doc : Document :=
  mkDocument
    [ElementNode "html" []
       [ElementNode "head" [] [];
        ElementNode "body" []
          [ElementNode "a" [mkAttribute "href" "/x"] [];
           ElementNode "a" [mkAttribute "href" "/x?"] []]]].

(* ================================================================== *)
(** ** The rest of the program: error text, handlers, environment *)
(* ================================================================== *)

(** [fmt.Sprintf("%d", n)]. *)
Definition Sprintf_d (n : Z) : string := NilEmpty.string_of_int (Z.to_int n).

(** [err.Error()] of the errors that the analysis holds.  The text of an
    error made by a library ([url.Parse], [client.Do], [io.ReadAll], the
    HTML parser) is given by [library_text]. *)
Fixpoint go_error_text (library_text : go_error -> string) (e : go_error) : string :=
  match e with
  | ErrEmptyURLInput => "empty URL"
  | ErrMissingHost => "missing host"
  | ErrInvalidURL cause => "invalid URL: " +:+ go_error_text library_text cause
  | ErrMessage msg => msg
  | ErrURL _ | ErrHTTP _ | ErrReadBody | ErrHTMLParse => library_text e
  end.

(** The [Error] method of [AnalyzeError]. *)
Definition AnalyzeError_Error (library_text : go_error -> string) (e : AnalyzeError)
  : string :=
  if negb (Z.eqb (ae_StatusCode e) 0)
  then "HTTP " +:+ Sprintf_d (ae_StatusCode e) +:+ ": "
       +:+ go_error_text library_text (ae_Err e)
  else go_error_text library_text (ae_Err e).

(** The requests [reqs] that the loop of [Client.do] has sent when it
    returns, in order; same loop as [client_do]. *)
Fixpoint client_do_requests (rt : Transport) (m : Method) (left : nat) (req : URL)
  : list URL :=
  req ::
  match rt m req with
  | RTError _ => []
  | RTResponse status loc _ =>
      if shouldRedirect status then
        if is_empty loc then []
        else match url_Parse_ref req loc with
             | Err _ => []
             | Ok u =>
                 match left with
                 | 0 => []
                 | S left' => client_do_requests rt m left' u
                 end
             end
      else []
  end.

(** The requests of [client.Do(req)] under a policy that stops at [max]. *)
Definition client_Do_requests (rt : Transport) (max : nat) (m : Method) (req : URL)
  : list URL :=
  client_do_requests rt m (max - 1) req.

(** What a handler reads of the incoming request. *)
Record Request : Type := mkRequest {
  req_Method : string;        (* r.Method *)
  req_FormValue_url : string  (* r.FormValue("url") *)
}.

(** The map handed to the result template. *)
Inductive TemplateData : Type :=
  | ErrorPage (Error URL : string) (StatusCode : Z) (ErrorMessage : string)
      (* "HadError": true *)
  | ResultPage (URL HTMLVersion Title : string) (Headings : gmap string nat)
      (Links : LinkSummary) (HasLoginForm : bool) (Inaccessible : nat).
      (* "HadError": false *)

(** What a handler does: its calls on the [http.ResponseWriter] and on
    the templates, in order, and the panic that ends it, if any. *)
Inductive WriterCall : Type :=
  | http_Error (msg : string) (code : Z)
  | WriteHeader (code : Z)
  | Execute_index
  | Execute_result (data : TemplateData)
  | panic (v : string).

(** [checkWriteHeaderCode] of [net/http]: [w.WriteHeader(code)] panics
    on a code below 100 or above 999, before anything is written. *)
Definition invalid_WriteHeader_code (code : Z) : bool :=
  (code <? 100)%Z || (999 <? code)%Z.

Definition StatusBadRequest : Z := 400.
Definition StatusMethodNotAllowed : Z := 405.
Definition StatusBadGateway : Z := 502.

(** [handleIndex]. *)
Definition handleIndex (r : Request) : list WriterCall :=
  if negb (String.eqb (req_Method r) "GET")
  then [http_Error "method not allowed" StatusMethodNotAllowed]
  else [Execute_index].

(** [handleAnalyze].  [http.Error] passes 405 and 400 to [WriteHeader];
    the status of a failed analysis may be any number that the upstream
    response carried. *)
Definition handleAnalyze (library_text : go_error -> string) (w : World) (r : Request)
  : list WriterCall :=
  if negb (String.eqb (req_Method r) "POST")
  then [http_Error "method not allowed" StatusMethodNotAllowed]
  else
    let url := req_FormValue_url r in
    if is_empty url then [http_Error "missing url" StatusBadRequest]
    else
      match AnalyzeURL w url with
      | (_, Some err) =>
          (* surface a friendly error page with status code + description *)
          let status :=
            if negb (Z.eqb (ae_StatusCode err) 0) then ae_StatusCode err
            else StatusBadGateway in
          if invalid_WriteHeader_code status
          then [panic ("invalid WriteHeader code " +:+ Sprintf_d status)]
          else
            [WriteHeader status;
             Execute_result
               (ErrorPage (AnalyzeError_Error library_text err) url status
                          (AnalyzeError_Error library_text err))]
      | (Some result, None) =>
          [Execute_result
             (ResultPage url (HTMLVersion result) (Title result) (Headings result)
                         (Links result) (HasLoginForm result) (Inaccessible result))]
      | (None, None) => []
      end.

(** The status codes that a handler passes to [WriteHeader], itself or
    through [http.Error]. *)
Definition codes_written (calls : list WriterCall) : list Z :=
  omap (fun c => match c with
                 | http_Error _ code | WriteHeader code => Some code
                 | _ => None
                 end) calls.

(** [os.Getenv] on an environment: the empty string when the variable is
    not set. *)
Definition os_Getenv (env : gmap string string) (key : string) : string :=
  default "" (env !! key).

(** [getEnv]. *)
Definition getEnv (env : gmap string string) (key def : string) : string :=
  let v := os_Getenv env key in
  if negb (is_empty v) then v else def.

(** A doctype stands among the children of the document node. *)
Definition has_doctype (root : Document) : Prop :=
  exists data, DoctypeNode data ∈ doc_children root.

(** The parsed [href] has neither scheme nor authority: a path, a query
    or a fragment, to be resolved against the base. *)
Definition relative_reference (u : URL) : Prop :=
  Scheme u = "" /\ Host u = "" /\ User u = None.

(** What the anchor names, before it is resolved: the parse of its
    trimmed [href], when it is not left out. *)
Definition parsed_href (anchor : Node) : option URL :=
  let href := strings_TrimSpace (goquery_Attr anchor "href").1 in
  if href_skipped href then None
  else match url_Parse href with
       | Err _ => None
       | Ok u => Some u
       end.

(** A transport whose every answer redirects to the same place. *)
Definition redirect_loop : Transport :=
  fun _ _ => RTResponse 302 "/again" no_body.

Definition loop_world : World := mkWorld redirect_loop (fun _ => None).

Definition no_library_text : go_error -> string := fun _ => "".

(** Two URLs that name the same host with and without a port. *)
Definition url_on (host : string) : URL :=
  mkURL "https" "" None host "/" "" false false "" "" "".

(** The string starts with a white-space rune. *)
Definition leading_space (s : string) : bool :=
  match s with
  | EmptyString => false
  | String a s1 =>
      asciiSpace a
      || match s1 with
         | EmptyString => false
         | String b s2 =>
             space2 a b
             || match s2 with
                | EmptyString => false
                | String c _ => space3 a b c
                end
         end
  end.

(** The reversed string starts with the bytes of a white-space rune, last
    byte first: the string ends with a white-space rune. *)
Definition leading_space_rev (s : string) : bool :=
  match s with
  | EmptyString => false
  | String a s1 =>
      asciiSpace a
      || match s1 with
         | EmptyString => false
         | String b s2 =>
             space2 b a
             || match s2 with
                | EmptyString => false
                | String c _ => space3 c b a
                end
         end
  end.

(** A page whose title and whose links need probing. *)
Definition accessible (client : Client) (link : string) : Prop :=
  (linkAccessible client link).1 = true.

(* ================================================================== *)
(** ** Case folding *)
(* ================================================================== *)

Lemma memZ_spec (x : Z) (l : list Z) : memZ x l = true <-> x ∈ l.
Proof.
  unfold memZ. rewrite existsb_exists. split.
  - intros (y & Hy & E). apply Z.eqb_eq in E. subst. by apply list_elem_of_In.
  - intros H. exists x. split; [by apply list_elem_of_In | apply Z.eqb_refl].
Qed.

Lemma orbit4_elem (a b : Z) :
  b ∈ orbit4 a <->
  b = a \/ b = unicode_SimpleFold a
  \/ b = unicode_SimpleFold (unicode_SimpleFold a)
  \/ b = unicode_SimpleFold (unicode_SimpleFold (unicode_SimpleFold a)).
Proof.
  unfold orbit4. cbv zeta. rewrite !elem_of_cons, elem_of_nil. tauto.
Qed.

Lemma caseOrbit_lookup_In (orbit : list foldPair) (r to : Z) :
  caseOrbit_lookup orbit r = Some to -> In r (map fst orbit).
Proof.
  induction orbit as [|[from t] orbit IH]; cbn; [done|].
  destruct (Z.eqb_spec from r); [by left | right; auto].
Qed.

Lemma unicode_to_support (_case r : Z) (caseRange : list CaseRange) :
  unicode_to _case r caseRange <> r -> In r (flat_map CaseRange_runes caseRange).
Proof.
  induction caseRange as [|cr rest IH]; cbn [unicode_to flat_map]; [done|].
  rewrite in_app_iff.
  destruct ((cr_Lo cr <=? r)%Z && (r <=? cr_Hi cr)%Z) eqn:E.
  - intros _. left. apply andb_true_iff in E as [E1 E2].
    apply Z.leb_le in E1, E2. apply list_elem_of_In.
    unfold CaseRange_runes. apply elem_of_seqZ. lia.
  - intros H. right. auto.
Qed.

(** A rune that [SimpleFold] moves is one of the runes of the tables. *)
Lemma SimpleFold_support (r : Z) :
  unicode_SimpleFold r <> r -> In r fold_support.
Proof.
  unfold unicode_SimpleFold, fold_support. intros H.
  destruct ((r <? 0)%Z || (unicode_MaxRune <? r)%Z) eqn:E1; [done|].
  apply orb_false_iff in E1 as [E1 _]. apply Z.ltb_ge in E1.
  rewrite !in_app_iff.
  destruct (Z.ltb_spec r 128) as [E2|E2].
  - left. apply list_elem_of_In, elem_of_seqZ. lia.
  - right. destruct (caseOrbit_lookup caseOrbit r) as [to|] eqn:E3.
    + left. by eapply caseOrbit_lookup_In.
    + right. unfold unicode_ToLower, unicode_ToUpper in H.
      assert (E4 : (r <=? unicode_MaxASCII)%Z = false).
      { apply Z.leb_gt. unfold unicode_MaxASCII. lia. }
      rewrite E4 in H.
      destruct (Z.eqb_spec (unicode_to LowerCase r CaseRanges) r) as [E5|E5];
        cbn [negb] in H; by eapply unicode_to_support.
Qed.

Lemma orbit_sorted_support : forallb orbit_sorted fold_support = true.
Proof. vm_compute. reflexivity. Qed.

(** Every rune lies on a cycle of [SimpleFold] of four runes at most, and
    the cycle rises above the rune before it falls below it. *)
Lemma orbit_sorted_all (r : Z) : orbit_sorted r = true.
Proof.
  destruct (Z.eq_dec (unicode_SimpleFold r) r) as [Hfix|Hmove].
  - unfold orbit_sorted. cbv zeta. apply Z.eqb_eq in Hfix. by rewrite Hfix.
  - apply SimpleFold_support in Hmove.
    pose proof orbit_sorted_support as H. rewrite forallb_forall in H. by apply H.
Qed.

Ltac orbit_cases :=
  cbn [negb andb orb] in *;
  first
    [ lia | discriminate | reflexivity
    | match goal with
      | H : context [Z.eqb ?x ?y] |- _ => destruct (Z.eqb_spec x y); orbit_cases
      | H : context [Z.ltb ?x ?y] |- _ => destruct (Z.ltb_spec x y); orbit_cases
      | H : context [Z.leb ?x ?y] |- _ => destruct (Z.leb_spec x y); orbit_cases
      | |- context [Z.eqb ?x ?y] => destruct (Z.eqb_spec x y); orbit_cases
      | |- context [Z.ltb ?x ?y] => destruct (Z.ltb_spec x y); orbit_cases
      | |- context [Z.leb ?x ?y] => destruct (Z.leb_spec x y); orbit_cases
      end ].

(** The shape of the cycle of [lo], with the runes it passes through. *)
Lemma orbit_shape (lo : Z) :
  let s1 := unicode_SimpleFold lo in
  let s2 := unicode_SimpleFold s1 in
  let s3 := unicode_SimpleFold s2 in
  let s4 := unicode_SimpleFold s3 in
  (s1 = lo /\ s2 = lo /\ s3 = lo /\ s4 = lo) \/
  (s1 <> lo /\ s2 = lo /\ s3 = s1 /\ s4 = lo) \/
  (s1 <> lo /\ s2 <> lo /\ s3 = lo /\ s4 = s1 /\
   ~ (lo < s1 /\ lo < s2 /\ s2 <= s1)%Z) \/
  (s1 <> lo /\ s2 <> lo /\ s3 <> lo /\ s4 = lo /\
   ~ (lo < s1 /\ lo < s2 /\ s2 <= s1)%Z /\
   ~ (lo < s1 /\ lo < s3 /\ s3 <= s1)%Z /\
   ~ (lo < s2 /\ lo < s3 /\ s3 <= s2)%Z).
Proof.
  intros s1 s2 s3 s4. pose proof (orbit_sorted_all lo) as Hs.
  unfold orbit_sorted in Hs. cbv zeta in Hs. fold s1 s2 s3 s4 in Hs.
  destruct (Z.eqb_spec s1 lo) as [E1|E1].
  { left.
    assert (E2 : s2 = lo) by (unfold s2; rewrite E1; exact E1).
    assert (E3 : s3 = lo) by (unfold s3; rewrite E2; exact E1).
    assert (E4 : s4 = lo) by (unfold s4; rewrite E3; exact E1).
    done. }
  right. destruct (Z.eqb_spec s2 lo) as [E2|E2].
  { left.
    assert (E3 : s3 = s1) by (unfold s3; rewrite E2; reflexivity).
    assert (E4 : s4 = lo) by (unfold s4; rewrite E3; exact E2).
    done. }
  right. destruct (Z.eqb_spec s3 lo) as [E3|E3].
  { left.
    assert (E4 : s4 = s1) by (unfold s4; rewrite E3; reflexivity).
    split_and!; try done. orbit_cases. }
  right. destruct (Z.eqb_spec s4 lo) as [E4|E4]; [|done].
  split_and!; try done; orbit_cases.
Qed.

(** The loop of [strings.EqualFold] ends on [hi] exactly when [hi] is on
    the cycle of [lo]. *)
Lemma simpleFold_until_orbit (lo hi : Z) :
  (lo < hi)%Z ->
  (simpleFold_until 4 (unicode_SimpleFold lo) lo hi =? hi)%Z = memZ hi (orbit4 lo).
Proof.
  intros Hlt. pose proof (orbit_shape lo) as Hs.
  unfold orbit4, memZ. cbn [existsb simpleFold_until]. cbv zeta in *.
  set (s1 := unicode_SimpleFold lo) in *.
  set (s2 := unicode_SimpleFold s1) in *.
  set (s3 := unicode_SimpleFold s2) in *.
  set (s4 := unicode_SimpleFold s3) in *.
  clearbody s1 s2 s3 s4.
  destruct Hs as [(-> & -> & -> & ->)|[(H1 & -> & -> & ->)|[(H1 & H2 & -> & -> & H3)
                 |(H1 & H2 & H3 & -> & H4 & H5 & H6)]]]; orbit_cases.
Qed.

(** Four turns are enough: more fuel gives the same rune. *)
Lemma simpleFold_until_fuel (n : nat) (sr tr : Z) :
  simpleFold_until (4 + n) (unicode_SimpleFold sr) sr tr
  = simpleFold_until 4 (unicode_SimpleFold sr) sr tr.
Proof.
  pose proof (orbit_shape sr) as Hs.
  cbn [simpleFold_until Nat.add]. cbv zeta in *.
  set (s1 := unicode_SimpleFold sr) in *.
  set (s2 := unicode_SimpleFold s1) in *.
  set (s3 := unicode_SimpleFold s2) in *.
  set (s4 := unicode_SimpleFold s3) in *.
  clearbody s1 s2 s3 s4.
  destruct Hs as [(-> & -> & -> & ->)|[(H1 & -> & -> & ->)|[(H1 & H2 & -> & -> & H3)
                 |(H1 & H2 & H3 & -> & H4 & H5 & H6)]]]; orbit_cases.
Qed.

(** Being on the cycle of a rune is symmetric and transitive. *)
Lemma orbit4_sym (a b : Z) : b ∈ orbit4 a -> a ∈ orbit4 b.
Proof.
  rewrite !orbit4_elem. intros Hb. pose proof (orbit_shape a) as Hs.
  cbv zeta in Hs.
  destruct Hs as [(E1 & E2 & E3 & E4)|[(_ & E2 & E3 & E4)|[(_ & _ & E3 & E4 & _)
                 |(_ & _ & _ & E4 & _)]]];
    destruct Hb as [-> | [-> | [-> | ->]]];
    rewrite ?E4, ?E3, ?E2, ?E1; try (by left);
    first [ by (right; left) | by (right; right; left) | by (right; right; right)
          | idtac ].
  all: first [ left; congruence | right; left; congruence
             | right; right; left; congruence | right; right; right; congruence ].
Qed.

Lemma orbit4_trans (a b c : Z) : b ∈ orbit4 a -> c ∈ orbit4 b -> c ∈ orbit4 a.
Proof.
  rewrite !orbit4_elem. intros Hb Hc. pose proof (orbit_shape a) as Hs.
  cbv zeta in Hs.
  destruct Hs as [(E1 & E2 & E3 & E4)|[(_ & E2 & E3 & E4)|[(_ & _ & E3 & E4 & _)
                 |(_ & _ & _ & E4 & _)]]];
    destruct Hb as [-> | [-> | [-> | ->]]]; destruct Hc as [-> | [-> | [-> | ->]]];
    rewrite ?E4, ?E3, ?E2, ?E1;
    first [ left; congruence | right; left; congruence
          | right; right; left; congruence | right; right; right; congruence ].
Qed.

Lemma memZ_orbit4_sym (a b : Z) : memZ a (orbit4 b) = memZ b (orbit4 a).
Proof.
  apply eq_true_iff_eq. rewrite !memZ_spec. split; apply orbit4_sym.
Qed.

Lemma SimpleFold_negative (r : Z) : (r < 0)%Z -> unicode_SimpleFold r = r.
Proof.
  intros H. unfold unicode_SimpleFold.
  by destruct (Z.ltb_spec r 0); [|lia].
Qed.

Lemma ascii_orbit_ok_all : forallb ascii_orbit_ok (seqZ 0 128) = true.
Proof. vm_compute. reflexivity. Qed.

(** On two different runes below [RuneSelf] the test for ASCII letters
    says whether one is on the cycle of the other. *)
Lemma ascii_case_pair_orbit (a b : Z) :
  (a < 128)%Z -> (b < 128)%Z -> a <> b ->
  ascii_case_pair (Z.min a b) (Z.max a b) = memZ b (orbit4 a).
Proof.
  intros Ha Hb Hne. destruct (Z.ltb_spec a 0) as [Hneg|Hpos].
  - transitivity false.
    + unfold ascii_case_pair. destruct (Z.leb_spec 65 (Z.min a b)); [lia|done].
    + symmetry. apply not_true_is_false. rewrite memZ_spec, orbit4_elem.
      rewrite !SimpleFold_negative by (rewrite ?SimpleFold_negative; lia).
      intros [?|[?|[?|?]]]; congruence.
  - pose proof ascii_orbit_ok_all as H. rewrite forallb_forall in H.
    specialize (H a). unfold ascii_orbit_ok in H. cbv zeta in H.
    rewrite andb_true_iff in H. destruct H as [H1 H2].
    { apply list_elem_of_In, elem_of_seqZ. lia. }
    rewrite forallb_forall in H1, H2.
    destruct (Z.ltb_spec b 0) as [Hbneg|Hbpos].
    + transitivity false.
      * unfold ascii_case_pair. destruct (Z.leb_spec 65 (Z.min a b)); [lia|done].
      * symmetry. apply not_true_is_false. rewrite memZ_spec. intros Hin.
        apply list_elem_of_In, H2, Z.leb_le in Hin. lia.
    + specialize (H1 b). rewrite orb_true_iff in H1. destruct H1 as [H1|H1].
      * apply list_elem_of_In, elem_of_seqZ. lia.
      * apply Z.eqb_eq in H1. congruence.
      * by apply eqb_prop in H1.
Qed.

(** Two runes match in [strings.EqualFold] exactly when one is on the
    cycle of the other. *)
Lemma rune_EqualFold_orbit (a b : Z) : rune_EqualFold a b = memZ b (orbit4 a).
Proof.
  unfold rune_EqualFold. destruct (Z.eqb_spec b a) as [->|Hne].
  { symmetry. apply memZ_spec, orbit4_elem. by left. }
  destruct (Z.ltb_spec b a) as [Hlt|Hge].
  - destruct (Z.ltb_spec a utf8_RuneSelf) as [Hascii|Hhigh].
    + unfold utf8_RuneSelf in Hascii.
      rewrite <- ascii_case_pair_orbit by (try lia; congruence).
      unfold ascii_case_pair. by rewrite Z.min_r, Z.max_l by lia.
    + rewrite simpleFold_until_orbit by done. apply memZ_orbit4_sym.
  - assert (a < b)%Z by lia.
    destruct (Z.ltb_spec b utf8_RuneSelf) as [Hascii|Hhigh].
    + unfold utf8_RuneSelf in Hascii.
      rewrite <- ascii_case_pair_orbit by (try lia; congruence).
      unfold ascii_case_pair. by rewrite Z.min_l, Z.max_r by lia.
    + by rewrite simpleFold_until_orbit.
Qed.

Lemma rune_EqualFold_refl (a : Z) : rune_EqualFold a a = true.
Proof. unfold rune_EqualFold. by rewrite Z.eqb_refl. Qed.

Lemma rune_EqualFold_sym (a b : Z) : rune_EqualFold a b = rune_EqualFold b a.
Proof. rewrite !rune_EqualFold_orbit. apply memZ_orbit4_sym. Qed.

Lemma rune_EqualFold_trans (a b c : Z) :
  rune_EqualFold a b = true -> rune_EqualFold b c = true ->
  rune_EqualFold a c = true.
Proof. rewrite !rune_EqualFold_orbit, !memZ_spec. apply orbit4_trans. Qed.

Lemma equalFold_hasUnicode_refl (s : list Z) : equalFold_hasUnicode s s = true.
Proof.
  induction s as [|a s IH]; [done|]. cbn [equalFold_hasUnicode].
  by rewrite rune_EqualFold_refl, IH.
Qed.

Lemma equalFold_hasUnicode_sym (s t : list Z) :
  equalFold_hasUnicode s t = equalFold_hasUnicode t s.
Proof.
  revert t. induction s as [|a s IH]; intros [|b t]; cbn [equalFold_hasUnicode];
    try done.
  by rewrite rune_EqualFold_sym, IH.
Qed.

Lemma equalFold_hasUnicode_trans (s t r : list Z) :
  equalFold_hasUnicode s t = true -> equalFold_hasUnicode t r = true ->
  equalFold_hasUnicode s r = true.
Proof.
  revert t r. induction s as [|a s IH]; intros [|b t] [|c r];
    cbn [equalFold_hasUnicode]; try done.
  rewrite !andb_true_iff. intros [H1 H2] [H3 H4]. split.
  - by eapply rune_EqualFold_trans.
  - by eapply IH.
Qed.

(** A byte is a number below 256. *)
Lemma byte_Z_range (c : ascii) : (0 <= byte_Z c < 256)%Z.
Proof.
  unfold byte_Z, byte_val. pose proof (N_ascii_bounded c). lia.
Qed.

(** [sr|tr >= utf8.RuneSelf]: one of the two bytes is not ASCII. *)
Lemma lor_RuneSelf (x y : Z) :
  (0 <= x)%Z -> (0 <= y)%Z ->
  (utf8_RuneSelf <=? Z.lor x y)%Z = (128 <=? x)%Z || (128 <=? y)%Z.
Proof.
  intros Hx Hy. unfold utf8_RuneSelf.
  assert (H : forall z, (0 <= z)%Z -> (z < 128 <-> Z.log2 z < 7)%Z).
  { intros z Hz. destruct (Z.eq_dec z 0%Z) as [->|Hnz]; [done|].
    change 128%Z with (2 ^ 7)%Z. by rewrite Z.log2_lt_pow2 by lia. }
  assert (Hlor : (Z.lor x y < 128 <-> x < 128 /\ y < 128)%Z).
  { rewrite !H by (try apply Z.lor_nonneg; lia).
    rewrite Z.log2_lor by lia. lia. }
  destruct (Z.leb_spec 128 (Z.lor x y)), (Z.leb_spec 128 x), (Z.leb_spec 128 y);
    simpl; try done; lia.
Qed.

(** The runes of a string that starts with an ASCII byte. *)
Lemma utf8_runes_ascii (c : ascii) (s : string) :
  (byte_Z c < 128)%Z -> utf8_runes (String c s) = byte_Z c :: utf8_runes s.
Proof.
  intros H. cbn [utf8_runes]. cbv zeta. unfold utf8_RuneSelf.
  by destruct (Z.ltb_spec (byte_Z c) 128); [|lia].
Qed.

(** A string that is not empty has a first rune. *)
Lemma utf8_runes_cons (c : ascii) (s : string) :
  exists r rest, utf8_runes (String c s) = r :: rest.
Proof.
  cbn [utf8_runes]. cbv zeta. repeat case_match; eauto.
Qed.

(** [strings.EqualFold] compares the runes of the two strings: the loop
    over the ASCII bytes does what the loop over the runes does. *)
Lemma EqualFold_runes (s t : string) :
  strings_EqualFold s t = equalFold_hasUnicode (utf8_runes s) (utf8_runes t).
Proof.
  revert t. induction s as [|c s IH]; intros [|d t].
  - done.
  - destruct (utf8_runes_cons d t) as (r & rest & ->). done.
  - destruct (utf8_runes_cons c s) as (r & rest & ->). done.
  - cbn [strings_EqualFold]. cbv zeta.
    pose proof (byte_Z_range c) as Hc. pose proof (byte_Z_range d) as Hd.
    rewrite lor_RuneSelf by lia.
    destruct (Z.leb_spec 128 (byte_Z c)) as [Hc'|Hc'];
      [done|destruct (Z.leb_spec 128 (byte_Z d)) as [Hd'|Hd']; [done|]].
    cbn [orb]. rewrite !utf8_runes_ascii by done. cbn [equalFold_hasUnicode].
    unfold rune_EqualFold.
    destruct (Z.eqb_spec (byte_Z d) (byte_Z c)) as [E|E]; [by rewrite IH|].
    destruct (Z.ltb_spec (byte_Z d) (byte_Z c)).
    + unfold utf8_RuneSelf.
      destruct (Z.ltb_spec (byte_Z c) 128); [|lia]. rewrite IH.
      by destruct (_ && _ && _).
    + unfold utf8_RuneSelf.
      destruct (Z.ltb_spec (byte_Z d) 128); [|lia]. rewrite IH.
      by destruct (_ && _ && _).
Qed.

Lemma EqualFold_refl (s : string) : strings_EqualFold s s = true.
Proof. rewrite EqualFold_runes. apply equalFold_hasUnicode_refl. Qed.

Lemma EqualFold_sym (s t : string) :
  strings_EqualFold s t = strings_EqualFold t s.
Proof. rewrite !EqualFold_runes. apply equalFold_hasUnicode_sym. Qed.

Lemma EqualFold_trans (s t r : string) :
  strings_EqualFold s t = true -> strings_EqualFold t r = true ->
  strings_EqualFold s r = true.
Proof. rewrite !EqualFold_runes. apply equalFold_hasUnicode_trans. Qed.

(** The rune that stands for [r] is on the cycle of [r] and below every
    rune of it. *)
Lemma fold_rune_elem (r : Z) : fold_rune r ∈ orbit4 r.
Proof.
  unfold fold_rune, orbit4. cbv zeta. cbn [foldr].
  set (s1 := unicode_SimpleFold r). set (s2 := unicode_SimpleFold s1).
  set (s3 := unicode_SimpleFold s2). clearbody s1 s2 s3.
  rewrite !elem_of_cons. lia.
Qed.

Lemma fold_rune_le (r x : Z) : x ∈ orbit4 r -> (fold_rune r <= x)%Z.
Proof.
  unfold fold_rune, orbit4. cbv zeta. cbn [foldr].
  set (s1 := unicode_SimpleFold r). set (s2 := unicode_SimpleFold s1).
  set (s3 := unicode_SimpleFold s2). clearbody s1 s2 s3.
  rewrite !elem_of_cons, elem_of_nil. lia.
Qed.

(** Two runes match in [strings.EqualFold] exactly when the same rune
    stands for both. *)
Lemma rune_EqualFold_fold_rune (a b : Z) :
  rune_EqualFold a b = true <-> fold_rune a = fold_rune b.
Proof.
  rewrite rune_EqualFold_orbit, memZ_spec. split.
  - intros Hb. pose proof (orbit4_sym _ _ Hb) as Ha.
    pose proof (fold_rune_elem a) as Hfa. pose proof (fold_rune_elem b) as Hfb.
    pose proof (fold_rune_le a (fold_rune b) (orbit4_trans _ _ _ Hb Hfb)).
    pose proof (fold_rune_le b (fold_rune a) (orbit4_trans _ _ _ Ha Hfa)).
    lia.
  - intros E. pose proof (fold_rune_elem a) as Hfa.
    pose proof (fold_rune_elem b) as Hfb. rewrite <- E in Hfb.
    apply orbit4_sym in Hfb. by eapply orbit4_trans.
Qed.

(** [strings.EqualFold] is equality with case set aside. *)
Lemma EqualFold_case_folded (s t : string) :
  strings_EqualFold s t = true <-> case_folded s = case_folded t.
Proof.
  rewrite EqualFold_runes. unfold case_folded.
  generalize (utf8_runes s) (utf8_runes t). clear s t.
  intros s. induction s as [|a s IH]; intros [|b t]; cbn [equalFold_hasUnicode map];
    try done.
  rewrite andb_true_iff, rune_EqualFold_fold_rune, IH. split.
  - by intros [-> ->].
  - by intros [= -> ->].
Qed.

(** The test of the classifier for an internal link is [sameHost]. *)
Lemma internal_link_sameHost (base u : URL) :
  internal_link base u = sameHost u base.
Proof.
  unfold internal_link, sameHost. apply eq_true_iff_eq.
  by rewrite bool_decide_eq_true, EqualFold_case_folded.
Qed.


(* ================================================================== *)
(** ** Facts on byte strings *)
(* ================================================================== *)

Section StringFacts.

Lemma append_cons (c : ascii) (s t : string) :
  String c s +:+ t = String c (s +:+ t).
Proof. reflexivity. Qed.

Lemma append_nil_l (t : string) : "" +:+ t = t.
Proof. reflexivity. Qed.

Lemma string_take_length (n : nat) (s : string) :
  String.length (string_take n s) <= n.
Proof.
  revert s. induction n as [|n IH]; intros [|c s]; simpl; try lia.
  specialize (IH s). lia.
Qed.

Lemma string_take_drop (n : nat) (s : string) :
  string_take n s +:+ string_drop n s = s.
Proof.
  revert s. induction n as [|n IH]; intros [|c s]; simpl; try done.
  rewrite append_cons. f_equal. apply IH.
Qed.

Lemma string_rev_onto_length (s acc : string) :
  String.length (string_rev_onto s acc) = String.length s + String.length acc.
Proof.
  revert acc. induction s as [|c s IH]; intros acc; simpl; [done|].
  rewrite IH. simpl. lia.
Qed.

Lemma string_rev_length (s : string) :
  String.length (string_rev s) = String.length s.
Proof. unfold string_rev. rewrite string_rev_onto_length. simpl. lia. Qed.

Lemma trim_left_space_length_bound (n : nat) (s : string) :
  String.length s <= n ->
  String.length (trim_left_space s) <= String.length s.
Proof.
  revert s. induction n as [|n IH]; intros s Hn.
  - destruct s; simpl in *; lia.
  - destruct s as [|a [|b [|c s3]]]; simpl in *; try lia.
    + destruct (asciiSpace a); simpl; lia.
    + destruct (asciiSpace a).
      * specialize (IH (String b "")). simpl in IH.
        etrans; [apply IH; lia|]. lia.
      * destruct (space2 a b); simpl; lia.
    + destruct (asciiSpace a).
      * specialize (IH (String b (String c s3))). simpl in IH.
        etrans; [apply IH; lia|]. lia.
      * destruct (space2 a b).
        -- specialize (IH (String c s3)). simpl in IH.
           etrans; [apply IH; lia|]. lia.
        -- destruct (space3 a b c); [|simpl; lia].
           specialize (IH s3). etrans; [apply IH; lia|]. lia.
Qed.

Lemma trim_left_space_rev_length_bound (n : nat) (s : string) :
  String.length s <= n ->
  String.length (trim_left_space_rev s) <= String.length s.
Proof.
  revert s. induction n as [|n IH]; intros s Hn.
  - destruct s; simpl in *; lia.
  - destruct s as [|a [|b [|c s3]]]; simpl in *; try lia.
    + destruct (asciiSpace a); simpl; lia.
    + destruct (asciiSpace a).
      * specialize (IH (String b "")). simpl in IH.
        etrans; [apply IH; lia|]. lia.
      * destruct (space2 b a); simpl; lia.
    + destruct (asciiSpace a).
      * specialize (IH (String b (String c s3))). simpl in IH.
        etrans; [apply IH; lia|]. lia.
      * destruct (space2 b a).
        -- specialize (IH (String c s3)). simpl in IH.
           etrans; [apply IH; lia|]. lia.
        -- destruct (space3 c b a); [|simpl; lia].
           specialize (IH s3). etrans; [apply IH; lia|]. lia.
Qed.

Lemma strings_TrimSpace_length (s : string) :
  String.length (strings_TrimSpace s) <= String.length s.
Proof.
  unfold strings_TrimSpace, trim_right_space.
  rewrite string_rev_length.
  etrans; [apply (trim_left_space_rev_length_bound _ _ (Nat.le_refl _))|].
  rewrite string_rev_length.
  apply (trim_left_space_length_bound _ _ (Nat.le_refl _)).
Qed.

End StringFacts.

(* ================================================================== *)
(** ** Reachability checker *)
(* ================================================================== *)

Section Reachability.
Variable client : Client.

Lemma status_ok_spec (code : Z) :
  status_ok code = true <-> (200 <= code < 400)%Z.
Proof. unfold status_ok. rewrite andb_true_iff. lia. Qed.

Lemma status_ok_false (code : Z) :
  status_ok code = false <-> (code < 200 \/ 400 <= code)%Z.
Proof.
  unfold status_ok. rewrite andb_false_iff. lia.
Qed.

(** The request that is built does not depend on the method. *)
Lemma NewRequest_method (m m' : Method) (link : string) :
  http_NewRequestWithContext m link = http_NewRequestWithContext m' link.
Proof. reflexivity. Qed.

(** [linkAccessible] on a link for which the request can be built, by
    the outcome of the HEAD probe. *)
Lemma linkAccessible_head_ok (link : string) (req : URL) :
  http_NewRequestWithContext MethodHead link = Ok req ->
  ~ ProbeFails (client MethodHead req) ->
  linkAccessible client link = (true, [MethodHead]).
Proof.
  intros Hreq Hok. unfold linkAccessible. rewrite Hreq.
  destruct (client MethodHead req) as [e|resp]; simpl in *.
  - tauto.
  - destruct (status_ok (StatusCode resp)) eqn:E; [done|].
    apply status_ok_false in E. tauto.
Qed.

Lemma linkAccessible_head_fails (link : string) (req : URL) :
  http_NewRequestWithContext MethodHead link = Ok req ->
  ProbeFails (client MethodHead req) ->
  linkAccessible client link =
    (match client MethodGet req with
     | DoError _ => false
     | DoResponse resp => status_ok (StatusCode resp)
     end, [MethodHead; MethodGet]).
Proof.
  intros Hreq Hfail. unfold linkAccessible. rewrite Hreq.
  rewrite (NewRequest_method MethodGet MethodHead), Hreq.
  destruct (client MethodHead req) as [e|resp]; simpl in *.
  - by destruct (client MethodGet req).
  - destruct (status_ok (StatusCode resp)) eqn:E.
    + apply status_ok_spec in E. lia.
    + by destruct (client MethodGet req).
Qed.

Lemma linkAccessible_no_request (link : string) (e : url_error) :
  http_NewRequestWithContext MethodHead link = Err e ->
  linkAccessible client link = (false, []).
Proof. intros Hreq. unfold linkAccessible. by rewrite Hreq. Qed.

Lemma ProbeFails_dec (r : DoResult) : ProbeFails r \/ ~ ProbeFails r.
Proof. destruct r; simpl; [tauto | lia]. Qed.

Lemma get_result_false (req : URL) :
  match client MethodGet req with
  | DoError _ => false
  | DoResponse resp => status_ok (StatusCode resp)
  end = false <-> ProbeFails (client MethodGet req).
Proof.
  destruct (client MethodGet req); simpl; [tauto|]. apply status_ok_false.
Qed.

(** The counter after the goroutines of [order], from any start. *)
Lemma run_goroutines_from (links : list string) (order : list nat) (n : nat) :
  fold_left
    (fun inaccessible i =>
       match links !! i with
       | Some link => probe_goroutine client inaccessible link
       | None => inaccessible
       end) order n
  = n + total (map (fun i => match links !! i with
                             | Some link => contribution client link
                             | None => 0
                             end) order).
Proof.
  revert n. induction order as [|i order IH]; intros n; simpl; [lia|].
  rewrite IH. destruct (links !! i) as [link|]; [|lia].
  unfold probe_goroutine, contribution.
  destruct (linkAccessible client link).1; simpl; lia.
Qed.

Lemma total_Permutation (l l' : list nat) : l ≡ₚ l' -> total l = total l'.
Proof.
  induction 1; simpl; try lia.
Qed.

(** The order in which the goroutines finish does not show in the
    counter. *)
Lemma run_goroutines_schedule (links : list string) (order order' : list nat) :
  order ≡ₚ order' ->
  run_goroutines client links order = run_goroutines client links order'.
Proof.
  intros Hp. unfold run_goroutines. rewrite !run_goroutines_from.
  f_equal. apply total_Permutation. by apply Permutation_map.
Qed.

Lemma lookup_seq_contributions (pre links : list string) :
  map (fun i => match (pre ++ links) !! i with
                | Some link => contribution client link
                | None => 0
                end) (seq (length pre) (length links))
  = map (contribution client) links.
Proof.
  revert pre. induction links as [|l links IH]; intros pre; simpl; [done|].
  rewrite list_lookup_middle by done. f_equal.
  specialize (IH (pre ++ [l])). rewrite <- app_assoc in IH. simpl in IH.
  rewrite length_app in IH. simpl in IH.
  replace (length pre + 1) with (S (length pre)) in IH by lia. exact IH.
Qed.

Lemma run_goroutines_in_spawn_order (links : list string) :
  run_goroutines client links (seq 0 (length links))
  = total (map (contribution client) links).
Proof.
  unfold run_goroutines. rewrite run_goroutines_from. simpl.
  apply (f_equal total). exact (lookup_seq_contributions [] links).
Qed.

Lemma total_contributions_le (links : list string) :
  total (map (contribution client) links) <= length links.
Proof.
  induction links as [|l links IH]; simpl; [lia|].
  unfold contribution at 1. destruct (linkAccessible client l).1; lia.
Qed.

Lemma checkLinksAccessibility_positive (links : list string) (maxConcurrent : Z) :
  (0 < maxConcurrent)%Z ->
  checkLinksAccessibility client links maxConcurrent
  = Some (total (map (contribution client) links)).
Proof.
  intros Hpos. unfold checkLinksAccessibility.
  destruct links as [|l links]; [done|].
  cbn [length Nat.eqb]. destruct (Z.leb_spec maxConcurrent 0); [lia|].
  by rewrite run_goroutines_in_spawn_order.
Qed.

(** The contract of [linkAccessible] for one link whose request can be
    built. *)
Lemma link_contract (link : string) (req : URL) :
  http_NewRequestWithContext MethodHead link = Ok req ->
  (ProbeFails (client MethodHead req) <->
     (linkAccessible client link).2 = [MethodHead; MethodGet]) /\
  (~ ProbeFails (client MethodHead req) <->
     (linkAccessible client link).2 = [MethodHead]) /\
  (contribution client link = 1 <->
     ProbeFails (client MethodHead req) /\ ProbeFails (client MethodGet req)).
Proof.
  intros Hreq. unfold contribution.
  destruct (ProbeFails_dec (client MethodHead req)) as [Hf|Hn].
  - rewrite (linkAccessible_head_fails link req Hreq Hf). simpl.
    pose proof (get_result_false req) as Hg.
    destruct (match client MethodGet req with
              | DoError _ => false
              | DoResponse resp => status_ok (StatusCode resp)
              end); split_and!; try done; try tauto.
    + split; [done|]. intros [_ H]. apply Hg in H. done.
  - rewrite (linkAccessible_head_ok link req Hreq Hn). simpl.
    split_and!; try done; try tauto.
    split; [done|]. tauto.
Qed.

End Reachability.

(** C2 (as amended).  For a positive concurrency cap and every link from
    which a request can be built, the checker sends HEAD first, sends GET
    after it, once, exactly when the HEAD probe errors or returns a status
    outside [200,400), and the link adds 1 to the count exactly when both
    probes fail; a link from which no request can be built adds 1 and
    nothing is sent for it.  The count returned is the sum of what the
    links add, whatever the order in which the goroutines finish, and the
    empty list gives 0 with nothing sent. *)
Theorem reachability_head_then_get
    (client : Client) (links : list string) (maxConcurrent : Z) :
  (0 < maxConcurrent)%Z ->
  (forall link req,
      http_NewRequestWithContext MethodHead link = Ok req ->
      (ProbeFails (client MethodHead req) <->
         (linkAccessible client link).2 = [MethodHead; MethodGet]) /\
      (~ ProbeFails (client MethodHead req) <->
         (linkAccessible client link).2 = [MethodHead]) /\
      (contribution client link = 1 <->
         ProbeFails (client MethodHead req) /\ ProbeFails (client MethodGet req))) /\
  (forall link e,
      http_NewRequestWithContext MethodHead link = Err e ->
      (linkAccessible client link).2 = [] /\ contribution client link = 1) /\
  checkLinksAccessibility client links maxConcurrent
    = Some (total (map (contribution client) links)) /\
  (forall order, order ≡ₚ seq 0 (length links) ->
      run_goroutines client links order = total (map (contribution client) links)) /\
  checkLinksAccessibility client [] maxConcurrent = Some 0 /\
  probes_sent client [] = [].
Proof.
  intros Hpos. split_and!.
  - intros link req Hreq. by apply link_contract.
  - intros link e Hreq. unfold contribution.
    by rewrite (linkAccessible_no_request client link e).
  - by apply checkLinksAccessibility_positive.
  - intros order Hp. rewrite (run_goroutines_schedule client links _ _ Hp).
    apply run_goroutines_in_spawn_order.
  - done.
  - done.
Qed.

Lemma reachability_head_then_get_witness :
  (0 < 10)%Z /\
  checkLinksAccessibility stub_client stub_links 10 = Some 1 /\
  probes_sent stub_client stub_links
  = [("http://127.0.0.1:4000/ok", [MethodHead]);
     ("http://127.0.0.1:4000/head-refused", [MethodHead; MethodGet]);
     ("http://127.0.0.1:4000/gone", [MethodHead; MethodGet])].
Proof.
  split; [lia|].
  destruct (reachability_head_then_get stub_client stub_links 10 ltac:(lia))
    as (_ & _ & Hcount & _).
  split; [rewrite Hcount; reflexivity | reflexivity].
Defined.

(** C2, counterexample.  For the link [http://[::1] no request can be
    built: no HEAD probe is sent, yet the link is counted. *)
Lemma reachability_unbuildable_link_counterexample :
  ~ head_then_get_as_stated stub_client broken_link /\
  (linkAccessible stub_client broken_link).2 = [] /\
  checkLinksAccessibility stub_client [broken_link] 10 = Some 1.
Proof.
  split; [|split; reflexivity].
  intros [Hhead _]. vm_compute in Hhead. discriminate.
Qed.

(** C3 (as amended).  A HEAD probe that fails because the context was
    canceled is handled as any failed HEAD probe: the GET fallback is
    sent, once, and the link adds 1 to the count exactly when that GET
    fails too, as it does when it meets the canceled context. *)
Theorem canceled_head_probe_falls_back_to_get
    (client : Client) (link : string) (req : URL) :
  http_NewRequestWithContext MethodHead link = Ok req ->
  ProbeCanceled (client MethodHead req) ->
  (linkAccessible client link).2 = [MethodHead; MethodGet] /\
  (contribution client link = 1 <-> ProbeFails (client MethodGet req)) /\
  (ProbeCanceled (client MethodGet req) ->
     checkLinksAccessibility client [link] 10 = Some 1).
Proof.
  intros Hreq Hc.
  assert (Hf : ProbeFails (client MethodHead req)) by (by rewrite Hc).
  destruct (link_contract client link req Hreq) as (H1 & _ & H3).
  split; [by apply H1|]. split.
  - rewrite H3. tauto.
  - intros Hg. rewrite checkLinksAccessibility_positive by lia. simpl.
    assert (contribution client link = 1) as ->; [|done].
    apply H3. split; [done|]. by rewrite Hg.
Qed.

Lemma canceled_head_probe_falls_back_to_get_witness :
  http_NewRequestWithContext MethodHead example_link = Ok example_req /\
  ProbeCanceled (canceled_client MethodHead example_req) /\
  (linkAccessible canceled_client example_link).2 = [MethodHead; MethodGet] /\
  checkLinksAccessibility canceled_client [example_link] 10 = Some 1.
Proof.
  assert (Hreq : http_NewRequestWithContext MethodHead example_link = Ok example_req)
    by reflexivity.
  assert (Hc : ProbeCanceled (canceled_client MethodHead example_req))
    by reflexivity.
  destruct (canceled_head_probe_falls_back_to_get
              canceled_client example_link example_req Hreq Hc) as (Hs & _ & Hn).
  split_and!; [done | done | exact Hs | apply Hn; reflexivity].
Defined.

(** C3, counterexample.  Under a context that is canceled the HEAD probe
    of [https://example.com/a] fails by cancellation; the GET fallback is
    sent all the same and the link is counted. *)
Lemma canceled_probe_counterexample :
  ~ canceled_not_retried_as_stated canceled_client example_link /\
  (linkAccessible canceled_client example_link).2 = [MethodHead; MethodGet] /\
  checkLinksAccessibility canceled_client [example_link] 10 = Some 1.
Proof.
  split; [|split; reflexivity].
  intros H. destruct (H example_req) as [_ Hcount]; [reflexivity..|].
  vm_compute in Hcount. discriminate.
Qed.

(* ================================================================== *)
(** ** The orchestrator *)
(* ================================================================== *)

Lemma classifyLinks_each_counts (base : URL) (st : ClassifyState) (s : Node) :
  length (all st) = internal st + external st ->
  length (all (classifyLinks_each base st s))
  = internal (classifyLinks_each base st s) + external (classifyLinks_each base st s).
Proof.
  intros Hst. unfold classifyLinks_each.
  repeat (case_match; simpl; try done); rewrite length_app; simpl; lia.
Qed.

Lemma classifyLinks_counts (doc : Document) (base : URL) :
  length (classifyLinks doc base).2
  = (classifyLinks doc base).1.1 + (classifyLinks doc base).1.2.
Proof.
  unfold classifyLinks. simpl.
  generalize (doc_Find doc sel_a_href).
  assert (H0 : length (all (mkClassifyState ∅ 0 0 []))
               = internal (mkClassifyState ∅ 0 0 []) + external (mkClassifyState ∅ 0 0 []))
    by done.
  revert H0. generalize (mkClassifyState ∅ 0 0 []).
  intros st Hst l. revert st Hst.
  induction l as [|s l IH]; intros st Hst; simpl; [done|].
  apply IH. by apply classifyLinks_each_counts.
Qed.

(** C8.  In every result that the analysis produces the total of the link
    summary is the sum of the internal and external counts, and the
    inaccessible count is at most that total. *)
Theorem link_summary_invariants
    (w : World) (raw : string) (r : AnalyzeResult) (e : option AnalyzeError) :
  AnalyzeURL w raw = (Some r, e) ->
  Total (Links r) = Internal (Links r) + External (Links r) /\
  Inaccessible r <= Total (Links r).
Proof.
  unfold AnalyzeURL. intros H.
  repeat (case_match; try discriminate).
  match goal with
  | Hc : classifyLinks ?doc ?req = (_, _, ?links),
    Hk : checkLinksAccessibility _ ?links _ = Some _ |- _ =>
      pose proof (classifyLinks_counts doc req) as Hlen; rewrite Hc in Hlen;
      rewrite checkLinksAccessibility_positive in Hk by lia
  end.
  simplify_eq. simpl in *. split; [done|].
  rewrite <- Hlen. apply total_contributions_le.
Qed.

Lemma link_summary_invariants_witness :
  exists r,
    AnalyzeURL world_redirect "short.example" = (Some r, None) /\
    Total (Links r) = Internal (Links r) + External (Links r) /\
    Inaccessible r <= Total (Links r).
Proof.
  eexists. split; [vm_compute; reflexivity|].
  eapply (link_summary_invariants world_redirect "short.example" _ None).
  vm_compute. reflexivity.
Defined.

Lemma checkLinksAccessibility_cap_10 (client : Client) (links : list string) :
  is_Some (checkLinksAccessibility client links 10).
Proof. rewrite checkLinksAccessibility_positive by lia. eauto. Qed.

(** C7.  Every call returns either a result or an error, never both and
    never neither.  When the response that the fetch ends on has a status
    outside [200,400), the call returns no result and an error that holds
    that status and, as its message, the first 1024 bytes of the body at
    most, with the white space around them trimmed. *)
Theorem fetch_failure_status_and_message (w : World) (raw : string) :
  ((exists r, AnalyzeURL w raw = (Some r, None)) \/
   (exists e, AnalyzeURL w raw = (None, Some e))) /\
  (forall parsed req resp,
      normalizeURL raw = Ok parsed ->
      http_NewRequestWithContext MethodGet parsed = Ok req ->
      client_Do (transport w) 5 MethodGet req = DoResponse resp ->
      (StatusCode resp < 200 \/ 400 <= StatusCode resp)%Z ->
      let b := string_take 1024 (body_data (RespBody resp)) in
      body_data (RespBody resp) = b +:+ string_drop 1024 (body_data (RespBody resp)) /\
      String.length b <= 1024 /\
      String.length (strings_TrimSpace b) <= 1024 /\
      AnalyzeURL w raw
      = (None, Some (mkAnalyzeError (StatusCode resp)
                       (ErrMessage (strings_TrimSpace b))))).
Proof.
  split.
  - unfold AnalyzeURL.
    repeat (case_match; eauto).
    match goal with
    | H : checkLinksAccessibility ?c ?l _ = None |- _ =>
        destruct (checkLinksAccessibility_cap_10 c l) as [k Hk]; congruence
    end.
  - intros parsed req resp Hn Hreq Hdo Hst.
    intros b. subst b.
    split; [by rewrite string_take_drop|].
    pose proof (string_take_length 1024 (body_data (RespBody resp))) as Hlen.
    split; [done|]. split.
    { etrans; [apply strings_TrimSpace_length|done]. }
    unfold AnalyzeURL. rewrite Hn, Hreq, Hdo.
    assert ((StatusCode resp <? 200)%Z || (400 <=? StatusCode resp)%Z = true) as ->.
    { apply orb_true_iff. lia. }
    reflexivity.
Qed.

Lemma fetch_failure_status_and_message_witness :
  AnalyzeURL world_404 "example.com"
  = (None, Some (mkAnalyzeError 404 (ErrMessage "page not found"))).
Proof.
  destruct (fetch_failure_status_and_message world_404 "example.com") as [_ H].
  destruct (H "https://example.com"
              (mkURL "https" "" None "example.com" "" "" false false "" "" "")
              (mkResponse 404 "" (mkBody "  page not found  " false)
                 (mkURL "https" "" None "example.com" "" "" false false "" "" "")))
    as (_ & _ & _ & Hr);
    [reflexivity | reflexivity | reflexivity | simpl; lia |].
  rewrite Hr. reflexivity.
Defined.

(* ================================================================== *)
(** ** Documents and selectors *)
(* ================================================================== *)

(** Induction on a node with the hypothesis on every child. *)
Lemma Node_deep_ind (P : Node -> Prop) :
  (forall data attr children,
      Forall P children -> P (ElementNode data attr children)) ->
  (forall data, P (TextNode data)) ->
  (forall data, P (CommentNode data)) ->
  (forall data, P (DoctypeNode data)) ->
  forall n, P n.
Proof.
  intros He Ht Hc Hd. fix IH 1.
  intros [data attr children|d|d|d]; [|apply Ht|apply Hc|apply Hd].
  apply He. induction children as [|c cs IHcs]; constructor; [apply IH|exact IHcs].
Qed.

Lemma filter_flat_map {A B} (p : B -> bool) (f : A -> list B) (l : list A) :
  List.filter p (flat_map f l) = flat_map (fun x => List.filter p (f x)) l.
Proof.
  induction l as [|x l IH]; simpl; [done|].
  by rewrite List.filter_app, IH.
Qed.

Lemma flat_map_ext_Forall {A B} (f g : A -> list B) (l : list A) :
  Forall (fun x => f x = g x) l -> flat_map f l = flat_map g l.
Proof. induction 1; simpl; congruence. Qed.

(** [MatchAll] keeps the nodes of the subtree that match. *)
Lemma MatchAll_filter (sel : Selector) (n : Node) :
  MatchAll sel n = List.filter (selector_matches sel) (subtree n).
Proof.
  induction n as [data attr children IH|d|d|d] using Node_deep_ind;
    simpl; try by case_match.
  rewrite filter_flat_map, (flat_map_ext_Forall _ _ _ IH).
  by case_match.
Qed.

Lemma Find_in_filter (children : list Node) (sel : Selector) :
  Find_in children sel
  = List.filter (selector_matches sel) (flat_map subtree children).
Proof.
  unfold Find_in. rewrite filter_flat_map.
  apply flat_map_ext_Forall, Forall_forall. intros n _. apply MatchAll_filter.
Qed.

Lemma filter_ext_bool {A} (p q : A -> bool) (l : list A) :
  (forall x, p x = q x) -> List.filter p l = List.filter q l.
Proof. intros H. induction l as [|x l IH]; simpl; [done|]. by rewrite H, IH. Qed.

Lemma tag_selector_matches (tag : string) (n : Node) :
  selector_matches (sel_of_tag tag) n = bool_decide (is_element tag n).
Proof.
  unfold selector_matches, sel_of_tag, compound_matches, is_element. simpl.
  rewrite orb_false_r, andb_true_r.
  destruct n as [data attr children|d|d|d]; simpl; try done.
  destruct (String.eqb_spec data tag) as [->|Hne].
  - by rewrite bool_decide_eq_true_2.
  - rewrite bool_decide_eq_false_2; [done|]. congruence.
Qed.

Lemma doc_Find_tag (doc : Document) (tag : string) :
  doc_Find doc (sel_of_tag tag)
  = List.filter (fun n => bool_decide (is_element tag n)) (doc_nodes doc).
Proof.
  unfold doc_Find. rewrite Find_in_filter.
  apply filter_ext_bool, tag_selector_matches.
Qed.

(* ================================================================== *)
(** ** Heading counts *)
(* ================================================================== *)

Lemma countHeadings_unfold (doc : Document) :
  countHeadings doc
  = <[ "h6" := heading_count 6 doc ]>
      (<[ "h5" := heading_count 5 doc ]>
         (<[ "h4" := heading_count 4 doc ]>
            (<[ "h3" := heading_count 3 doc ]>
               (<[ "h2" := heading_count 2 doc ]>
                  (<[ "h1" := heading_count 1 doc ]>
                     ({[ "h1" := 0; "h2" := 0; "h3" := 0;
                         "h4" := 0; "h5" := 0; "h6" := 0 ]} : gmap string nat)))))).
Proof.
  unfold countHeadings, heading_count. cbn [seq fold_left].
  by rewrite !doc_Find_tag.
Qed.

(** C9.  The heading-count map holds the six keys h1 to h6 and no other,
    each with the number of heading elements of its level among all the
    nodes of the document; for the document of the test it is
    {h1:1, h2:2, h3:1, h4:0, h5:0, h6:0}. *)
Theorem heading_counts_fully_populated (doc : Document) :
  countHeadings doc
  = {[ "h1" := heading_count 1 doc; "h2" := heading_count 2 doc;
       "h3" := heading_count 3 doc; "h4" := heading_count 4 doc;
       "h5" := heading_count 5 doc; "h6" := heading_count 6 doc ]} /\
  dom (countHeadings doc) = ({[ "h1"; "h2"; "h3"; "h4"; "h5"; "h6" ]} : gset string) /\
  countHeadings headings_doc
  = {[ "h1" := 1; "h2" := 2; "h3" := 1; "h4" := 0; "h5" := 0; "h6" := 0 ]}.
Proof.
  assert (Heq : forall d, countHeadings d
    = {[ "h1" := heading_count 1 d; "h2" := heading_count 2 d;
         "h3" := heading_count 3 d; "h4" := heading_count 4 d;
         "h5" := heading_count 5 d; "h6" := heading_count 6 d ]}).
  { intros d. rewrite countHeadings_unfold. apply map_eq. intros k.
    destruct (decide (k = "h1")) as [->|]; [by simplify_map_eq|].
    destruct (decide (k = "h2")) as [->|]; [by simplify_map_eq|].
    destruct (decide (k = "h3")) as [->|]; [by simplify_map_eq|].
    destruct (decide (k = "h4")) as [->|]; [by simplify_map_eq|].
    destruct (decide (k = "h5")) as [->|]; [by simplify_map_eq|].
    destruct (decide (k = "h6")) as [->|]; [by simplify_map_eq|].
    by simplify_map_eq. }
  split_and!.
  - apply Heq.
  - rewrite Heq. rewrite !dom_insert_L, dom_singleton_L. set_solver.
  - rewrite Heq. reflexivity.
Qed.

(* ================================================================== *)
(** ** Login form *)
(* ================================================================== *)

Lemma elem_of_Find_in (children : list Node) (sel : Selector) (d : Node) :
  d ∈ Find_in children sel
  <-> d ∈ flat_map subtree children /\ selector_matches sel d = true.
Proof.
  rewrite Find_in_filter, !list_elem_of_In. apply filter_In.
Qed.

Lemma nonempty_length {A} (l : list A) :
  Nat.ltb 0 (length l) = true <-> exists x, x ∈ l.
Proof.
  destruct l as [|x l]; simpl.
  - split; [done|]. intros [x Hx]. by apply elem_of_nil in Hx.
  - split; [|done]. intros _. exists x. apply list_elem_of_here.
Qed.

Lemma found_in_form (f : Node) (sel : Selector) :
  Nat.ltb 0 (length (node_Find f sel)) = true
  <-> exists d, d ∈ descendants f /\ selector_matches sel d = true.
Proof.
  rewrite nonempty_length. unfold node_Find, descendants.
  split; intros [d Hd]; exists d; by apply elem_of_Find_in.
Qed.

Lemma typeSelector_spec (tag : string) (n : Node) :
  typeSelector tag n = true <-> is_element tag n.
Proof.
  unfold is_element. destruct n as [data attr children|d|d|d]; simpl;
    try (split; [done|intros; discriminate]).
  destruct (String.eqb_spec data tag); split; congruence.
Qed.

Lemma attribute_equals_spec (key val : string) (n : Node) :
  attributeSelector key (AttrEquals val) n = true <-> has_attribute n key val.
Proof.
  unfold has_attribute.
  destruct n as [data attr children|d|d|d]; simpl;
    try (split; [done|]; intros (a & Ha & _); by apply elem_of_nil in Ha).
  rewrite existsb_exists. split.
  - intros (a & Hin & Hm). apply andb_true_iff in Hm as [Hk Hv].
    apply String.eqb_eq in Hk, Hv. exists a. by rewrite list_elem_of_In.
  - intros (a & Hin & Hk & Hv). exists a. rewrite <- list_elem_of_In.
    split; [done|]. apply andb_true_iff. by rewrite !String.eqb_eq.
Qed.

Lemma attribute_substring_spec (key val : string) (n : Node) :
  is_empty (strings_TrimSpace val) = false ->
  attributeSelector key (AttrSubstring val) n = true <-> attribute_contains n key val.
Proof.
  intros Hval. unfold attribute_contains.
  destruct n as [data attr children|d|d|d]; simpl;
    try (split; [done|]; intros (a & Ha & _); by apply elem_of_nil in Ha).
  rewrite existsb_exists, Hval. split.
  - intros (a & Hin & Hm). apply andb_true_iff in Hm as [Hk Hv].
    apply String.eqb_eq in Hk. exists a. by rewrite list_elem_of_In.
  - intros (a & Hin & Hk & Hv). exists a. rewrite <- list_elem_of_In.
    split; [done|]. apply andb_true_iff. by rewrite String.eqb_eq.
Qed.

Lemma sel_password_spec (d : Node) :
  selector_matches sel_password d = true <-> password_input d.
Proof.
  unfold selector_matches, sel_password, compound_matches, password_input. simpl.
  rewrite orb_false_r, andb_true_r, andb_true_iff.
  by rewrite typeSelector_spec, attribute_equals_spec.
Qed.

Lemma sel_user_spec (d : Node) :
  selector_matches sel_user d = true <-> user_input d.
Proof.
  unfold selector_matches, sel_user, compound_matches, user_input. simpl.
  rewrite orb_false_r, !andb_true_r, !orb_true_iff, !andb_true_iff.
  rewrite typeSelector_spec, !attribute_equals_spec.
  rewrite !attribute_substring_spec by reflexivity. tauto.
Qed.

Lemma sel_submit_spec (d : Node) :
  selector_matches sel_submit d = true <-> submit_control d.
Proof.
  unfold selector_matches, sel_submit, compound_matches, submit_control. simpl.
  rewrite orb_false_r, !andb_true_r, !orb_true_iff, !andb_true_iff.
  by rewrite !typeSelector_spec, !attribute_equals_spec.
Qed.

Lemma exists_descendant_iff (f : Node) (P Q : Node -> Prop) :
  (forall d, P d <-> Q d) ->
  (exists d, d ∈ descendants f /\ P d) <-> (exists d, d ∈ descendants f /\ Q d).
Proof.
  intros H. split; intros (d & Hd & Hp); exists d; split; try done; by apply H.
Qed.

(** The closure of [hasLoginForm] accepts the login forms. *)
Lemma form_is_login_spec (f : Node) :
  form_is_login f = true <-> login_form f.
Proof.
  unfold form_is_login, login_form.
  rewrite <- (exists_descendant_iff f _ _ sel_password_spec).
  rewrite <- (exists_descendant_iff f _ _ sel_user_spec).
  rewrite <- (exists_descendant_iff f _ _ sel_submit_spec).
  rewrite <- !found_in_form.
  destruct (Nat.ltb 0 (length (node_Find f sel_password))); [tauto|].
  rewrite andb_true_iff. split; [tauto|]. intros [|]; [done|tauto].
Qed.

Lemma form_is_login_false (f : Node) :
  form_is_login f = false <-> ~ login_form f.
Proof.
  rewrite <- form_is_login_spec. by destruct (form_is_login f).
Qed.

(** The iteration stops on the first login form. *)
Lemma hasLoginForm_each_first (pre post : list Node) (f : Node) (found : bool) (k : nat) :
  Forall (fun g => ~ login_form g) pre ->
  login_form f ->
  hasLoginForm_each (pre ++ f :: post) found k = (true, S (length pre + k)).
Proof.
  intros Hpre Hf. revert k. induction Hpre as [|g pre Hg _ IH]; intros k; simpl.
  - apply form_is_login_spec in Hf. by rewrite Hf.
  - apply form_is_login_false in Hg. rewrite Hg, IH. f_equal. lia.
Qed.

Lemma hasLoginForm_each_none (forms : list Node) (found : bool) (k : nat) :
  Forall (fun g => ~ login_form g) forms ->
  hasLoginForm_each forms found k = (found, length forms + k).
Proof.
  intros H. revert k. induction H as [|g forms Hg _ IH]; intros k; simpl; [done|].
  apply form_is_login_false in Hg. rewrite Hg, IH. f_equal. lia.
Qed.

(** A list either has a first element with a decidable property, or none. *)
Lemma first_login_form (forms : list Node) :
  Forall (fun g => ~ login_form g) forms \/
  exists pre f post,
    forms = pre ++ f :: post /\ Forall (fun g => ~ login_form g) pre /\ login_form f.
Proof.
  induction forms as [|g forms IH]; [by left|].
  destruct (form_is_login g) eqn:Hg.
  - right. exists [], g, forms. split_and!; [done|done|by apply form_is_login_spec].
  - apply form_is_login_false in Hg. destruct IH as [IH|(pre & f & post & -> & Hpre & Hf)].
    + left. by constructor.
    + right. exists (g :: pre), f, post. split_and!; [done| by constructor |done].
Qed.

(** C6.  The detector goes through the form elements in document order
    and stops, with true, on the first one that holds a password input or
    holds both an input named username or email, or whose id contains
    user or email, and a submit button or submit input; the forms after
    it are not looked at.  When no form is such a form it visits them all
    and returns false. *)
Theorem login_form_first_match (doc : Document) :
  doc_Find doc (sel_of_tag "form") = forms_of doc /\
  (hasLoginForm doc = true <-> exists f, f ∈ forms_of doc /\ login_form f) /\
  (forall pre f post,
      forms_of doc = pre ++ f :: post ->
      Forall (fun g => ~ login_form g) pre ->
      login_form f ->
      hasLoginForm_each (forms_of doc) false 0 = (true, S (length pre))) /\
  (Forall (fun g => ~ login_form g) (forms_of doc) ->
   hasLoginForm_each (forms_of doc) false 0 = (false, length (forms_of doc))).
Proof.
  assert (Hforms : doc_Find doc (sel_of_tag "form") = forms_of doc)
    by apply doc_Find_tag.
  unfold hasLoginForm. rewrite Hforms. split_and!.
  - done.
  - destruct (first_login_form (forms_of doc))
      as [Hnone|(pre & f & post & Heq & Hpre & Hf)].
    + rewrite hasLoginForm_each_none by done. simpl. split; [done|].
      intros (f & Hin & Hf). rewrite Forall_forall in Hnone. by destruct (Hnone f Hin).
    + rewrite Heq, hasLoginForm_each_first by done. simpl. split; [|done].
      intros _. exists f. split; [|done]. set_solver.
  - intros pre f post Heq Hpre Hf.
    rewrite Heq, hasLoginForm_each_first by done. f_equal. f_equal. lia.
  - intros Hnone. rewrite hasLoginForm_each_none by done. f_equal. lia.
Qed.

Lemma login_form_first_match_witness :
  forms_of login_doc = [search_form] ++ password_form :: [email_form] /\
  Forall (fun g => ~ login_form g) [search_form] /\
  login_form password_form /\
  hasLoginForm_each (forms_of login_doc) false 0 = (true, 2).
Proof.
  assert (H1 : forms_of login_doc = [search_form] ++ password_form :: [email_form])
    by reflexivity.
  assert (H2 : Forall (fun g => ~ login_form g) [search_form]).
  { constructor; [|constructor]. apply form_is_login_false. reflexivity. }
  assert (H3 : login_form password_form).
  { apply form_is_login_spec. reflexivity. }
  split_and!; [exact H1 | exact H2 | exact H3 |].
  destruct (login_form_first_match login_doc) as (_ & _ & H & _).
  exact (H [search_form] password_form [email_form] H1 H2 H3).
Defined.

(* ================================================================== *)
(** ** Link classifier *)
(* ================================================================== *)

Lemma attribute_exists_spec (key : string) (n : Node) :
  attributeSelector key AttrExists n = true <-> carries_attribute n key.
Proof.
  unfold carries_attribute.
  destruct n as [data attr children|d|d|d]; simpl;
    try (split; [done|]; intros H; by apply Exists_nil in H).
  rewrite existsb_exists, Exists_exists. split.
  - intros (a & Hin & Hm). rewrite andb_true_r in Hm.
    apply String.eqb_eq in Hm. exists a. by rewrite list_elem_of_In.
  - intros (a & Hin & Hk). exists a. rewrite <- list_elem_of_In.
    split; [done|]. rewrite andb_true_r. by apply String.eqb_eq.
Qed.

Lemma doc_Find_anchors (doc : Document) :
  doc_Find doc sel_a_href = anchors_of doc.
Proof.
  unfold doc_Find, anchors_of. rewrite Find_in_filter.
  apply filter_ext_bool. intros n.
  unfold selector_matches, sel_a_href, compound_matches. simpl.
  rewrite orb_false_r, andb_true_r.
  apply eq_true_iff_eq.
  rewrite andb_true_iff, typeSelector_spec, attribute_exists_spec.
  by rewrite bool_decide_eq_true.
Qed.

(** One turn of the closure, by the link of the anchor. *)
Lemma classifyLinks_each_link (base : URL) (st : ClassifyState) (s : Node) :
  classifyLinks_each base st s
  = match link_of_anchor base s with
    | None => st
    | Some u =>
        if bool_decide (url_String u ∈ seen st) then st
        else if internal_link base u
        then mkClassifyState ({[ url_String u ]} ∪ seen st)
               (S (internal st)) (external st) (all st ++ [url_String u])
        else mkClassifyState ({[ url_String u ]} ∪ seen st)
               (internal st) (S (external st)) (all st ++ [url_String u])
    end.
Proof.
  unfold classifyLinks_each, link_of_anchor, href_skipped.
  destruct (is_empty _ || _ || _ || _); [done|].
  destruct (url_Parse _) as [u|e]; [|done].
  cbv beta iota. rewrite internal_link_sameHost.
  unfold url_IsAbs, emptied_Fragment_RawQuery.
  by destruct (is_empty (Scheme u)).
Qed.

Lemma omap_cons {A B} (f : A -> option B) (x : A) (l : list A) :
  omap f (x :: l)
  = match f x with Some y => y :: omap f l | None => omap f l end.
Proof. reflexivity. Qed.

Lemma classifyLinks_fold (base : URL) (anchors : list Node)
    (st : ClassifyState) (earlier : list string) :
  (forall k, k ∈ seen st <-> k ∈ earlier) ->
  let uniq := first_seen earlier (omap (link_of_anchor base) anchors) in
  let st' := fold_left (classifyLinks_each base) anchors st in
  internal st' = internal st + length (List.filter (internal_link base) uniq) /\
  external st'
  = external st + length (List.filter (fun u => negb (internal_link base u)) uniq) /\
  all st' = all st ++ map url_String uniq.
Proof.
  revert st earlier. induction anchors as [|s anchors IH]; intros st earlier Hseen.
  - simpl. rewrite app_nil_r. split_and!; [lia|lia|done].
  - cbn [fold_left]. rewrite omap_cons, classifyLinks_each_link.
    destruct (link_of_anchor base s) as [u|]; [|by apply IH].
    cbn [first_seen].
    rewrite (bool_decide_ext _ _ (Hseen (url_String u))).
    destruct (bool_decide (url_String u ∈ earlier)); [by apply IH|].
    destruct (internal_link base u) eqn:Hint.
    + edestruct (IH (mkClassifyState ({[ url_String u ]} ∪ seen st)
                       (S (internal st)) (external st) (all st ++ [url_String u]))
                    (url_String u :: earlier)) as (H1 & H2 & H3).
      { intros k. simpl. rewrite elem_of_union, elem_of_singleton, elem_of_cons, Hseen.
        done. }
      cbv zeta. rewrite H1, H2, H3. simpl. rewrite Hint. simpl.
      rewrite <- app_assoc. split_and!; [lia|done|done].
    + edestruct (IH (mkClassifyState ({[ url_String u ]} ∪ seen st)
                       (internal st) (S (external st)) (all st ++ [url_String u]))
                    (url_String u :: earlier)) as (H1 & H2 & H3).
      { intros k. simpl. rewrite elem_of_union, elem_of_singleton, elem_of_cons, Hseen.
        done. }
      cbv zeta. rewrite H1, H2, H3. simpl. rewrite Hint. simpl.
      rewrite <- app_assoc. split_and!; [done|lia|done].
Qed.


(** The loop of [classifyLinks] gives the split of the links that its
    closure holds. *)
Lemma classifyLinks_of_links (doc : Document) (base : URL) :
  classifyLinks doc base = classify_of_links doc base.
Proof.
  unfold classifyLinks, classify_of_links, classify_links.
  rewrite doc_Find_anchors.
  edestruct (classifyLinks_fold base (anchors_of doc) (mkClassifyState ∅ 0 0 []) [])
    as (H1 & H2 & H3).
  { intros k. simpl. set_solver. }
  cbv zeta in *. rewrite H1, H2, H3. done.
Qed.

(** C5, the code at a bare question mark.  The closure empties
    [Fragment] and [RawQuery] ("ignore query for classification") but
    leaves [ForceQuery], the mark of a query that is empty, so [String]
    writes the [?] of [/x?] into the key again.  [/x] and [/x?] are two
    links for the code, one link when fragment and query are stripped;
    in the code [/x#top] and [/x?q=1] share one key, [/x?] has a key of
    its own.  On the anchors of the test, which have no query, the code
    and the statement agree on two internal links, one external link and
    three links in all. *)
Theorem classifier_keeps_bare_question_mark :
  classifyLinks bare_query_doc example_base
  = (2, 0, ["https://example.com/x"; "https://example.com/x?"]) /\
  classify_as_stated bare_query_doc example_base
  = (1, 0, ["https://example.com/x"]) /\
  map ForceQuery (omap (link_of_anchor example_base) (anchors_of bare_query_doc))
  = [false; true] /\
  classifyLinks query_mark_doc example_base
  = (2, 0, ["https://example.com/x"; "https://example.com/x?"]) /\
  classify_as_stated query_mark_doc example_base
  = (1, 0, ["https://example.com/x"]) /\
  classifyLinks anchors_doc example_base
  = (2, 1, ["https://example.com/x"; "https://example.com/y"; "https://other.com/"]) /\
  classify_as_stated anchors_doc example_base
  = (2, 1, ["https://example.com/x"; "https://example.com/y"; "https://other.com/"]).
Proof.
  split_and!; vm_compute; reflexivity.
Qed.

(* ================================================================== *)
(** ** Facts on [net/url] *)
(* ================================================================== *)

Lemma append_assoc (a b c : string) : (a +:+ b) +:+ c = a +:+ (b +:+ c).
Proof.
  induction a as [|x a IH]; [done|]. rewrite !append_cons. by rewrite IH.
Qed.

Lemma append_nil_r (a : string) : a +:+ "" = a.
Proof. induction a as [|x a IH]; [done|]. rewrite append_cons. by rewrite IH. Qed.

Lemma is_empty_true (s : string) : is_empty s = true <-> s = "".
Proof. by destruct s. Qed.

Lemma is_empty_false (s : string) : is_empty s = false <-> s <> "".
Proof. by destruct s. Qed.

Lemma HasPrefix_app (s p : string) :
  strings_HasPrefix s p = true -> s = p +:+ string_drop (String.length p) s.
Proof.
  revert s. induction p as [|c p IH]; intros s H; simpl in *; [done|].
  destruct s as [|d s]; [done|]. apply andb_true_iff in H as [Hc Hp].
  apply Ascii.eqb_eq in Hc as ->. rewrite append_cons. f_equal. by apply IH.
Qed.

Lemma getScheme_https (x : string) :
  getScheme ("https://" +:+ x) = Ok ("https", "//" +:+ x).
Proof. reflexivity. Qed.

Lemma getScheme_http (x : string) :
  getScheme ("http://" +:+ x) = Ok ("http", "//" +:+ x).
Proof. reflexivity. Qed.

(** [setPath] and [setFragment] leave scheme and authority alone. *)
Lemma setPath_keeps (p : string) (u u' : URL) :
  setPath p u = Ok u' ->
  Scheme u' = Scheme u /\ Opaque u' = Opaque u /\ User u' = User u /\
  Host u' = Host u.
Proof.
  unfold setPath. intros H. destruct (unescape p encodePath); [|done].
  by destruct (String.eqb _ _); simplify_eq.
Qed.

Lemma setFragment_keeps (f : string) (u u' : URL) :
  setFragment f u = Ok u' ->
  Scheme u' = Scheme u /\ Opaque u' = Opaque u /\ User u' = User u /\
  Host u' = Host u.
Proof.
  unfold setFragment. intros H. destruct (unescape f encodeFragment); [|done].
  by destruct (String.eqb _ _); simplify_eq.
Qed.

(** What a successful [parse] went through. *)
Lemma parse_inv (s : string) (v : bool) (u : URL) :
  parse s v = Ok u ->
  stringContainsCTLByte s = false /\
  ((s = "*" /\ Scheme u = "" /\ Host u = "" /\ Opaque u = "") \/
   exists sch rest0 rest q fq,
     getScheme s = Ok (sch, rest0) /\
     split_query rest0 = (rest, q, fq) /\
     Scheme u = strings_ToLower sch /\
     ((strings_HasPrefix rest "/" = false /\ Host u = "" /\ Opaque u = rest) \/
      (exists user host omit rest',
          split_authority (strings_ToLower sch) rest v = Ok (user, host, omit, rest') /\
          User u = user /\ Host u = host /\ Opaque u = ""))).
Proof.
  unfold parse. intros H.
  destruct (stringContainsCTLByte s); [done|]. split; [done|].
  destruct (is_empty s && v); [done|].
  destruct (String.eqb_spec s "*") as [->|Hstar]; [left; by simplify_eq|]. right.
  destruct (getScheme s) as [[sch rest0]|e]; [|done].
  destruct (split_query rest0) as [[rest q] fq] eqn:Hq.
  exists sch, rest0, rest, q, fq. split_and!; try done.
  - destruct (negb (strings_HasPrefix rest "/") && negb (is_empty (strings_ToLower sch)));
      [by simplify_eq|].
    destruct (negb (strings_HasPrefix rest "/") && v); [done|].
    destruct (negb (strings_HasPrefix rest "/") && strings_Contains _ _); [done|].
    destruct (split_authority _ _ _) as [[[[user host] omit] rest']|e]; [|done].
    by apply setPath_keeps in H as (-> & _).
  - destruct (negb (strings_HasPrefix rest "/") && negb (is_empty (strings_ToLower sch)))
      eqn:Hop.
    { left. apply andb_true_iff in Hop as [Hp _]. apply negb_true_iff in Hp.
      by simplify_eq. }
    right.
    destruct (negb (strings_HasPrefix rest "/") && v); [done|].
    destruct (negb (strings_HasPrefix rest "/") && strings_Contains _ _); [done|].
    destruct (split_authority _ _ _) as [[[[user host] omit] rest']|e]; [|done].
    exists user, host, omit, rest'. split; [done|].
    by apply setPath_keeps in H as (_ & -> & -> & ->).
Qed.

Lemma url_Parse_inv (s : string) (u : URL) :
  url_Parse s = Ok u ->
  exists u1,
    parse (strings_Cut s "#").1.1 false = Ok u1 /\
    Scheme u = Scheme u1 /\ Opaque u = Opaque u1 /\ User u = User u1 /\
    Host u = Host u1.
Proof.
  unfold url_Parse. destruct (strings_Cut s "#") as [[s0 frag] found]. simpl.
  destruct (parse s0 false) as [u1|e]; [|done].
  destruct (is_empty frag).
  - intros [= ->]. by exists u.
  - intros H. exists u1. by apply setFragment_keeps in H.
Qed.

(** A cut keeps what stands before the first separator. *)
Lemma strings_Cut_app_free (p s : string) (sep : ascii) :
  strings_CountByte p sep = 0 ->
  strings_Cut (p +:+ s) sep
  = (p +:+ (strings_Cut s sep).1.1, (strings_Cut s sep).1.2, (strings_Cut s sep).2).
Proof.
  induction p as [|c p IH]; intros H.
  - rewrite !append_nil_l. by destruct (strings_Cut s sep) as [[b a] f].
  - rewrite !append_cons. simpl in *. destruct (Ascii.eqb c sep); [done|].
    rewrite IH by done. by destruct (strings_Cut s sep) as [[b a] f].
Qed.

Ltac norm_append :=
  repeat progress
    (rewrite ?append_assoc, ?append_cons, ?append_nil_l, ?append_nil_r).

Lemma url_String_absolute (u : URL) :
  Scheme u <> "" -> Opaque u = "" -> Host u <> "" ->
  url_String u
  = Scheme u +:+ "://" +:+ authority_text u +:+ after_authority_text u.
Proof.
  intros Hs Ho Hh. unfold url_String, url_String_authority, authority_text,
    after_authority_text.
  apply is_empty_false in Hh. rewrite Ho, Hh.
  destruct (Scheme u) as [|c sch]; [done|]. clear Hs.
  rewrite !andb_false_r.
  set (rooted := strings_HasPrefix (url_EscapedPath u) "/"). clearbody rooted.
  simpl.
  destruct (negb (is_empty (url_EscapedPath u)) && negb rooted); simpl;
    norm_append; simpl;
    destruct (ForceQuery u || negb (is_empty (RawQuery u)));
    destruct (negb (is_empty (Fragment u)));
    norm_append; reflexivity.
Qed.


Lemma escape_nonempty (s : string) (mode : encoding) :
  s <> "" -> escape s mode <> "".
Proof.
  destruct s as [|c s]; [done|]. intros _. simpl.
  by repeat case_match.
Qed.

(** A parsed URL with a host has no opaque part. *)
Lemma url_Parse_host_not_opaque (s : string) (u : URL) :
  url_Parse s = Ok u -> Host u <> "" -> Opaque u = "".
Proof.
  intros H Hh. apply url_Parse_inv in H as (u1 & Hp & _ & -> & _ & Hhost).
  rewrite Hhost in Hh.
  apply parse_inv in Hp as (_ & [(_ & _ & ? & ?)|(sch & rest0 & rest & q & fq & _ & _ & _ & Hc)]);
    [done|].
  destruct Hc as [(_ & ? & _)|(user & host & omit & rest' & _ & _ & _ & ?)]; done.
Qed.

(** The scheme of what is parsed from a text with a literal prefix. *)
Lemma url_Parse_scheme_of_prefix (p sch x : string) (u : URL) :
  strings_CountByte p "#" = 0 ->
  (forall y, getScheme (p +:+ y) = Ok (sch, "//" +:+ y)) ->
  (forall y, p +:+ y <> "*") ->
  url_Parse (p +:+ x) = Ok u ->
  Scheme u = strings_ToLower sch.
Proof.
  intros Hfree Hsch Hstar H.
  apply url_Parse_inv in H as (u1 & Hp & -> & _).
  rewrite strings_Cut_app_free in Hp by done. simpl in Hp.
  apply parse_inv in Hp as (_ & [(Hs & _)|(sch' & rest0 & rest & q & fq & Hg & _ & Hs & _)]).
  - by apply Hstar in Hs.
  - rewrite Hsch in Hg. by simplify_eq.
Qed.

Lemma with_default_scheme_parsed (trimmed : string) (u : URL) :
  url_Parse (with_default_scheme trimmed) = Ok u ->
  Scheme u = "http" \/ Scheme u = "https".
Proof.
  unfold with_default_scheme.
  destruct (strings_HasPrefix trimmed "http://") eqn:Hhttp; cbn [orb].
  - intros H. left. apply HasPrefix_app in Hhttp. rewrite Hhttp in H.
    by apply (url_Parse_scheme_of_prefix "http://" "http") in H.
  - destruct (strings_HasPrefix trimmed "https://") eqn:Hhttps; intros H; right.
    + apply HasPrefix_app in Hhttps. rewrite Hhttps in H.
      by apply (url_Parse_scheme_of_prefix "https://" "https") in H.
    + by apply (url_Parse_scheme_of_prefix "https://" "https") in H.
Qed.

(* ================================================================== *)
(** ** URL normalizer *)
(* ================================================================== *)

Lemma normalizeURL_unfold (raw : string) :
  normalizeURL raw
  = if is_empty (strings_TrimSpace raw) then Err ErrEmptyURLInput
    else match url_Parse (with_default_scheme (strings_TrimSpace raw)) with
         | Err e => Err (ErrURL e)
         | Ok u => if is_empty (Host u) then Err ErrMissingHost
                   else Ok (url_String u)
         end.
Proof.
  unfold normalizeURL, with_default_scheme.
  by destruct (strings_HasPrefix (strings_TrimSpace raw) "http://"),
              (strings_HasPrefix (strings_TrimSpace raw) "https://").
Qed.

(** C4 (as amended).  The normalizer trims the input and fails when
    nothing is left; it puts [https://] before a text that starts with
    neither [http://] nor [https://]; it fails when the parser fails on
    the result or finds an empty authority, the [Host] field that holds
    the host name and the port; otherwise it returns the URL as a string,
    which starts with the scheme [http] or [https], [://] and that
    non-empty authority.  On [example.com] it gives a URL with the host
    [example.com]; on the empty string and on [http://] it fails; on
    [:80], a port without a host name, it gives [https://:80]. *)
Theorem normalizeURL_contract (raw : string) :
  let trimmed := strings_TrimSpace raw in
  (trimmed = "" -> normalizeURL raw = Err ErrEmptyURLInput) /\
  (trimmed <> "" ->
   match url_Parse (with_default_scheme trimmed) with
   | Err e => normalizeURL raw = Err (ErrURL e)
   | Ok u =>
       if is_empty (Host u) then normalizeURL raw = Err ErrMissingHost
       else
         normalizeURL raw = Ok (url_String u) /\
         (Scheme u = "http" \/ Scheme u = "https") /\
         escape (Host u) encodeHost <> "" /\
         url_String u
         = Scheme u +:+ "://" +:+ authority_text u +:+ after_authority_text u
   end) /\
  normalizeURL "example.com" = Ok "https://example.com" /\
  (exists u, url_Parse "https://example.com" = Ok u /\ Host u = "example.com") /\
  normalizeURL "" = Err ErrEmptyURLInput /\
  normalizeURL "http://" = Err ErrMissingHost /\
  normalizeURL ":80" = Ok "https://:80".
Proof.
  intros trimmed. split_and!; try reflexivity.
  - intros Ht. unfold normalizeURL. fold trimmed. by rewrite Ht.
  - intros Ht. unfold normalizeURL. fold trimmed.
    apply is_empty_false in Ht. rewrite Ht.
    assert (Hcand : (if negb (strings_HasPrefix trimmed "http://")
                        && negb (strings_HasPrefix trimmed "https://")
                     then "https://" +:+ trimmed else trimmed)
                    = with_default_scheme trimmed).
    { unfold with_default_scheme.
      by destruct (strings_HasPrefix trimmed "http://"),
                  (strings_HasPrefix trimmed "https://"). }
    rewrite Hcand.
    destruct (url_Parse (with_default_scheme trimmed)) as [u|e] eqn:Hp; [|done].
    destruct (is_empty (Host u)) eqn:Hh; [done|].
    apply is_empty_false in Hh.
    pose proof (with_default_scheme_parsed _ _ Hp) as Hs.
    split_and!; [done|done|by apply escape_nonempty|].
    apply url_String_absolute; [|by eapply url_Parse_host_not_opaque|done].
    by destruct Hs as [->| ->].
  - eexists. split; reflexivity.
Qed.

Lemma normalizeURL_contract_witness :
  strings_TrimSpace "  Example.com/a b " <> "" /\
  normalizeURL "  Example.com/a b " = Ok "https://Example.com/a%20b".
Proof.
  split; [done|].
  destruct (normalizeURL_contract "  Example.com/a b ") as (_ & H & _).
  assert (Ht : strings_TrimSpace "  Example.com/a b " <> "") by done.
  specialize (H Ht). vm_compute in H. by destruct H as [H _].
Defined.

(** C4, counterexample.  For the input [:80] the parser is given
    [https://:80] and finds the authority [:80]: the host name is empty,
    the [Host] field is not, and the normalizer returns [https://:80]. *)
Lemma empty_host_name_counterexample :
  ~ empty_host_fails_as_stated ":80" /\
  normalizeURL ":80" = Ok "https://:80" /\
  (exists u,
      url_Parse (with_default_scheme (strings_TrimSpace ":80")) = Ok u /\
      Host u = ":80" /\ url_Hostname u = "").
Proof.
  split_and!.
  - intros H. edestruct H as [e He]; [reflexivity..|].
    vm_compute in He. discriminate.
  - reflexivity.
  - eexists. split_and!; reflexivity.
Qed.

(* ================================================================== *)
(** ** Schemes in upper case *)
(* ================================================================== *)

Lemma letter_bytes (c : ascii) :
  is_lower c || is_upper c = true ->
  Ascii.eqb c "%" = false /\ Ascii.eqb c "+" = false /\ Ascii.eqb c "/" = false /\
  Ascii.eqb c "?" = false /\ Ascii.eqb c "#" = false /\ Ascii.eqb c ":" = false /\
  Ascii.eqb c "@" = false /\ Ascii.eqb c "[" = false /\
  shouldEscape c encodeHost = false.
Proof.
  destruct c as [[] [] [] [] [] [] [] []]; intros H; try discriminate H;
    vm_compute; done.
Qed.

Lemma length_append (a b : string) :
  String.length (a +:+ b) = String.length a + String.length b.
Proof.
  induction a as [|c a IH]; [done|]. rewrite append_cons. simpl. by rewrite IH.
Qed.

Lemma string_take_app (p s : string) (k : nat) :
  string_take (String.length p + k) (p +:+ s) = p +:+ string_take k s.
Proof.
  induction p as [|c p IH]; [done|]. rewrite !append_cons. simpl. by rewrite IH.
Qed.

Lemma string_drop_app (p s : string) :
  string_drop (String.length p) (p +:+ s) = s.
Proof. induction p as [|c p IH]; [by destruct s|]. by rewrite append_cons. Qed.

Lemma string_take_app_exact (p s : string) :
  string_take (String.length p) (p +:+ s) = p.
Proof.
  rewrite <- (Nat.add_0_r (String.length p)), string_take_app.
  destruct s; apply append_nil_r.
Qed.

Lemma CountByte_app (a b : string) (c : ascii) :
  strings_CountByte (a +:+ b) c = strings_CountByte a c + strings_CountByte b c.
Proof.
  induction a as [|x a IH]; [done|]. rewrite append_cons. simpl. rewrite IH. lia.
Qed.

Lemma CountByte_letters (s : string) (c : ascii) :
  all_letters s = true -> is_lower c || is_upper c = false ->
  strings_CountByte s c = 0.
Proof.
  intros Hs Hc. induction s as [|x s IH]; [done|]. simpl in *.
  apply andb_true_iff in Hs as [Hx Hs]. rewrite IH by done.
  destruct (Ascii.eqb_spec x c) as [->|]; [congruence|done].
Qed.

Lemma IndexByte_app_free (p x : string) (c : ascii) :
  strings_CountByte p c = 0 ->
  strings_IndexByte (p +:+ String c x) c = Some (String.length p).
Proof.
  induction p as [|d p IH]; intros H.
  - rewrite append_nil_l. simpl. by rewrite Ascii.eqb_refl.
  - rewrite append_cons. simpl in *. destruct (Ascii.eqb d c); [done|].
    by rewrite IH.
Qed.

Lemma LastIndexByte_free (s : string) (c : ascii) :
  strings_CountByte s c = 0 -> strings_LastIndexByte s c = None.
Proof.
  induction s as [|d s IH]; intros H; [done|]. simpl in *.
  destruct (Ascii.eqb d c); [done|]. by rewrite IH.
Qed.

Lemma LastIndexByte_app_last (p : string) (c : ascii) :
  strings_LastIndexByte (p +:+ String c "") c = Some (String.length p).
Proof.
  induction p as [|d p IH].
  - rewrite append_nil_l. simpl. by rewrite Ascii.eqb_refl.
  - rewrite append_cons. simpl. by rewrite IH.
Qed.

(** The split at the query keeps a prefix that holds no question mark. *)
Lemma split_query_keeps_prefix (p s : string) :
  strings_CountByte p "?" = 0 ->
  exists r, (split_query (p +:+ s)).1.1 = p +:+ r.
Proof.
  intros Hp. unfold split_query.
  destruct (strings_HasSuffix (p +:+ s) "?"
            && Nat.eqb (strings_CountByte (p +:+ s) "?") 1) eqn:Hc.
  - apply andb_true_iff in Hc as [_ Hc]. apply Nat.eqb_eq in Hc.
    rewrite CountByte_app, Hp in Hc.
    destruct s as [|c s]; [done|]. simpl.
    exists (string_take (String.length s) (String c s)).
    rewrite length_append. simpl.
    replace (String.length p + S (String.length s) - 1)
      with (String.length p + String.length s) by lia.
    apply string_take_app.
  - rewrite strings_Cut_app_free by done. simpl. eauto.
Qed.

Lemma unescape_check_letters (s : string) :
  all_letters s = true -> unescape_check (s +:+ ":") encodeHost = None.
Proof.
  induction s as [|c s IH]; intros H; [done|]. rewrite append_cons.
  simpl in H. apply andb_true_iff in H as [Hc Hs].
  destruct (letter_bytes c Hc) as (H1 & H2 & _ & _ & _ & _ & _ & _ & H9).
  simpl. rewrite H1, H2, H9, andb_false_r. by apply IH.
Qed.

Lemma unescape_decode_letters (s : string) (mode : encoding) :
  all_letters s = true -> unescape_decode (s +:+ ":") mode = s +:+ ":".
Proof.
  induction s as [|c s IH]; intros H; [done|]. rewrite append_cons.
  simpl in H. apply andb_true_iff in H as [Hc Hs].
  destruct (letter_bytes c Hc) as (H1 & H2 & _).
  simpl. rewrite H1, H2. f_equal. by apply IH.
Qed.

Lemma HasPrefix_letters_bracket (s x : string) :
  all_letters s = true -> strings_HasPrefix (s +:+ ":" +:+ x) "[" = false.
Proof.
  destruct s as [|c s]; [done|]. rewrite append_cons. simpl.
  intros H. apply andb_true_iff in H as [Hc _].
  destruct (letter_bytes c Hc) as (_ & _ & _ & _ & _ & _ & _ & H8 & _).
  by rewrite H8.
Qed.

Lemma parseHost_letters (s : string) :
  all_letters s = true -> parseHost (s +:+ ":") = Ok (s +:+ ":").
Proof.
  intros H. unfold parseHost.
  pose proof (HasPrefix_letters_bracket s "" H) as Hb. rewrite append_nil_r in Hb.
  rewrite Hb, LastIndexByte_app_last, string_drop_app. simpl.
  unfold unescape. by rewrite unescape_check_letters, unescape_decode_letters.
Qed.

Lemma parseAuthority_letters (s : string) :
  all_letters s = true -> parseAuthority (s +:+ ":") = Ok (None, s +:+ ":").
Proof.
  intros H. unfold parseAuthority.
  rewrite LastIndexByte_free, parseHost_letters; [done|done|].
  rewrite CountByte_app, (CountByte_letters s) by done. reflexivity.
Qed.

Lemma Hostname_letters (s : string) :
  all_letters s = true -> splitHostPort_host (s +:+ ":") = s.
Proof.
  intros H. unfold splitHostPort_host.
  rewrite LastIndexByte_app_last, string_drop_app, string_take_app_exact. simpl.
  destruct s as [|c s]; [done|]. simpl in H. apply andb_true_iff in H as [Hc _].
  destruct (letter_bytes c Hc) as (_ & _ & _ & _ & _ & _ & _ & H8 & _).
  simpl. by rewrite H8.
Qed.

(** The URL parsed from [https://S://rest], for letters [S]: its host is
    [S] with the colon. *)
Lemma url_Parse_scheme_as_host (S rest : string) (u : URL) :
  all_letters S = true ->
  url_Parse ("https://" +:+ S +:+ "://" +:+ rest) = Ok u ->
  Scheme u = "https" /\ Host u = S +:+ ":" /\ url_Hostname u = S.
Proof.
  intros HS H.
  assert (Hfree : forall c, is_lower c || is_upper c = false ->
                    Ascii.eqb ":" c = false -> Ascii.eqb "/" c = false ->
                    strings_CountByte (S +:+ "://") c = 0).
  { intros c Hc H1 H2. rewrite CountByte_app, (CountByte_letters S) by done.
    cbn [strings_CountByte]. by rewrite H1, H2. }
  assert (Hhost : Scheme u = "https" /\ Host u = S +:+ ":");
    [|destruct Hhost as [? Hh]; split_and!; try done;
      unfold url_Hostname; rewrite Hh; by apply Hostname_letters].
  apply url_Parse_inv in H as (u1 & Hp & -> & _ & _ & ->).
  replace ("https://" +:+ S +:+ "://" +:+ rest)
    with (("https://" +:+ S +:+ "://") +:+ rest) in Hp
    by (by rewrite !append_assoc).
  rewrite strings_Cut_app_free in Hp
    by (rewrite CountByte_app; rewrite Hfree; done).
  simpl in Hp. set (b := (strings_Cut rest "#").1.1) in Hp.
  rewrite !append_assoc in Hp.
  apply parse_inv in Hp
    as (_ & [(Hs & _)|(sch & rest0 & rest1 & q & fq & Hg & Hq & Hsch & Hc)]);
    [done|].
  rewrite getScheme_https in Hg. simplify_eq.
  destruct (split_query_keeps_prefix ("//" +:+ S +:+ "://") b) as [r Hr].
  { rewrite CountByte_app. rewrite Hfree; done. }
  rewrite !append_assoc in Hr. rewrite Hq in Hr. simpl in Hr. subst rest1.
  split; [done|].
  destruct Hc as [(Hpre & _)|(user & host & omit & rest' & Ha & _ & -> & _)];
    [done|].
  unfold split_authority in Ha. rewrite ?append_cons, ?append_nil_l in Ha.
  simpl in Ha.
  replace (S +:+ String ":" (String "/" (String "/" r)))
    with ((S +:+ ":") +:+ String "/" (String "/" r)) in Ha
    by (by rewrite append_assoc).
  rewrite IndexByte_app_free in Ha.
  - rewrite string_take_app_exact, string_drop_app, parseAuthority_letters in Ha by done.
    by simplify_eq.
  - rewrite CountByte_app, (CountByte_letters S) by done. reflexivity.
Qed.


Lemma literal_prefix_letters (S lit rest : string) :
  all_letters S = true -> all_letters lit = true ->
  strings_HasPrefix (S +:+ "://" +:+ rest) (lit +:+ "://") = true ->
  S = lit.
Proof.
  revert lit. induction S as [|c S IH]; intros [|l lit] HS Hlit H;
    rewrite ?append_cons, ?append_nil_l in H; cbn [strings_HasPrefix] in H.
  - done.
  - apply andb_true_iff in H as [H _]. apply Ascii.eqb_eq in H as <-.
    simpl in Hlit. done.
  - apply andb_true_iff in H as [H _]. apply Ascii.eqb_eq in H as ->.
    simpl in HS. done.
  - apply andb_true_iff in H as [Hc H]. apply Ascii.eqb_eq in Hc as ->.
    simpl in HS, Hlit. apply andb_true_iff in HS as [_ HS].
    apply andb_true_iff in Hlit as [_ Hlit]. f_equal. by apply IH.
Qed.

Lemma upper_case_scheme_no_literal_prefix (S rest : string) :
  all_letters S = true -> has_upper S = true ->
  with_default_scheme (S +:+ "://" +:+ rest) = "https://" +:+ S +:+ "://" +:+ rest.
Proof.
  intros HS Hup. unfold with_default_scheme.
  destruct (strings_HasPrefix (S +:+ "://" +:+ rest) "http://") eqn:H1.
  { apply (literal_prefix_letters S "http" rest) in H1; [|done..]. by subst S. }
  destruct (strings_HasPrefix (S +:+ "://" +:+ rest) "https://") eqn:H2.
  { apply (literal_prefix_letters S "https" rest) in H2; [|done..]. by subst S. }
  done.
Qed.

(** C10 (as amended).  The check for the scheme compares bytes: an input
    that reads [S://rest], with [S] of letters of which one at least is
    upper case, gets [https://] put before it all the same.  When the
    normalizer then succeeds, the host of the URL it returns is [S]
    followed by a colon, its host name is [S]: for [HTTP://example.com]
    the host is [HTTP:], not [example.com]. *)
Theorem upper_case_scheme_becomes_host (raw S rest : string) :
  strings_TrimSpace raw = S +:+ "://" +:+ rest ->
  all_letters S = true ->
  has_upper S = true ->
  with_default_scheme (strings_TrimSpace raw) = "https://" +:+ S +:+ "://" +:+ rest /\
  match url_Parse ("https://" +:+ S +:+ "://" +:+ rest) with
  | Err e => normalizeURL raw = Err (ErrURL e)
  | Ok u =>
      normalizeURL raw = Ok (url_String u) /\
      Scheme u = "https" /\ Host u = S +:+ ":" /\ url_Hostname u = S
  end /\
  normalizeURL "HTTP://example.com" = Ok "https://HTTP://example.com" /\
  exists u, url_Parse "https://HTTP://example.com" = Ok u /\
            Host u = "HTTP:" /\ url_Hostname u = "HTTP" /\
            url_Hostname u <> "example.com".
Proof.
  intros Ht HS Hup.
  pose proof (upper_case_scheme_no_literal_prefix S rest HS Hup) as Hcand.
  split_and!.
  - by rewrite Ht.
  - pose proof (normalizeURL_unfold raw) as Hn. rewrite Ht, Hcand in Hn.
    assert (is_empty (S +:+ "://" +:+ rest) = false) as Hne.
    { destruct S; [done|]. by rewrite append_cons. }
    rewrite Hne in Hn.
    destruct (url_Parse ("https://" +:+ S +:+ "://" +:+ rest)) as [u|e] eqn:Hp;
      [|done].
    destruct (url_Parse_scheme_as_host S rest u HS Hp) as (Hs & Hh & Hn').
    split_and!; try done.
    rewrite Hn, Hh. destruct S; [done|]. by rewrite append_cons.
  - reflexivity.
  - eexists. split; [reflexivity|]. split_and!; done.
Qed.

Lemma upper_case_scheme_becomes_host_witness :
  strings_TrimSpace " Https://example.com/docs " = "Https" +:+ "://" +:+ "example.com/docs" /\
  all_letters "Https" = true /\
  has_upper "Https" = true /\
  normalizeURL " Https://example.com/docs " = Ok "https://Https://example.com/docs".
Proof.
  assert (H1 : strings_TrimSpace " Https://example.com/docs "
               = "Https" +:+ "://" +:+ "example.com/docs") by reflexivity.
  assert (H2 : all_letters "Https" = true) by reflexivity.
  assert (H3 : has_upper "Https" = true) by reflexivity.
  split_and!; [exact H1 | exact H2 | exact H3 |].
  destruct (upper_case_scheme_becomes_host " Https://example.com/docs "
              "Https" "example.com/docs" H1 H2 H3) as (_ & H & _).
  vm_compute in H. by destruct H as [H _].
Defined.

(** C10, counterexample.  The input [HTTP://HTTP:] names the host [HTTP:],
    and that is the host of the URL that the normalizer returns for it. *)
Lemma upper_case_scheme_same_host_counterexample :
  ~ host_replaced_as_stated "HTTP://HTTP:" /\
  normalizeURL "HTTP://HTTP:" = Ok "https://HTTP://HTTP:" /\
  (exists u_out u_in,
      url_Parse "https://HTTP://HTTP:" = Ok u_out /\
      url_Parse "HTTP://HTTP:" = Ok u_in /\
      Host u_out = "HTTP:" /\ Host u_in = "HTTP:" /\
      url_Hostname u_out = "HTTP" /\ url_Hostname u_in = "HTTP").
Proof.
  split_and!.
  - intros H. edestruct H as [Hh|Hh]; [reflexivity..| |];
      vm_compute in Hh; by apply Hh.
  - reflexivity.
  - do 2 eexists. split_and!; reflexivity.
Qed.

(* ================================================================== *)
(** ** The base URL of the classification *)
(* ================================================================== *)

(** What a result of [AnalyzeURL] was computed from.  The links are
    classified against [req], the URL of the request built from the
    input, whatever request the response [resp] answers. *)
Lemma AnalyzeURL_result_inv
    (w : World) (raw : string) (r : AnalyzeResult) (e : option AnalyzeError) :
  AnalyzeURL w raw = (Some r, e) ->
  exists parsed req resp body doc,
    normalizeURL raw = Ok parsed /\
    http_NewRequestWithContext MethodGet parsed = Ok req /\
    client_Do (transport w) 5 MethodGet req = DoResponse resp /\
    status_ok (StatusCode resp) = true /\
    io_ReadAll (RespBody resp) = Some body /\
    html_Parse w body = Some doc /\
    (Internal (Links r), External (Links r)) = (classifyLinks doc req).1 /\
    checkLinksAccessibility (client_Do (transport w) 10) (classifyLinks doc req).2 10
    = Some (Inaccessible r) /\
    Headings r = countHeadings doc /\
    HasLoginForm r = hasLoginForm doc /\
    HTMLVersion r = detectHTMLVersion doc /\
    e = None.
Proof.
  unfold AnalyzeURL. intros H.
  destruct (normalizeURL raw) as [parsed|] eqn:Hn; [|done].
  destruct (http_NewRequestWithContext MethodGet parsed) as [req|] eqn:Hreq; [|done].
  destruct (client_Do (transport w) 5 MethodGet req) as [|resp] eqn:Hdo; [done|].
  destruct ((StatusCode resp <? 200)%Z || (400 <=? StatusCode resp)%Z) eqn:Hst;
    [done|].
  destruct (io_ReadAll (RespBody resp)) as [body|] eqn:Hbody; [|done].
  destruct (html_Parse w body) as [doc|] eqn:Hdoc; [|done].
  destruct (classifyLinks doc req) as [[i x] links] eqn:Hc.
  destruct (checkLinksAccessibility _ links 10) as [n|] eqn:Hk; [|done].
  exists parsed, req, resp, body, doc. simplify_eq.
  cbn [Links Internal External Inaccessible Headings HasLoginForm HTMLVersion].
  rewrite Hc. split_and!; try done.
  apply orb_false_iff in Hst as [H1 H2]. unfold status_ok.
  apply andb_true_iff. lia.
Qed.

(** C1, the code at a redirect.  [short.example] redirects to
    [https://www.example.org/docs/page].  The response answers the request
    for that page, but the links of the page are classified against the
    URL of the first request, [https://short.example]: the relative link
    [next] becomes [https://short.example/next], which does not exist, and
    the link to [/about] on the host of the page counts as external.
    Against the URL of the page there are two internal links and both
    can be reached. *)
Theorem redirect_base_is_request_url :
  exists resp r,
    http_NewRequestWithContext MethodGet "https://short.example" = Ok short_req /\
    client_Do (transport world_redirect) 5 MethodGet short_req = DoResponse resp /\
    Request_URL resp = final_url /\
    Request_URL resp <> short_req /\
    AnalyzeURL world_redirect "short.example" = (Some r, None) /\
    Links r = mkLinkSummary 1 1 2 /\
    Inaccessible r = 1 /\
    classifyLinks page_doc short_req
    = (1, 1, ["https://short.example/next"; "https://www.example.org/about"]) /\
    classifyLinks page_doc (Request_URL resp)
    = (2, 0, ["https://www.example.org/docs/next"; "https://www.example.org/about"]) /\
    checkLinksAccessibility (client_Do (transport world_redirect) 10)
      (classifyLinks page_doc (Request_URL resp)).2 10 = Some 0.
Proof.
  do 2 eexists. split_and!.
  - reflexivity.
  - vm_compute. reflexivity.
  - reflexivity.
  - simpl. discriminate.
  - vm_compute. reflexivity.
  - reflexivity.
  - reflexivity.
  - reflexivity.
  - reflexivity.
  - reflexivity.
Qed.

(* ================================================================== *)
(** ** Doctype label *)
(* ================================================================== *)

Lemma detectHTMLVersion_loop_cases (children : list Node) :
  (detectHTMLVersion_loop children = "HTML5 (with doctype)" /\
   exists data, DoctypeNode data ∈ children) \/
  (detectHTMLVersion_loop children = "Unknown (no doctype)" /\
   ~ exists data, DoctypeNode data ∈ children).
Proof.
  induction children as [|n children IH].
  - right. split; [done|]. intros [d Hd]. by apply elem_of_nil in Hd.
  - destruct n as [t a cs|d|d|d]; simpl.
    4: { left. split; [done|]. exists d. apply list_elem_of_here. }
    all: destruct IH as [[-> [d' Hd']]|[-> Hno]];
      [left; split; [done|]; exists d'; by apply list_elem_of_further
      |right; split; [done|]; intros [d' Hd'];
       apply elem_of_cons in Hd' as [Hd'|Hd']; [done|]; apply Hno; eauto].
Qed.

(** X1.  The version label is ["HTML5 (with doctype)"] exactly when a
    doctype stands among the children of the document node, and
    ["Unknown (no doctype)"] exactly when none does; there is no third
    label. *)
Theorem detectHTMLVersion_label (root : Document) :
  (detectHTMLVersion root = "HTML5 (with doctype)" <-> has_doctype root) /\
  (detectHTMLVersion root = "Unknown (no doctype)" <-> ~ has_doctype root).
Proof.
  unfold detectHTMLVersion, has_doctype.
  destruct (detectHTMLVersion_loop_cases (doc_children root)) as [[-> H]|[-> H]];
    split; split; try done.
Qed.

(* ================================================================== *)
(** ** Redirects *)
(* ================================================================== *)

Lemma client_do_requests_bounds (rt : Transport) (m : Method) (left : nat) (req : URL) :
  hd_error (client_do_requests rt m left req) = Some req /\
  length (client_do_requests rt m left req) <= S left.
Proof.
  split; [by destruct left|].
  revert req. induction left as [|left IH]; intros req; simpl.
  - repeat case_match; simpl; lia.
  - repeat case_match; simpl; try lia.
    match goal with |- S (length (client_do_requests _ _ _ ?u)) <= _ =>
      specialize (IH u); lia end.
Qed.

Lemma last_cons_cons {A} (x y : A) (l : list A) :
  last (x :: y :: l) = last (y :: l).
Proof. reflexivity. Qed.

Lemma last_client_do_requests_cons (rt : Transport) (m : Method) (left : nat)
    (req u : URL) :
  last (req :: client_do_requests rt m left u)
  = last (client_do_requests rt m left u).
Proof. destruct left; apply last_cons_cons. Qed.

Lemma client_do_response (rt : Transport) (m : Method) (left : nat) (req : URL)
    (resp : Response) :
  client_do rt m left req = DoResponse resp ->
  last (client_do_requests rt m left req) = Some (Request_URL resp) /\
  rt m (Request_URL resp)
  = RTResponse (StatusCode resp) (Location resp) (RespBody resp) /\
  (shouldRedirect (StatusCode resp) = false \/ Location resp = "").
Proof.
  revert req. induction left as [|left IH]; intros req; simpl;
    destruct (rt m req) as [e|status loc body] eqn:Hrt; try done;
    destruct (shouldRedirect status) eqn:Hsr;
    try (intros [= <-]; simpl; by eauto);
    destruct (is_empty loc) eqn:Hloc;
    try (intros [= <-]; simpl; apply is_empty_true in Hloc; by eauto);
    destruct (url_Parse_ref req loc) as [u|e]; try done.
  intros H. rewrite last_client_do_requests_cons. by apply IH.
Qed.

Lemma client_do_stopped (rt : Transport) (m : Method) (left : nat) (req : URL) :
  client_do rt m left req = DoError ErrStoppedRedirects ->
  length (client_do_requests rt m left req) = S left.
Proof.
  revert req. induction left as [|left IH]; intros req; simpl;
    destruct (rt m req) as [e|status loc body]; try done;
    destruct (shouldRedirect status); try done;
    destruct (is_empty loc); try done;
    destruct (url_Parse_ref req loc) as [u|e]; try done.
  intros H. f_equal. by apply IH.
Qed.

(** X2.  A fetch under a policy that refuses at [max] earlier requests
    starts with the request it was given and sends [max] requests at most
    (one when [max] is 0).  The response it returns answers the last
    request sent and is never a redirect that could be followed: its
    status is none of 301, 302, 303, 307, 308, or it names no location.
    When the policy stops the chain, exactly [max] requests were sent.
    The page fetch of [AnalyzeURL] has [max = 5], a link probe 10. *)
Theorem redirects_are_capped (rt : Transport) (max : nat) (m : Method) (req : URL) :
  hd_error (client_Do_requests rt max m req) = Some req /\
  length (client_Do_requests rt max m req) <= Nat.max 1 max /\
  (forall resp,
      client_Do rt max m req = DoResponse resp ->
      last (client_Do_requests rt max m req) = Some (Request_URL resp) /\
      rt m (Request_URL resp)
      = RTResponse (StatusCode resp) (Location resp) (RespBody resp) /\
      (shouldRedirect (StatusCode resp) = false \/ Location resp = "")) /\
  (client_Do rt max m req = DoError ErrStoppedRedirects ->
   length (client_Do_requests rt max m req) = Nat.max 1 max).
Proof.
  unfold client_Do, client_Do_requests.
  destruct (client_do_requests_bounds rt m (max - 1) req) as [Hhd Hlen].
  split_and!.
  - done.
  - lia.
  - intros resp. apply client_do_response.
  - intros H. apply client_do_stopped in H. lia.
Qed.

Lemma redirects_are_capped_witness :
  client_Do redirect_loop 5 MethodGet short_req = DoError ErrStoppedRedirects /\
  length (client_Do_requests redirect_loop 5 MethodGet short_req) = 5 /\
  AnalyzeURL loop_world "short.example"
  = (None, Some (mkAnalyzeError 0 (ErrHTTP ErrStoppedRedirects))).
Proof.
  assert (H : client_Do redirect_loop 5 MethodGet short_req
              = DoError ErrStoppedRedirects) by reflexivity.
  split_and!; [exact H | | reflexivity].
  destruct (redirects_are_capped redirect_loop 5 MethodGet short_req)
    as (_ & _ & _ & Hstop).
  exact (Hstop H).
Defined.

(* ================================================================== *)
(** ** Same host *)
(* ================================================================== *)

(** X3.  [sameHost] is an equivalence on URLs: every URL is on its own
    host, the order of the arguments does not matter, and two URLs on the
    host of a third are on the same host.  The host names are compared
    rune by rune under the simple case folding of Unicode, as
    [strings.EqualFold] does: two URLs are on the same host exactly when
    their host names are equal once every rune is replaced by the
    smallest rune of its folding cycle. *)
Theorem sameHost_equivalence :
  (forall a, sameHost a a = true) /\
  (forall a b, sameHost a b = sameHost b a) /\
  (forall a b c, sameHost a b = true -> sameHost b c = true -> sameHost a c = true) /\
  (forall a b,
      sameHost a b = true <->
      case_folded (url_Hostname a) = case_folded (url_Hostname b)).
Proof.
  unfold sameHost. split_and!.
  - intros a. apply EqualFold_refl.
  - intros a b. apply EqualFold_sym.
  - intros a b c. apply EqualFold_trans.
  - intros a b. apply EqualFold_case_folded.
Qed.

Lemma digit_is_no_colon (c : ascii) :
  is_digit c = true -> Ascii.eqb c ":" = false.
Proof.
  destruct c as [[] [] [] [] [] [] [] []]; intros H; try discriminate H; reflexivity.
Qed.

Lemma all_digits_no_colon (p : string) :
  all_digits p = true -> strings_LastIndexByte p ":" = None.
Proof.
  induction p as [|c p IH]; [done|]. simpl. intros H.
  apply andb_true_iff in H as [Hc Hp]. by rewrite IH, digit_is_no_colon.
Qed.

Lemma LastIndexByte_app_sep (h p : string) (c : ascii) :
  strings_LastIndexByte p c = None ->
  strings_LastIndexByte (h +:+ String c p) c = Some (String.length h).
Proof.
  intros Hp. induction h as [|d h IH].
  - rewrite append_nil_l. simpl. by rewrite Hp, Ascii.eqb_refl.
  - rewrite append_cons. simpl. by rewrite IH.
Qed.

(** The host name of [h:port] is [h] without its brackets. *)
Lemma Hostname_with_port (h p : string) :
  all_digits p = true ->
  splitHostPort_host (h +:+ ":" +:+ p)
  = if strings_HasPrefix h "[" && strings_HasSuffix h "]"
    then string_take (String.length h - 2) (string_drop 1 h) else h.
Proof.
  intros Hp. unfold splitHostPort_host.
  rewrite append_cons, append_nil_l.
  rewrite LastIndexByte_app_sep by (by apply all_digits_no_colon).
  rewrite string_drop_app, string_take_app_exact. simpl. by rewrite Hp.
Qed.

Lemma Hostname_without_port (h : string) :
  strings_CountByte h ":" = 0 ->
  splitHostPort_host h
  = if strings_HasPrefix h "[" && strings_HasSuffix h "]"
    then string_take (String.length h - 2) (string_drop 1 h) else h.
Proof.
  intros Hh. unfold splitHostPort_host. by rewrite LastIndexByte_free.
Qed.

(** X4.  The port plays no part in [sameHost]: a URL on [h:port] is on the
    same host as a URL on [h] with another port and as a URL on [h] with
    no port. *)
Theorem sameHost_ignores_port (a b : URL) (h p q : string) :
  all_digits p = true ->
  Host a = h +:+ ":" +:+ p ->
  (Host b = h +:+ ":" +:+ q /\ all_digits q = true) \/
  (Host b = h /\ strings_CountByte h ":" = 0) ->
  sameHost a b = true.
Proof.
  intros Hp Ha Hb. unfold sameHost, url_Hostname.
  rewrite Ha, Hostname_with_port by done.
  destruct Hb as [[-> Hq]|[-> Hh]].
  - rewrite Hostname_with_port by done. apply EqualFold_refl.
  - rewrite Hostname_without_port by done. apply EqualFold_refl.
Qed.

Lemma sameHost_ignores_port_witness :
  sameHost (url_on "example.com:8443") (url_on "example.com") = true.
Proof.
  apply (sameHost_ignores_port _ _ "example.com" "8443" "");
    [reflexivity | reflexivity | right; split; reflexivity].
Defined.

(* ================================================================== *)
(** ** Relative links *)
(* ================================================================== *)

(** Only a URL with a scheme has an opaque part. *)
Lemma parse_opaque_has_scheme (s : string) (v : bool) (u : URL) :
  parse s v = Ok u -> Scheme u = "" -> Opaque u = "".
Proof.
  unfold parse. intros H Hs.
  destruct (stringContainsCTLByte s); [done|].
  destruct (is_empty s && v); [done|].
  destruct (String.eqb s "*"); [by simplify_eq|].
  destruct (getScheme s) as [[sch rest0]|e]; [|done].
  destruct (split_query rest0) as [[rest q] fq].
  destruct (negb (strings_HasPrefix rest "/") && negb (is_empty (strings_ToLower sch)))
    eqn:Hop.
  { simplify_eq. simpl in Hs. rewrite Hs in Hop. simpl in Hop.
    by rewrite andb_false_r in Hop. }
  destruct (negb (strings_HasPrefix rest "/") && v); [done|].
  destruct (negb (strings_HasPrefix rest "/") && strings_Contains _ _); [done|].
  destruct (split_authority _ _ _) as [[[[user host] omit] rest']|e]; [|done].
  by apply setPath_keeps in H as (_ & -> & _).
Qed.

Lemma url_Parse_opaque_has_scheme (s : string) (u : URL) :
  url_Parse s = Ok u -> Scheme u = "" -> Opaque u = "".
Proof.
  intros H Hs. apply url_Parse_inv in H as (u1 & Hp & Hs1 & -> & _).
  rewrite Hs1 in Hs. by eapply parse_opaque_has_scheme.
Qed.

Lemma setPath_ignore_Host (p : string) (u : URL) :
  Host (setPath_ignore p u) = Host u.
Proof.
  unfold setPath_ignore. destruct (setPath p u) as [u'|] eqn:H; [|done].
  by apply setPath_keeps in H as (_ & _ & _ & ->).
Qed.

(** A reference without scheme and authority is resolved onto the host
    of the base. *)
Lemma ResolveReference_relative_Host (base ref : URL) :
  Opaque base = "" -> Opaque ref = "" -> relative_reference ref ->
  Host (url_ResolveReference base ref) = Host base.
Proof.
  intros _ Ho (Hs & Hh & Hu). unfold url_ResolveReference.
  rewrite Hs, Hh, Hu, Ho. simpl.
  by rewrite setPath_ignore_Host.
Qed.

Lemma link_of_anchor_relative (base : URL) (anchor : Node) (u v : URL) :
  Opaque base = "" ->
  parsed_href anchor = Some u -> relative_reference u ->
  link_of_anchor base anchor = Some v ->
  internal_link base v = true.
Proof.
  unfold parsed_href, link_of_anchor. intros Hb Hp Hrel Hl.
  destruct (href_skipped _); [done|].
  destruct (url_Parse _) as [u'|] eqn:Hparse; [|done]. simplify_eq.
  rewrite internal_link_sameHost.
  unfold sameHost, url_Hostname, emptied_Fragment_RawQuery. simpl.
  pose proof Hrel as (Hs & _). unfold url_IsAbs. rewrite Hs. simpl.
  rewrite ResolveReference_relative_Host;
    [apply EqualFold_refl | done | by eapply url_Parse_opaque_has_scheme | done].
Qed.

Lemma first_seen_subset (earlier : list string) (links : list URL) (u : URL) :
  u ∈ first_seen earlier links -> u ∈ links.
Proof.
  revert earlier. induction links as [|x links IH]; intros earlier; simpl; [done|].
  case_bool_decide as Hd.
  - intros H. apply list_elem_of_further. by eapply IH.
  - intros H. apply elem_of_cons in H as [->|H]; [apply list_elem_of_here|].
    apply list_elem_of_further. by eapply IH.
Qed.

Lemma filter_nil_Forall {A} (p : A -> bool) (l : list A) :
  Forall (fun x => p x = false) l -> List.filter p l = [].
Proof. induction 1 as [|x l Hx _ IH]; simpl; [done|]. by rewrite Hx. Qed.

(** X5.  Against a base that is no opaque URL, a document whose links are
    all relative references (no scheme, no authority: paths, queries,
    [./x], [../y]) has no external link. *)
Theorem relative_links_are_internal (doc : Document) (base : URL) :
  Opaque base = "" ->
  Forall (fun anchor => forall u, parsed_href anchor = Some u -> relative_reference u)
         (anchors_of doc) ->
  (classifyLinks doc base).1.2 = 0 /\
  (classifyLinks doc base).1.1 = length (classifyLinks doc base).2.
Proof.
  intros Hb Hrel.
  assert (Hext : (classifyLinks doc base).1.2 = 0).
  { rewrite classifyLinks_of_links. unfold classify_of_links. simpl.
    rewrite filter_nil_Forall; [done|].
    apply Forall_forall. intros v Hv. apply negb_false_iff.
    apply first_seen_subset in Hv. apply list_elem_of_omap in Hv as (anchor & Hin & Hl).
    rewrite Forall_forall in Hrel. specialize (Hrel anchor Hin).
    destruct (parsed_href anchor) as [u|] eqn:Hp.
    - apply (link_of_anchor_relative base anchor u v); [done|done|by apply Hrel|done].
    - unfold parsed_href in Hp. unfold link_of_anchor in Hl.
      destruct (href_skipped _); [done|]. by destruct (url_Parse _). }
  split; [done|].
  pose proof (classifyLinks_counts doc base) as Hc. rewrite Hext in Hc. lia.
Qed.

Lemma relative_links_are_internal_witness :
  (classifyLinks query_mark_doc example_base).1.2 = 0.
Proof.
  apply (relative_links_are_internal query_mark_doc example_base); [reflexivity|].
  let l := eval vm_compute in (anchors_of query_mark_doc) in
  change (anchors_of query_mark_doc) with l.
  repeat (apply List.Forall_cons;
          [intros u Hu; vm_compute in Hu; injection Hu as <-; repeat split|]).
  apply List.Forall_nil.
Defined.

(* ================================================================== *)
(** ** The classifier where no link ends on a bare question mark *)
(* ================================================================== *)






Lemma strip_internal_link (base v : URL) :
  internal_link base (strip_fragment_and_query v) = internal_link base v.
Proof. reflexivity. Qed.






(* ================================================================== *)
(** ** The inaccessible count as a sum *)
(* ================================================================== *)

Lemma total_app (l1 l2 : list nat) : total (l1 ++ l2) = total l1 + total l2.
Proof. induction l1 as [|x l1 IH]; simpl; [done|]. rewrite IH. lia. Qed.

Lemma total_contributions_zero (client : Client) (links : list string) :
  total (map (contribution client) links) = 0 <-> Forall (accessible client) links.
Proof.
  unfold accessible. induction links as [|l links IH]; simpl.
  - split; [constructor|done].
  - rewrite Forall_cons, <- IH. unfold contribution at 1.
    destruct (linkAccessible client l).1; split; try lia; intros [? ?]; try done; lia.
Qed.

Lemma total_contributions_all (client : Client) (links : list string) :
  total (map (contribution client) links) = length links
  <-> Forall (fun link => ~ accessible client link) links.
Proof.
  unfold accessible. induction links as [|l links IH]; simpl.
  - split; [constructor|done].
  - rewrite Forall_cons, <- IH.
    pose proof (total_contributions_le client links).
    unfold contribution at 1.
    destruct (linkAccessible client l).1.
    + split; [lia|]. intros [Hn _]. by destruct Hn.
    + split; [intros ?; split; [done|lia]|]. intros [_ ?]. lia.
Qed.

(** X6.  For a positive cap the inaccessible count is a sum over the
    links: the count of a concatenation is the sum of the counts of its
    parts, reordering the links does not change it, it is 0 exactly when
    every link is accessible and the number of links exactly when none
    is. *)
Theorem inaccessible_count_is_a_sum
    (client : Client) (l1 l2 l1' : list string) (maxConcurrent : Z) :
  (0 < maxConcurrent)%Z ->
  checkLinksAccessibility client (l1 ++ l2) maxConcurrent
  = (n1 ← checkLinksAccessibility client l1 maxConcurrent;
     n2 ← checkLinksAccessibility client l2 maxConcurrent;
     Some (n1 + n2)) /\
  (l1 ≡ₚ l1' ->
   checkLinksAccessibility client l1' maxConcurrent
   = checkLinksAccessibility client l1 maxConcurrent) /\
  (checkLinksAccessibility client l1 maxConcurrent = Some 0
   <-> Forall (accessible client) l1) /\
  (checkLinksAccessibility client l1 maxConcurrent = Some (length l1)
   <-> Forall (fun link => ~ accessible client link) l1).
Proof.
  intros Hpos. rewrite !checkLinksAccessibility_positive by done. split_and!.
  - simpl. by rewrite map_app, total_app.
  - intros Hp. f_equal. apply total_Permutation. by apply Permutation_map.
  - rewrite <- total_contributions_zero. split; [by intros [= ->]|by intros ->].
  - rewrite <- total_contributions_all. split; [by intros [= ->]|by intros ->].
Qed.

Lemma inaccessible_count_is_a_sum_witness :
  (0 < 10)%Z /\
  checkLinksAccessibility stub_client (stub_links ++ stub_links) 10 = Some 2.
Proof.
  split; [lia|].
  destruct (inaccessible_count_is_a_sum stub_client stub_links stub_links [] 10
              ltac:(lia)) as (H & _).
  rewrite H. reflexivity.
Defined.

(* ================================================================== *)
(** ** Trimming is idempotent *)
(* ================================================================== *)

Lemma string_rev_onto_app (s acc : string) :
  string_rev_onto s acc = string_rev s +:+ acc.
Proof.
  unfold string_rev. revert acc.
  induction s as [|c s IH]; intros acc; simpl; [done|].
  rewrite IH, (IH (String c "")), append_assoc. by rewrite append_cons, append_nil_l.
Qed.

Lemma string_rev_cons (c : ascii) (s : string) :
  string_rev (String c s) = string_rev s +:+ String c "".
Proof. unfold string_rev at 1. simpl. apply string_rev_onto_app. Qed.

Lemma string_rev_app (a b : string) :
  string_rev (a +:+ b) = string_rev b +:+ string_rev a.
Proof.
  induction a as [|c a IH].
  - by rewrite append_nil_l, append_nil_r.
  - by rewrite append_cons, !string_rev_cons, IH, append_assoc.
Qed.

Lemma string_rev_involutive (s : string) : string_rev (string_rev s) = s.
Proof.
  induction s as [|c s IH]; [done|].
  by rewrite string_rev_cons, string_rev_app, IH.
Qed.

Lemma trim_left_space_fixed (s : string) :
  leading_space s = false -> trim_left_space s = s.
Proof.
  destruct s as [|a [|b [|c s3]]]; simpl; try done;
    destruct (asciiSpace a); simpl; try done;
    destruct (space2 a b); simpl; try done;
    destruct (space3 a b c); simpl; done.
Qed.

Lemma trim_left_space_rev_fixed (s : string) :
  leading_space_rev s = false -> trim_left_space_rev s = s.
Proof.
  destruct s as [|a [|b [|c s3]]]; simpl; try done;
    destruct (asciiSpace a); simpl; try done;
    destruct (space2 b a); simpl; try done;
    destruct (space3 c b a); simpl; done.
Qed.

Lemma trim_left_space_result (n : nat) (s : string) :
  String.length s <= n ->
  leading_space (trim_left_space s) = false.
Proof.
  revert s. induction n as [|n IH]; intros s Hn.
  - destruct s; [done|simpl in Hn; lia].
  - destruct s as [|a [|b [|c s3]]]; simpl in *; try done.
    + destruct (asciiSpace a) eqn:Ha; [done|]. simpl. by rewrite Ha.
    + destruct (asciiSpace a) eqn:Ha.
      * apply (IH (String b "")). simpl. lia.
      * destruct (space2 a b) eqn:Hb; [done|]. simpl. by rewrite Ha, Hb.
    + destruct (asciiSpace a) eqn:Ha.
      * apply (IH (String b (String c s3))). simpl. lia.
      * destruct (space2 a b) eqn:Hb.
        -- apply (IH (String c s3)). simpl. lia.
        -- destruct (space3 a b c) eqn:Hc.
           ++ apply IH. lia.
           ++ simpl. by rewrite Ha, Hb, Hc.
Qed.

Lemma trim_left_space_rev_result (n : nat) (s : string) :
  String.length s <= n ->
  leading_space_rev (trim_left_space_rev s) = false /\
  exists p, s = p +:+ trim_left_space_rev s.
Proof.
  revert s. induction n as [|n IH]; intros s Hn.
  - destruct s; [|simpl in Hn; lia]. split; [done|]. by exists "".
  - destruct s as [|a [|b [|c s3]]]; simpl in *.
    + split; [done|]. by exists "".
    + destruct (asciiSpace a) eqn:Ha.
      * split; [done|]. by exists (String a "").
      * simpl. rewrite Ha. split; [done|]. by exists "".
    + destruct (asciiSpace a) eqn:Ha.
      * destruct (IH (String b "")) as [H1 [p Hp]]; [simpl; lia|].
        split; [done|]. exists (String a p). rewrite append_cons. f_equal. exact Hp.
      * destruct (space2 b a) eqn:Hb.
        -- split; [done|]. by exists (String a (String b "")).
        -- simpl. rewrite Ha, Hb. split; [done|]. by exists "".
    + destruct (asciiSpace a) eqn:Ha.
      * destruct (IH (String b (String c s3))) as [H1 [p Hp]]; [simpl; lia|].
        split; [done|]. exists (String a p). rewrite append_cons. f_equal. exact Hp.
      * destruct (space2 b a) eqn:Hb.
        -- destruct (IH (String c s3)) as [H1 [p Hp]]; [simpl; lia|].
           split; [done|]. exists (String a (String b p)).
           rewrite !append_cons. do 2 f_equal. exact Hp.
        -- destruct (space3 c b a) eqn:Hc.
           ++ destruct (IH s3) as [H1 [p Hp]]; [lia|].
              split; [done|]. exists (String a (String b (String c p))).
              rewrite !append_cons. do 3 f_equal. exact Hp.
           ++ simpl. rewrite Ha, Hb, Hc. split; [done|]. by exists "".
Qed.

Lemma leading_space_prefix (b c : string) :
  leading_space b = true -> leading_space (b +:+ c) = true.
Proof.
  destruct b as [|x [|y [|z b3]]]; intros H; [done| | |];
    rewrite ?append_cons, ?append_nil_l; simpl in *.
  - rewrite orb_false_r in H. by rewrite H.
  - destruct (asciiSpace x); [done|]. simpl in *.
    rewrite orb_false_r in H. by rewrite H.
  - exact H.
Qed.

(** [strings.TrimSpace] leaves nothing to trim. *)
Lemma strings_TrimSpace_idempotent (s : string) :
  strings_TrimSpace (strings_TrimSpace s) = strings_TrimSpace s.
Proof.
  unfold strings_TrimSpace, trim_right_space.
  set (a := trim_left_space s).
  destruct (trim_left_space_rev_result _ (string_rev a) (Nat.le_refl _))
    as [Hno [p Hp]].
  set (t := trim_left_space_rev (string_rev a)) in *.
  assert (Ha : a = string_rev t +:+ string_rev p).
  { rewrite <- string_rev_app, <- Hp. by rewrite string_rev_involutive. }
  assert (Hlead : leading_space (string_rev t) = false).
  { destruct (leading_space (string_rev t)) eqn:Hl; [|done].
    apply (leading_space_prefix _ (string_rev p)) in Hl. rewrite <- Ha in Hl.
    unfold a in Hl. by rewrite (trim_left_space_result _ _ (Nat.le_refl _)) in Hl. }
  rewrite (trim_left_space_fixed _ Hlead), string_rev_involutive.
  by rewrite (trim_left_space_rev_fixed _ Hno).
Qed.

(** X7.  White space around the input plays no part: the normalizer gives
    for the trimmed input what it gives for the input.  The title of a
    result comes out trimmed, and so does the message of an error made
    from a response body. *)
Theorem trimmed_in_and_out (w : World) (raw : string) :
  normalizeURL (strings_TrimSpace raw) = normalizeURL raw /\
  (forall r e, AnalyzeURL w raw = (Some r, e) ->
     strings_TrimSpace (Title r) = Title r) /\
  (forall r code msg,
     AnalyzeURL w raw = (r, Some (mkAnalyzeError code (ErrMessage msg))) ->
     strings_TrimSpace msg = msg).
Proof.
  split_and!.
  - rewrite !normalizeURL_unfold. by rewrite strings_TrimSpace_idempotent.
  - unfold AnalyzeURL. intros r e H.
    repeat (case_match; try discriminate). simplify_eq. simpl.
    apply strings_TrimSpace_idempotent.
  - unfold AnalyzeURL. intros r code msg H.
    repeat (case_match; try discriminate); simplify_eq.
    apply strings_TrimSpace_idempotent.
Qed.

Lemma trimmed_in_and_out_witness :
  exists r,
    AnalyzeURL world_redirect "short.example" = (Some r, None) /\
    Title r = "Docs" /\ strings_TrimSpace (Title r) = Title r.
Proof.
  eexists. split; [vm_compute; reflexivity|]. split; [reflexivity|].
  destruct (trimmed_in_and_out world_redirect "short.example") as (_ & H & _).
  eapply (H _ None). vm_compute. reflexivity.
Defined.

(* ================================================================== *)
(** ** Outcomes of the analysis *)
(* ================================================================== *)

Lemma AnalyzeURL_status_failure (w : World) (raw parsed : string) (req : URL)
    (resp : Response) :
  normalizeURL raw = Ok parsed ->
  http_NewRequestWithContext MethodGet parsed = Ok req ->
  client_Do (transport w) 5 MethodGet req = DoResponse resp ->
  (StatusCode resp < 200 \/ 400 <= StatusCode resp)%Z ->
  AnalyzeURL w raw
  = (None, Some (mkAnalyzeError (StatusCode resp)
                   (ErrMessage (strings_TrimSpace
                                  (string_take 1024 (body_data (RespBody resp))))))).
Proof.
  intros Hn Hreq Hdo Hst. unfold AnalyzeURL. rewrite Hn, Hreq, Hdo.
  assert ((StatusCode resp <? 200)%Z || (400 <=? StatusCode resp)%Z = true) as ->.
  { apply orb_true_iff. lia. }
  reflexivity.
Qed.

Lemma AnalyzeURL_success (w : World) (raw parsed body : string) (req : URL)
    (resp : Response) (doc : Document) :
  normalizeURL raw = Ok parsed ->
  http_NewRequestWithContext MethodGet parsed = Ok req ->
  client_Do (transport w) 5 MethodGet req = DoResponse resp ->
  (200 <= StatusCode resp < 400)%Z ->
  io_ReadAll (RespBody resp) = Some body ->
  html_Parse w body = Some doc ->
  exists r, AnalyzeURL w raw = (Some r, None).
Proof.
  intros Hn Hreq Hdo Hst Hbody Hdoc. unfold AnalyzeURL.
  rewrite Hn, Hreq, Hdo.
  assert ((StatusCode resp <? 200)%Z || (400 <=? StatusCode resp)%Z = false) as ->.
  { apply orb_false_iff. lia. }
  rewrite Hbody, Hdoc.
  destruct (classifyLinks doc req) as [[i x] links].
  destruct (checkLinksAccessibility_cap_10 (client_Do (transport w) 10) links)
    as [k ->].
  eauto.
Qed.

(** X8.  The analysis returns a result exactly when the input normalizes,
    the request can be built, the fetch ends on a response with a status
    in [200,400) (a redirect that is not followed counts), the body is
    read to its end and the parser accepts it.  What the link probes
    return never turns a result into an error. *)
Theorem analysis_succeeds_iff (w : World) (raw : string) :
  (exists r, AnalyzeURL w raw = (Some r, None)) <->
  (exists parsed req resp body doc,
      normalizeURL raw = Ok parsed /\
      http_NewRequestWithContext MethodGet parsed = Ok req /\
      client_Do (transport w) 5 MethodGet req = DoResponse resp /\
      (200 <= StatusCode resp < 400)%Z /\
      io_ReadAll (RespBody resp) = Some body /\
      html_Parse w body = Some doc).
Proof.
  split.
  - intros [r H]. apply AnalyzeURL_result_inv in H
      as (parsed & req & resp & body & doc & H1 & H2 & H3 & H4 & H5 & H6 & _).
    apply status_ok_spec in H4.
    exists parsed, req, resp, body, doc. repeat split; try done; lia.
  - intros (parsed & req & resp & body & doc & H1 & H2 & H3 & H4 & H5 & H6).
    by eapply AnalyzeURL_success.
Qed.

(** X9.  The status that an error of the analysis carries is 0 or lies
    outside [200,400).  It is not 0 exactly when the fetch ended on a
    response with that very status, outside [200,400); every other
    failure (input, request, transport, redirects, body, parser) carries
    0. *)
Theorem error_status_origin
    (w : World) (raw : string) (r : option AnalyzeResult) (e : AnalyzeError) :
  AnalyzeURL w raw = (r, Some e) ->
  (ae_StatusCode e = 0 \/ ae_StatusCode e < 200 \/ 400 <= ae_StatusCode e)%Z /\
  (ae_StatusCode e <> 0%Z <->
   exists parsed req resp,
     normalizeURL raw = Ok parsed /\
     http_NewRequestWithContext MethodGet parsed = Ok req /\
     client_Do (transport w) 5 MethodGet req = DoResponse resp /\
     StatusCode resp = ae_StatusCode e /\
     (StatusCode resp < 0 \/ 0 < StatusCode resp < 200 \/ 400 <= StatusCode resp)%Z).
Proof.
  unfold AnalyzeURL. intros H.
  destruct (normalizeURL raw) as [parsed|c] eqn:Hn.
  2: { simplify_eq. simpl. split; [lia|]. split; [done|].
       by intros (? & ? & ? & ? & _). }
  destruct (http_NewRequestWithContext MethodGet parsed) as [req|ue] eqn:Hreq.
  2: { simplify_eq. simpl. split; [lia|]. split; [done|].
       intros (? & ? & ? & ? & ? & _). congruence. }
  destruct (client_Do (transport w) 5 MethodGet req) as [he|resp] eqn:Hdo.
  { simplify_eq. simpl. split; [lia|]. split; [done|].
    intros (? & ? & ? & ? & ? & ? & _). congruence. }
  destruct ((StatusCode resp <? 200)%Z || (400 <=? StatusCode resp)%Z) eqn:Hst.
  { simplify_eq. simpl. apply orb_true_iff in Hst. split; [lia|]. split.
    - intros Hnz. exists parsed, req, resp. split_and!; try done. lia.
    - intros (? & ? & ? & ? & ? & ? & ? & ?). lia. }
  apply orb_false_iff in Hst.
  match goal with
  | |- ?G => assert (Hzero : ae_StatusCode e = 0%Z -> G)
  end.
  { intros Hz. split; [lia|]. split; [done|].
    intros (p' & q' & resp' & H1 & H2 & H3 & H4 & H5).
    injection H1 as <-. rewrite Hreq in H2. injection H2 as <-.
    rewrite Hdo in H3. injection H3 as <-. lia. }
  destruct (io_ReadAll (RespBody resp)) as [body|];
    [|apply Hzero; by simplify_eq].
  destruct (html_Parse w body) as [doc|]; [|apply Hzero; by simplify_eq].
  destruct (classifyLinks doc req) as [[i x] links].
  by destruct (checkLinksAccessibility _ links 10).
Qed.

Lemma error_status_origin_witness :
  AnalyzeURL world_404 "example.com"
  = (None, Some (mkAnalyzeError 404 (ErrMessage "page not found"))) /\
  (404 = 0 \/ 404 < 200 \/ 400 <= 404)%Z.
Proof.
  assert (H : AnalyzeURL world_404 "example.com"
              = (None, Some (mkAnalyzeError 404 (ErrMessage "page not found"))))
    by reflexivity.
  split; [exact H|].
  exact (proj1 (error_status_origin world_404 "example.com" None _ H)).
Defined.

(* ================================================================== *)
(** ** The handlers *)
(* ================================================================== *)

Lemma String_eqb_false (s t : string) : String.eqb s t = false <-> s <> t.
Proof.
  split.
  - intros H ->. by rewrite String.eqb_refl in H.
  - intros H. destruct (String.eqb s t) eqn:E; [|done].
    by apply String.eqb_eq in E.
Qed.

Lemma AnalyzeURL_never_silent (w : World) (raw : string) :
  AnalyzeURL w raw <> (None, None).
Proof.
  unfold AnalyzeURL.
  destruct (normalizeURL raw) as [parsed|]; [|done].
  destruct (http_NewRequestWithContext MethodGet parsed) as [req|]; [|done].
  destruct (client_Do (transport w) 5 MethodGet req) as [|resp]; [done|].
  destruct ((StatusCode resp <? 200)%Z || (400 <=? StatusCode resp)%Z); [done|].
  destruct (io_ReadAll (RespBody resp)) as [body|]; [|done].
  destruct (html_Parse w body) as [doc|]; [|done].
  destruct (classifyLinks doc req) as [[i x] links].
  by destruct (checkLinksAccessibility_cap_10 (client_Do (transport w) 10) links)
    as [k ->].
Qed.

Lemma AnalyzeURL_error_status (w : World) (raw : string)
    (r : option AnalyzeResult) (e : AnalyzeError) :
  AnalyzeURL w raw = (r, Some e) ->
  r = None /\
  (ae_StatusCode e = 0 \/ ae_StatusCode e < 200 \/ 400 <= ae_StatusCode e)%Z.
Proof.
  unfold AnalyzeURL. intros H.
  destruct (normalizeURL raw) as [parsed|]; [|simplify_eq; simpl; split; [done|lia]].
  destruct (http_NewRequestWithContext MethodGet parsed) as [req|];
    [|simplify_eq; simpl; split; [done|lia]].
  destruct (client_Do (transport w) 5 MethodGet req) as [|resp];
    [simplify_eq; simpl; split; [done|lia]|].
  destruct ((StatusCode resp <? 200)%Z || (400 <=? StatusCode resp)%Z) eqn:Hst.
  { apply orb_true_iff in Hst. simplify_eq. simpl. split; [done|lia]. }
  destruct (io_ReadAll (RespBody resp)) as [body|];
    [|simplify_eq; simpl; split; [done|lia]].
  destruct (html_Parse w body) as [doc|]; [|simplify_eq; simpl; split; [done|lia]].
  destruct (classifyLinks doc req) as [[i x] links].
  by destruct (checkLinksAccessibility _ links 10).
Qed.

(** What [handleAnalyze] does, by the case of the request. *)
Lemma handleAnalyze_cases
    (library_text : go_error -> string) (w : World) (r : Request) :
  let url := req_FormValue_url r in
  (req_Method r <> "POST" /\
   handleAnalyze library_text w r = [http_Error "method not allowed" 405]) \/
  (req_Method r = "POST" /\ url = "" /\
   handleAnalyze library_text w r = [http_Error "missing url" 400]) \/
  (req_Method r = "POST" /\ url <> "" /\
   exists res,
     AnalyzeURL w url = (Some res, None) /\
     handleAnalyze library_text w r
     = [Execute_result
          (ResultPage url (HTMLVersion res) (Title res) (Headings res)
                      (Links res) (HasLoginForm res) (Inaccessible res))]) \/
  (req_Method r = "POST" /\ url <> "" /\
   exists e status,
     AnalyzeURL w url = (None, Some e) /\
     status = (if (ae_StatusCode e =? 0)%Z then 502%Z else ae_StatusCode e) /\
     (status < 200 \/ 400 <= status)%Z /\
     handleAnalyze library_text w r
     = if invalid_WriteHeader_code status
       then [panic ("invalid WriteHeader code " +:+ Sprintf_d status)]
       else [WriteHeader status;
             Execute_result
               (ErrorPage (AnalyzeError_Error library_text e) url status
                          (AnalyzeError_Error library_text e))]).
Proof.
  intros url. unfold handleAnalyze. fold url.
  destruct (String.eqb (req_Method r) "POST") eqn:Hm; cbn [negb].
  2: { apply String_eqb_false in Hm. by left. }
  apply String.eqb_eq in Hm. right.
  destruct (is_empty url) eqn:Hu.
  { apply is_empty_true in Hu. by left. }
  apply is_empty_false in Hu. right.
  destruct (AnalyzeURL w url) as [res [e|]] eqn:Ha.
  - right. destruct (AnalyzeURL_error_status _ _ _ _ Ha) as [-> Hst].
    split_and!; try done.
    exists e, (if (ae_StatusCode e =? 0)%Z then 502%Z else ae_StatusCode e).
    assert (Hcode : (if negb (ae_StatusCode e =? 0)%Z then ae_StatusCode e
                     else StatusBadGateway)
                    = (if (ae_StatusCode e =? 0)%Z then 502%Z else ae_StatusCode e)).
    { by destruct (ae_StatusCode e =? 0)%Z. }
    rewrite Hcode. split_and!; try done.
    destruct (Z.eqb_spec (ae_StatusCode e) 0); lia.
  - destruct res as [res|]; [|by apply AnalyzeURL_never_silent in Ha].
    left. split_and!; try done. by exists res.
Qed.

(** X10.  The analysis handler ends on a call or on a panic.  It passes
    at most one status to [WriteHeader], a number from 100 to 999 that is
    not in [200,400): 405 for a method other than POST, 400 for an empty
    [url], and for a failed analysis the status of the upstream response,
    or 502 when the error carries none.  When that status is below 100 or
    above 999 [WriteHeader] panics and nothing is rendered; the handler
    panics in no other case.  It passes no status exactly when it panics
    or the analysis of a POSTed, non-empty [url] gives a result.  No
    method passes both handlers: the index handler or the analysis
    handler answers 405. *)
Theorem handler_statuses
    (library_text : go_error -> string) (w : World) (r : Request) :
  let url := req_FormValue_url r in
  let calls := handleAnalyze library_text w r in
  let panics := exists v, panic v ∈ calls in
  calls <> [] /\
  length (codes_written calls) <= 1 /\
  Forall (fun code => 100 <= code < 200 \/ 400 <= code <= 999)%Z
         (codes_written calls) /\
  (panics <->
   req_Method r = "POST" /\ url <> "" /\
   exists res e,
     AnalyzeURL w url = (res, Some e) /\ ae_StatusCode e <> 0%Z /\
     (ae_StatusCode e < 100 \/ 999 < ae_StatusCode e)%Z) /\
  (panics -> exists v, calls = [panic v]) /\
  (codes_written calls = [] <->
   panics \/
   (req_Method r = "POST" /\ url <> "" /\
    exists res, AnalyzeURL w url = (Some res, None))) /\
  (req_Method r <> "POST" -> codes_written calls = [405%Z]) /\
  (req_Method r = "POST" -> url = "" -> codes_written calls = [400%Z]) /\
  (forall res e,
      req_Method r = "POST" -> url <> "" ->
      AnalyzeURL w url = (res, Some e) ->
      let status := if (ae_StatusCode e =? 0)%Z then 502%Z else ae_StatusCode e in
      (100 <= status <= 999)%Z ->
      codes_written calls = [status]) /\
  (codes_written (handleIndex r) = [405%Z] \/ codes_written calls = [405%Z]).
Proof.
  intros url calls panics. subst panics calls url.
  assert (Hidx : req_Method r = "POST" -> codes_written (handleIndex r) = [405%Z]).
  { intros Hm. unfold handleIndex. by rewrite Hm. }
  assert (Hno : forall calls' : list WriterCall,
             Forall (fun c => forall v, c <> panic v) calls' ->
             ~ exists v, panic v ∈ calls').
  { intros calls' Hall [v Hv]. rewrite List.Forall_forall in Hall.
    apply list_elem_of_In in Hv. by apply (Hall _ Hv v). }
  destruct (handleAnalyze_cases library_text w r)
    as [(Hm & ->)|[(Hm & Hu & ->)|[(Hm & Hu & res & Ha & ->)
       |(Hm & Hu & e & status & Ha & Hs & Hrange & ->)]]].
  - assert (Hnp : ~ exists v, panic v ∈ [http_Error "method not allowed" 405]).
    { apply Hno. by repeat constructor. }
    split_and!.
    + done.
    + simpl. lia.
    + apply List.Forall_cons; [lia|apply List.Forall_nil].
    + split; [done|]. by intros (? & _).
    + done.
    + split; [done|]. by intros [?|(? & _)].
    + done.
    + done.
    + done.
    + by right.
  - assert (Hnp : ~ exists v, panic v ∈ [http_Error "missing url" 400]).
    { apply Hno. by repeat constructor. }
    split_and!.
    + done.
    + simpl. lia.
    + apply List.Forall_cons; [lia|apply List.Forall_nil].
    + split; [done|]. by intros (_ & ? & _).
    + done.
    + split; [done|]. by intros [?|(_ & ? & _)].
    + done.
    + done.
    + done.
    + left. by apply Hidx.
  - match goal with
    | |- context [codes_written ?l] =>
        assert (Hnp : ~ exists v, panic v ∈ l)
          by (apply Hno; by repeat constructor)
    end.
    split_and!.
    + done.
    + simpl. lia.
    + apply List.Forall_nil.
    + split; [done|]. intros (_ & _ & ? & ? & ? & _). congruence.
    + done.
    + split; [|done]. intros _. right. split_and!; try done. by exists res.
    + done.
    + done.
    + intros res' e _ _ He. congruence.
    + left. by apply Hidx.
  - assert (Hst : ae_StatusCode e <> 0%Z -> status = ae_StatusCode e).
    { intros Hnz. subst status. by destruct (Z.eqb_spec (ae_StatusCode e) 0). }
    assert (Hz : ae_StatusCode e = 0%Z -> status = 502%Z).
    { intros Hnz. subst status. by destruct (Z.eqb_spec (ae_StatusCode e) 0). }
    destruct (invalid_WriteHeader_code status) eqn:Hinv;
      unfold invalid_WriteHeader_code in Hinv.
    + apply orb_true_iff in Hinv. rewrite !Z.ltb_lt in Hinv.
      assert (Hbad : ae_StatusCode e <> 0%Z /\
                     (ae_StatusCode e < 100 \/ 999 < ae_StatusCode e)%Z).
      { destruct (Z.eq_dec (ae_StatusCode e) 0%Z) as [E|E]; [apply Hz in E|]; lia. }
      assert (Hp : exists v,
                 panic v ∈ [panic ("invalid WriteHeader code " +:+ Sprintf_d status)]).
      { eexists. apply list_elem_of_here. }
      split_and!.
      * done.
      * simpl. lia.
      * apply List.Forall_nil.
      * split; [|done]. intros _. split_and!; try done. by exists None, e.
      * intros _. by eexists.
      * split; [|done]. intros _. by left.
      * done.
      * done.
      * intros res' e' _ _ He. rewrite Ha in He. simplify_eq. intros status' Hok. subst status'.
        exfalso. destruct (Z.eqb_spec (ae_StatusCode e') 0); lia.
      * left. by apply Hidx.
    + apply orb_false_iff in Hinv as [H1 H2].
      apply Z.ltb_ge in H1, H2.
      match goal with
      | |- context [codes_written ?l] =>
          assert (Hnp : ~ exists v, panic v ∈ l)
            by (apply Hno; by repeat constructor)
      end.
      split_and!.
      * done.
      * simpl. lia.
      * apply List.Forall_cons; [lia|apply List.Forall_nil].
      * split; [done|]. intros (_ & _ & res' & e' & He & Hnz & Hout). rewrite Ha in He. simplify_eq.
        rewrite Hst in H1, H2 by done. lia.
      * done.
      * split; [done|]. intros [?|(_ & _ & ? & ?)]; [done|congruence].
      * done.
      * done.
      * intros res' e' _ _ He. rewrite Ha in He. simplify_eq. done.
      * left. by apply Hidx.
Qed.

(** X11.  When the fetch of the POSTed [url] ends on a response whose
    status lies outside [200,400) and is a number from 100 to 999, the
    handler passes that status to [WriteHeader] and renders
    "HTTP <status>: " followed by the first 1024 bytes of the upstream
    body without the white space around them, both as error and as error
    message. *)
Theorem upstream_status_is_passed_on
    (library_text : go_error -> string) (w : World) (r : Request)
    (parsed : string) (req : URL) (resp : Response) :
  req_Method r = "POST" ->
  normalizeURL (req_FormValue_url r) = Ok parsed ->
  http_NewRequestWithContext MethodGet parsed = Ok req ->
  client_Do (transport w) 5 MethodGet req = DoResponse resp ->
  (100 <= StatusCode resp < 200 \/ 400 <= StatusCode resp <= 999)%Z ->
  let text :=
    "HTTP " +:+ Sprintf_d (StatusCode resp) +:+ ": "
    +:+ strings_TrimSpace (string_take 1024 (body_data (RespBody resp))) in
  handleAnalyze library_text w r
  = [WriteHeader (StatusCode resp);
     Execute_result
       (ErrorPage text (req_FormValue_url r) (StatusCode resp) text)].
Proof.
  intros Hm Hn Hreq Hdo Hst text. unfold handleAnalyze.
  rewrite Hm. simpl.
  destruct (is_empty (req_FormValue_url r)) eqn:Hu.
  { apply is_empty_true in Hu. rewrite Hu in Hn. by vm_compute in Hn. }
  rewrite (AnalyzeURL_status_failure w _ parsed req resp Hn Hreq Hdo) by lia.
  unfold AnalyzeError_Error. simpl.
  assert ((StatusCode resp =? 0)%Z = false) as -> by (apply Z.eqb_neq; lia).
  simpl. unfold invalid_WriteHeader_code.
  destruct (Z.ltb_spec (StatusCode resp) 100); [lia|].
  destruct (Z.ltb_spec 999 (StatusCode resp)); [lia|].
  reflexivity.
Qed.

Lemma upstream_status_is_passed_on_witness :
  handleAnalyze no_library_text world_404 (mkRequest "POST" "example.com")
  = [WriteHeader 404;
     Execute_result
       (ErrorPage "HTTP 404: page not found" "example.com" 404
                  "HTTP 404: page not found")].
Proof.
  refine (upstream_status_is_passed_on no_library_text world_404
            (mkRequest "POST" "example.com") "https://example.com"
            (mkURL "https" "" None "example.com" "" "" false false "" "" "")
            (mkResponse 404 "" (mkBody "  page not found  " false)
               (mkURL "https" "" None "example.com" "" "" false false "" "" ""))
            _ _ _ _ _).
  - reflexivity.
  - reflexivity.
  - reflexivity.
  - reflexivity.
  - simpl. lia.
Defined.

(** X12.  A POSTed [url] that is not empty and does not normalize is
    answered with 502 and "invalid URL: " followed by the cause, whatever
    the network would have answered.  The cause is "empty URL" exactly
    when the [url] holds nothing but white space: such an input is a 502,
    not the 400 of a missing [url]. *)
Theorem invalid_input_is_bad_gateway
    (library_text : go_error -> string) (w : World) (r : Request) (c : go_error) :
  req_Method r = "POST" ->
  req_FormValue_url r <> "" ->
  normalizeURL (req_FormValue_url r) = Err c ->
  let text := "invalid URL: " +:+ go_error_text library_text c in
  handleAnalyze library_text w r
  = [WriteHeader 502;
     Execute_result (ErrorPage text (req_FormValue_url r) 502 text)] /\
  (strings_TrimSpace (req_FormValue_url r) = "" <-> c = ErrEmptyURLInput) /\
  (c = ErrEmptyURLInput -> text = "invalid URL: empty URL").
Proof.
  intros Hm Hu Hn text. split_and!.
  - unfold handleAnalyze. rewrite Hm. simpl.
    apply is_empty_false in Hu. rewrite Hu.
    unfold AnalyzeURL. by rewrite Hn.
  - rewrite normalizeURL_unfold in Hn.
    destruct (is_empty (strings_TrimSpace (req_FormValue_url r))) eqn:E.
    + apply is_empty_true in E. split; [intros _; congruence|done].
    + apply is_empty_false in E.
      split; [done|]. intros ->.
      destruct (url_Parse _) as [u|]; [|done].
      by destruct (is_empty (Host u)).
  - by intros ->.
Qed.

Lemma invalid_input_is_bad_gateway_witness :
  handleAnalyze no_library_text loop_world (mkRequest "POST" "   ")
  = [WriteHeader 502;
     Execute_result
       (ErrorPage "invalid URL: empty URL" "   " 502 "invalid URL: empty URL")].
Proof.
  exact (proj1 (invalid_input_is_bad_gateway no_library_text loop_world
                  (mkRequest "POST" "   ") ErrEmptyURLInput
                  eq_refl ltac:(discriminate) eq_refl)).
Defined.

(* ================================================================== *)
(** ** The environment *)
(* ================================================================== *)

(** X13.  [getEnv] treats a variable that is set to the empty string like
    one that is not set: it gives the default in both cases and the value
    of the variable in every other.  With a default that is not empty the
    result is never empty, and setting another variable changes nothing. *)
Theorem getEnv_empty_is_unset (env : gmap string string) (key def : string) :
  (getEnv env key def = def <->
   env !! key = None \/ env !! key = Some "" \/ env !! key = Some def) /\
  (getEnv env key def <> def -> env !! key = Some (getEnv env key def)) /\
  (def <> "" -> getEnv env key def <> "") /\
  getEnv (<[key := ""]> env) key def = getEnv (delete key env) key def /\
  (forall other v, other <> key ->
     getEnv (<[other := v]> env) key def = getEnv env key def).
Proof.
  unfold getEnv, os_Getenv. split_and!.
  - destruct (env !! key) as [v|] eqn:E; simpl.
    + destruct (is_empty v) eqn:Hv; simpl.
      * apply is_empty_true in Hv. subst v. split; [by right; left|done].
      * apply is_empty_false in Hv. split.
        -- intros ->. by right; right.
        -- intros [?|[[= ?]|[= ?]]]; done.
    + split; [by left|done].
  - destruct (env !! key) as [v|] eqn:E; simpl; [|done].
    by destruct (is_empty v).
  - intros Hd. destruct (env !! key) as [v|] eqn:E; simpl; [|done].
    destruct (is_empty v) eqn:Hv; simpl; [done|].
    by apply is_empty_false in Hv.
  - by rewrite lookup_insert_eq, lookup_delete_eq.
  - intros other v Hne. by rewrite lookup_insert_ne.
Qed.
